(** * Twake Assistant: the audio frame accumulator and the streaming
      transcription client

    A shallow embedding of

    - the [WhisperAudioProcessor] audio worklet (the stand-alone worklet
      file and the copy inlined in [useAudioCapture.js]),
    - the [useAudioCapture] hook: [startRecording], the message handler
      it installs on the worklet node, [stopRecording], [clearChunks],
    - the [WhisperTranscription] component: [createSession],
      [processSession], [endSession], [handleStartRecording] with its
      [sendChunk] callback, [handleStopRecording], [getTranscriptionText],
      the effect that polls and the effect that saves the transcription,
      [handleCopyTranscription], [handleDownloadTranscription], and the
      controls that the page offers,
    - the [TranscriptionHistory] component: [handleToggleExpand],
      [handleCopy], [handleDelete], [getTruncatedText] and the card it
      renders for a transcription,

    followed by the properties of these functions.

    Conventions of the embedding.

    - A JavaScript string is the list of its UTF-16 code units.
    - An [async] function is a computation over the [World] that either
      completes normally or throws; [try]/[catch] is [tryCatch].  The
      result of every call that leaves the program ([fetch],
      [response.json()], [client.save], the Web Audio calls) is an
      argument of the function that performs the call.
    - A state hook is a field of the world: [setX v] writes the field.
      A callback reads the hooks it closes over when it is entered, as the
      closure of the latest render does.
    - Handlers run one after the other, each to its end, the calls it
      awaits included: two handlers that wait on their requests at the
      same time are not represented.  Two waits are kept apart from what
      precedes them, because what happens to the page in between
      matters: the save effect stops at its call of [client.save]
      ([saveEffectCall]) and goes on when the call settles
      ([saveTranscriptionResume]); a poll of the interval stops at its
      request ([processSessionCall]) and goes on when the answer arrives
      ([processSessionResume]).  [saveEffect] and [processSession] are
      the two halves run back to back.
    - [console.log] and [console.error] calls are left out, and so is
      the markup of the page other than what decides which controls are
      on offer; [formatDate] and the order of the cards of the history
      are left to the platform. *)

From stdpp Require Import base list.
From Stdlib Require Import NArith Ascii Floats Lia.
From Stdlib Require String.
Import String.StringSyntax.

Set Default Proof Using "Type".

(* ================================================================= *)
(** ** JavaScript strings *)

Definition JSString : Type := list N.

(** A string literal of the source, as code units. *)
Definition str (s : String.string) : JSString :=
  map N_of_ascii (String.list_ascii_of_string s).
Arguments str s%_string_scope.

(** A string is truthy unless it is empty. *)
Definition truthy (s : JSString) : bool :=
  match s with [] => false | _ :: _ => true end.

(** [a === b] on strings. *)
Definition strictEq (a b : JSString) : bool := bool_decide (a = b).

(** [xs.join(sep)] on an array of strings. *)
Fixpoint join (sep : JSString) (xs : list JSString) : JSString :=
  match xs with
  | [] => []
  | x :: rest =>
      match rest with
      | [] => x
      | _ :: _ => x ++ sep ++ join sep rest
      end
  end.

(** ECMAScript [WhiteSpace] and [LineTerminator] code points, the ones
    [String.prototype.trim] strips. *)
Definition isWhiteSpace (c : N) : bool :=
  (  (c =? 0x09) || (c =? 0x0A) || (c =? 0x0B) || (c =? 0x0C) || (c =? 0x0D)
  || (c =? 0x20) || (c =? 0xA0) || (c =? 0x1680)
  || ((0x2000 <=? c) && (c <=? 0x200A))
  || (c =? 0x2028) || (c =? 0x2029) || (c =? 0x202F) || (c =? 0x205F)
  || (c =? 0x3000) || (c =? 0xFEFF))%N.

Fixpoint trimStart (s : JSString) : JSString :=
  match s with
  | [] => []
  | c :: rest => if isWhiteSpace c then trimStart rest else s
  end.

Definition trimEnd (s : JSString) : JSString := rev (trimStart (rev s)).

(** [s.trim()]. *)
Definition trim (s : JSString) : JSString := trimEnd (trimStart s).

(** An [Error] object; only its [message] is ever read. *)
Record JSError := { message : JSString }.

(** The result of a call into the platform: it returns or it throws. *)
Inductive Outcome (A : Type) :=
| Returns (a : A)
| Throws (err : JSError).
Arguments Returns {A} a.
Arguments Throws {A} err.

(* ================================================================= *)
(** ** The audio worklet: [WhisperAudioProcessor] *)

Module Worklet.
Section Processor.
(** The elements of a [Float32Array].  The buffer holds the numbers read
    from such arrays, so building a [Float32Array] from a slice of the
    buffer changes none of them. *)
Context {sample : Type}.

Definition Float32Array : Type := list sample.

Record WhisperAudioProcessor := {
  buffer : list sample;
  chunkSize : nat
}.

(** A message received on the port: [event.data]. *)
Record PortCommand := { command : JSString }.

(** A message posted to the main thread: [{ type: 'audio', data }]. *)
Record AudioMessage := { type : JSString; data : Float32Array }.

(** What one call of [process] does: the value returned to the host,
    the messages posted, and the processor afterwards. *)
Record Step := {
  alive : bool;
  posted : list AudioMessage;
  next : WhisperAudioProcessor
}.

Definition constructor : WhisperAudioProcessor :=
  {| buffer := []; chunkSize := 1600 |}.

(** [this.port.onmessage] *)
Definition onmessage (event : PortCommand) (this : WhisperAudioProcessor)
  : WhisperAudioProcessor :=
  if strictEq (command event) (str "clear")
  then {| buffer := []; chunkSize := chunkSize this |}
  else this.

(** [for (i = 0; i < inputChannel.length; i++) buffer.push(inputChannel[i])] *)
Definition pushAll (buf : list sample) (inputChannel : Float32Array)
  : list sample :=
  fold_left (fun b x => b ++ [x]) inputChannel buf.

(** [buf.splice(0, n)]: the removed elements and what is left of [buf]. *)
Definition splice0 (n : nat) (buf : list sample)
  : list sample * list sample :=
  (take n buf, drop n buf).

(** [process(inputs, outputs, parameters)].  [inputs] is an array of
    inputs, an input an array of channels; [None] is a channel slot that
    holds no array. *)
Definition process (inputs : list (list (option Float32Array)))
    (this : WhisperAudioProcessor) : Step :=
  match inputs with
  | [] => {| alive := true; posted := []; next := this |}
  | input :: _ =>
      match input with
      | [] => {| alive := true; posted := []; next := this |}
      | None :: _ => {| alive := true; posted := []; next := this |}
      | Some inputChannel :: _ =>
          let buf := pushAll (buffer this) inputChannel in
          if chunkSize this <=? length buf then
            let '(audioChunk, rest) := splice0 (chunkSize this) buf in
            {| alive := true;
               posted := [ {| type := str "audio"; data := audioChunk |} ];
               next := {| buffer := rest; chunkSize := chunkSize this |} |}
          else
            {| alive := true; posted := [];
               next := {| buffer := buf; chunkSize := chunkSize this |} |}
      end
  end.

(** The host calls [process] once per render quantum for as long as it
    returns [true]; [feed] runs it over successive [inputs]. *)
Fixpoint feed (calls : list (list (list (option Float32Array))))
    (this : WhisperAudioProcessor) : Step :=
  match calls with
  | [] => {| alive := true; posted := []; next := this |}
  | inputs :: later =>
      let s := process inputs this in
      if alive s then
        let s' := feed later (next s) in
        {| alive := alive s'; posted := posted s ++ posted s';
           next := next s' |}
      else s
  end.

(** A mono frame as the host hands it to [process]. *)
Definition mono (frame : Float32Array) : list (list (option Float32Array)) :=
  [ [ Some frame ] ].
End Processor.
Arguments WhisperAudioProcessor : clear implicits.
Arguments AudioMessage : clear implicits.
Arguments Step : clear implicits.
Arguments Float32Array : clear implicits.

(** The copy of the processor inlined in [useAudioCapture.js]: it also
  counts the frames it has seen, to pace its debug output. *)
Module Inline.
Section Processor.
Context {sample : Type}.

Record WhisperAudioProcessor := {
  buffer : list sample;
  chunkSize : nat;
  sampleCount : nat;
  debugInterval : nat
}.

(** What one call of [process] does.  [alive] is [true] when the call
    has returned [true]; it is [false] when the call has thrown, after
    which the host calls the processor no more. *)
Record Step := {
  alive : bool;
  posted : list (AudioMessage sample);
  next : WhisperAudioProcessor
}.

Definition constructor : WhisperAudioProcessor :=
  {| buffer := []; chunkSize := 1600; sampleCount := 0;
     debugInterval := 50 |}.

(** [this.sampleCount % this.debugInterval === 0]; the remainder by zero
    is [NaN], which is not [0]. *)
Definition debugDue (count interval : nat) : bool :=
  negb (interval =? 0) && (count mod interval =? 0).

Definition onmessage (event : PortCommand) (this : WhisperAudioProcessor)
  : WhisperAudioProcessor :=
  if strictEq (command event) (str "clear")
  then {| buffer := []; chunkSize := chunkSize this;
          sampleCount := sampleCount this;
          debugInterval := debugInterval this |}
  else this.

(** [process(inputs)].  On every frame whose count is a multiple of
    [debugInterval] the copy prints the levels of the frame before it
    buffers the samples; [debug] is what evaluating that output does: it
    computes [Math.max(...inputChannel.map(Math.abs))], which throws a
    [RangeError] when the engine does not take as many arguments as the
    frame has samples, and nothing else in it can throw. *)
Definition process (debug : Outcome unit)
    (inputs : list (list (option (Float32Array sample))))
    (this : WhisperAudioProcessor) : Step :=
  match inputs with
  | [] => {| alive := true; posted := []; next := this |}
  | input :: _ =>
      match input with
      | [] => {| alive := true; posted := []; next := this |}
      | None :: _ => {| alive := true; posted := []; next := this |}
      | Some inputChannel :: _ =>
          let count := S (sampleCount this) in
          let buf := pushAll (buffer this) inputChannel in
          if debugDue count (debugInterval this)
             && match debug with Returns _ => false | Throws _ => true end
          then
            {| alive := false; posted := [];
               next := {| buffer := buffer this; chunkSize := chunkSize this;
                          sampleCount := count;
                          debugInterval := debugInterval this |} |}
          else
          if chunkSize this <=? length buf then
            let '(audioChunk, rest) := splice0 (chunkSize this) buf in
            {| alive := true;
               posted := [ {| type := str "audio"; data := audioChunk |} ];
               next := {| buffer := rest; chunkSize := chunkSize this;
                          sampleCount := count;
                          debugInterval := debugInterval this |} |}
          else
            {| alive := true; posted := [];
               next := {| buffer := buf; chunkSize := chunkSize this;
                          sampleCount := count;
                          debugInterval := debugInterval this |} |}
      end
  end.

(** The part of the inlined processor that the worklet file has too. *)
Definition erase (this : WhisperAudioProcessor)
  : Worklet.WhisperAudioProcessor sample :=
  {| Worklet.buffer := buffer this; Worklet.chunkSize := chunkSize this |}.
End Processor.
Arguments WhisperAudioProcessor : clear implicits.
Arguments Step : clear implicits.
End Inline.
End Worklet.

(* ================================================================= *)
(** ** The backend, the document store and the state of the page *)

(** A segment of a poll response: [{ text, timestamp: [start, end] }]. *)
Record Segment := { text : JSString; timestamp : float * float }.

(** The requests of the client.  The URL of each is [BACKEND_URL]
    followed by the path that the constructor stands for. *)
Inductive Request :=
| SessionCreate (language : JSString)
    (* POST /session/create/ with body { language } *)
| SessionAddChunk (session : JSString) (audio_base64 : JSString)
    (* POST /session/<session>/add_chunk with body { audio_base64 } *)
| SessionProcess (session : JSString)
    (* POST /session/<session>/process *)
| SessionEnd (session : JSString).
    (* POST /session/<session>/end *)

(** A [Response]: its status, and what [response.json()] gives. *)
Record Response (B : Type) := { status : nat; json : Outcome B }.
Arguments status {B} r.
Arguments json {B} r.

(** [response.ok]: the status is in the range 200-299. *)
Definition ok {B} (response : Response B) : bool :=
  (200 <=? status response) && (status response <=? 299).

(** What [fetch] does: it rejects (a network error) or it resolves with
    a response of any status. *)
Definition Fetch (B : Type) : Type := Outcome (Response B).

(** The body of the session-create response.  [None] is a missing or
    [null] [session_id]. *)
Record CreateData := { session_id : option JSString }.

(** The body of the process response.  [None] is a missing or [null]
    field; a field that is present is an array of segments. *)
Record ProcessData := {
  committed : option (list Segment);
  uncommitted : option (list Segment)
}.

(** The doctype constants that [src/doctypes] exports.  The strings they
    stand for are declared in files outside the sources at hand, so the
    constants are kept as names. *)
Inductive Doctype := TODOS_DOCTYPE | TRANSCRIPTIONS_DOCTYPE.

Module Doc.
(** The document handed to [client.save]. *)
Record TranscriptionRecord := {
  _type : Doctype;
  text : JSString;
  language : JSString;
  createdAt : JSString;
  wordCount : nat
}.
End Doc.

(** The state hooks and the ref of [WhisperTranscription]. *)
Record Transcription := {
  sessionId : option JSString;
  committedSegments : list Segment;
  uncommittedSegments : list Segment;
  isProcessing : bool;
  error : option JSString;
  language : JSString;
  shouldSave : bool;
  intervalRef : option positive
}.

(** The state hooks and the refs of [useAudioCapture].  A ref to a
    platform object is [true] when it holds the object and [false] when it
    holds [null]; [onAudioChunk] is the callback that [startRecording] has
    installed on the worklet node: [sendChunk], named by the session
    identifier it has closed over. *)
Record AudioCapture := {
  isRecording : bool;
  audioError : option JSString;
  audioContextRef : bool;
  sourceNodeRef : bool;
  workletNodeRef : bool;
  streamRef : bool;
  audioChunksRef : list (list float);
  onAudioChunk : option (option JSString)
}.

(** What the page has done to the world around it: the requests sent
    (oldest first), the documents saved (oldest first), the commands
    posted to the worklet, the intervals that are running. *)
Record Outside := {
  requests : list Request;
  documents : list Doc.TranscriptionRecord;
  workletPort : list Worklet.PortCommand;
  activeIntervals : list positive
}.

Record World := {
  ui : Transcription;
  capture : AudioCapture;
  outside : Outside
}.

(** *** Field updates *)

Definition with_sessionId (v : option JSString) (s : Transcription) : Transcription :=
  {| sessionId := v; committedSegments := committedSegments s;
     uncommittedSegments := uncommittedSegments s;
     isProcessing := isProcessing s; error := error s;
     language := language s; shouldSave := shouldSave s;
     intervalRef := intervalRef s |}.

Definition with_committedSegments (v : list Segment) (s : Transcription) : Transcription :=
  {| sessionId := sessionId s; committedSegments := v;
     uncommittedSegments := uncommittedSegments s;
     isProcessing := isProcessing s; error := error s;
     language := language s; shouldSave := shouldSave s;
     intervalRef := intervalRef s |}.

Definition with_uncommittedSegments (v : list Segment) (s : Transcription) : Transcription :=
  {| sessionId := sessionId s; committedSegments := committedSegments s;
     uncommittedSegments := v; isProcessing := isProcessing s;
     error := error s; language := language s; shouldSave := shouldSave s;
     intervalRef := intervalRef s |}.

Definition with_isProcessing (v : bool) (s : Transcription) : Transcription :=
  {| sessionId := sessionId s; committedSegments := committedSegments s;
     uncommittedSegments := uncommittedSegments s; isProcessing := v;
     error := error s; language := language s; shouldSave := shouldSave s;
     intervalRef := intervalRef s |}.

Definition with_error (v : option JSString) (s : Transcription) : Transcription :=
  {| sessionId := sessionId s; committedSegments := committedSegments s;
     uncommittedSegments := uncommittedSegments s;
     isProcessing := isProcessing s; error := v; language := language s;
     shouldSave := shouldSave s; intervalRef := intervalRef s |}.

Definition with_language (v : JSString) (s : Transcription) : Transcription :=
  {| sessionId := sessionId s; committedSegments := committedSegments s;
     uncommittedSegments := uncommittedSegments s;
     isProcessing := isProcessing s; error := error s; language := v;
     shouldSave := shouldSave s; intervalRef := intervalRef s |}.

Definition with_shouldSave (v : bool) (s : Transcription) : Transcription :=
  {| sessionId := sessionId s; committedSegments := committedSegments s;
     uncommittedSegments := uncommittedSegments s;
     isProcessing := isProcessing s; error := error s;
     language := language s; shouldSave := v;
     intervalRef := intervalRef s |}.

Definition with_intervalRef (v : option positive) (s : Transcription) : Transcription :=
  {| sessionId := sessionId s; committedSegments := committedSegments s;
     uncommittedSegments := uncommittedSegments s;
     isProcessing := isProcessing s; error := error s;
     language := language s; shouldSave := shouldSave s; intervalRef := v |}.

Definition with_isRecording (v : bool) (s : AudioCapture) : AudioCapture :=
  {| isRecording := v; audioError := audioError s;
     audioContextRef := audioContextRef s; sourceNodeRef := sourceNodeRef s;
     workletNodeRef := workletNodeRef s; streamRef := streamRef s;
     audioChunksRef := audioChunksRef s; onAudioChunk := onAudioChunk s |}.

Definition with_audioError (v : option JSString) (s : AudioCapture) : AudioCapture :=
  {| isRecording := isRecording s; audioError := v;
     audioContextRef := audioContextRef s; sourceNodeRef := sourceNodeRef s;
     workletNodeRef := workletNodeRef s; streamRef := streamRef s;
     audioChunksRef := audioChunksRef s; onAudioChunk := onAudioChunk s |}.

Definition with_audioContextRef (v : bool) (s : AudioCapture) : AudioCapture :=
  {| isRecording := isRecording s; audioError := audioError s;
     audioContextRef := v; sourceNodeRef := sourceNodeRef s;
     workletNodeRef := workletNodeRef s; streamRef := streamRef s;
     audioChunksRef := audioChunksRef s; onAudioChunk := onAudioChunk s |}.

Definition with_sourceNodeRef (v : bool) (s : AudioCapture) : AudioCapture :=
  {| isRecording := isRecording s; audioError := audioError s;
     audioContextRef := audioContextRef s; sourceNodeRef := v;
     workletNodeRef := workletNodeRef s; streamRef := streamRef s;
     audioChunksRef := audioChunksRef s; onAudioChunk := onAudioChunk s |}.

Definition with_workletNodeRef (v : bool) (s : AudioCapture) : AudioCapture :=
  {| isRecording := isRecording s; audioError := audioError s;
     audioContextRef := audioContextRef s; sourceNodeRef := sourceNodeRef s;
     workletNodeRef := v; streamRef := streamRef s;
     audioChunksRef := audioChunksRef s; onAudioChunk := onAudioChunk s |}.

Definition with_streamRef (v : bool) (s : AudioCapture) : AudioCapture :=
  {| isRecording := isRecording s; audioError := audioError s;
     audioContextRef := audioContextRef s; sourceNodeRef := sourceNodeRef s;
     workletNodeRef := workletNodeRef s; streamRef := v;
     audioChunksRef := audioChunksRef s; onAudioChunk := onAudioChunk s |}.

Definition with_audioChunksRef (v : list (list float)) (s : AudioCapture) : AudioCapture :=
  {| isRecording := isRecording s; audioError := audioError s;
     audioContextRef := audioContextRef s; sourceNodeRef := sourceNodeRef s;
     workletNodeRef := workletNodeRef s; streamRef := streamRef s;
     audioChunksRef := v; onAudioChunk := onAudioChunk s |}.

Definition with_onAudioChunk (v : option (option JSString)) (s : AudioCapture) : AudioCapture :=
  {| isRecording := isRecording s; audioError := audioError s;
     audioContextRef := audioContextRef s; sourceNodeRef := sourceNodeRef s;
     workletNodeRef := workletNodeRef s; streamRef := streamRef s;
     audioChunksRef := audioChunksRef s; onAudioChunk := v |}.

Definition with_requests (v : list Request) (s : Outside) : Outside :=
  {| requests := v; documents := documents s; workletPort := workletPort s;
     activeIntervals := activeIntervals s |}.

Definition with_documents (v : list Doc.TranscriptionRecord) (s : Outside) : Outside :=
  {| requests := requests s; documents := v; workletPort := workletPort s;
     activeIntervals := activeIntervals s |}.

Definition with_workletPort (v : list Worklet.PortCommand) (s : Outside) : Outside :=
  {| requests := requests s; documents := documents s; workletPort := v;
     activeIntervals := activeIntervals s |}.

Definition with_activeIntervals (v : list positive) (s : Outside) : Outside :=
  {| requests := requests s; documents := documents s;
     workletPort := workletPort s; activeIntervals := v |}.

Definition onUi (f : Transcription → Transcription) (w : World) : World :=
  {| ui := f (ui w); capture := capture w; outside := outside w |}.

Definition onCapture (f : AudioCapture → AudioCapture) (w : World) : World :=
  {| ui := ui w; capture := f (capture w); outside := outside w |}.

Definition onOutside (f : Outside → Outside) (w : World) : World :=
  {| ui := ui w; capture := capture w; outside := f (outside w) |}.

(* ================================================================= *)
(** ** Computations: state, exceptions, [try]/[catch] *)

Definition M (A : Type) : Type := World → Outcome A * World.

Definition ret {A} (a : A) : M A := λ w, (Returns a, w).

Definition bind {A B} (m : M A) (k : A → M B) : M B := λ w,
  match m w with
  | (Returns a, w') => k a w'
  | (Throws err, w') => (Throws err, w')
  end.

Declare Scope js_scope.
Delimit Scope js_scope with js.
Bind Scope js_scope with M.
Notation "x ← m ; k" := (bind m (λ x, k))
  (at level 20, m at level 100, k at level 200, only parsing) : js_scope.
Notation "m ;; k" := (bind m (λ _, k))
  (at level 100, k at level 200, only parsing, right associativity) : js_scope.
Open Scope js_scope.

Definition throw {A} (err : JSError) : M A := λ w, (Throws err, w).

(** [new Error(msg)] *)
Definition Error (msg : JSString) : JSError := {| message := msg |}.

Definition tryCatch {A} (body : M A) (handler : JSError → M A) : M A :=
  λ w, match body w with
       | (Throws err, w') => handler err w'
       | (Returns a, w') => (Returns a, w')
       end.

(** A call into the platform, whose result is given. *)
Definition call {A} (result : Outcome A) : M A := λ w, (result, w).

Definition read {A} (field : World → A) : M A := λ w, (Returns (field w), w).

Definition write (f : World → World) : M unit := λ w, (Returns (), f w).

(** The world after a computation, and its completion. *)
Definition exec {A} (m : M A) (w : World) : World := snd (m w).
Definition completion {A} (m : M A) (w : World) : Outcome A := fst (m w).

(** [!v] for a value that is [null] or a string. *)
Definition falsy (v : option JSString) : bool :=
  match v with
  | None => true
  | Some s => negb (truthy s)
  end.

(** The value inside a template literal. *)
Definition toString (v : option JSString) : JSString :=
  match v with
  | None => str "null"
  | Some s => s
  end.

(** The state setters. *)
Definition setSessionId (v : option JSString) : M unit :=
  write (onUi (with_sessionId v)).
Definition setCommittedSegments (v : list Segment) : M unit :=
  write (onUi (with_committedSegments v)).
Definition setUncommittedSegments (v : list Segment) : M unit :=
  write (onUi (with_uncommittedSegments v)).
Definition setIsProcessing (v : bool) : M unit :=
  write (onUi (with_isProcessing v)).
Definition setError (v : option JSString) : M unit :=
  write (onUi (with_error v)).
Definition setLanguage (v : JSString) : M unit :=
  write (onUi (with_language v)).
Definition setShouldSave (v : bool) : M unit :=
  write (onUi (with_shouldSave v)).
Definition setIsRecording (v : bool) : M unit :=
  write (onCapture (with_isRecording v)).
Definition setAudioError (v : option JSString) : M unit :=
  write (onCapture (with_audioError v)).

(** The world once [request] has left the page. *)
Definition sent (request : Request) (w : World) : World :=
  onOutside (λ o, with_requests (requests o ++ [request]) o) w.

(** [fetch(url, init)]: the request leaves, then the call rejects or
    resolves as [net] says. *)
Definition fetch {B} (request : Request) (net : Fetch B) : M (Response B) :=
  write (sent request);;
  call net.

(** [client.save(doc)]: the document is stored unless the call throws. *)
Definition clientSave (doc : Doc.TranscriptionRecord) (store : Outcome unit)
  : M unit :=
  match store with
  | Returns _ =>
      write (onOutside (λ o, with_documents (documents o ++ [doc]) o))
  | Throws err => throw err
  end.

(** [if (intervalRef.current) { clearInterval(intervalRef.current);
    intervalRef.current = null }] *)
Definition clearPolling : M unit :=
  ref ← read (λ w, intervalRef (ui w));
  match ref with
  | None => ret ()
  | Some id =>
      write (onOutside (λ o,
        with_activeIntervals (filter (λ i, i ≠ id) (activeIntervals o)) o));;
      write (onUi (with_intervalRef None))
  end.


(* ================================================================= *)
(** ** The hook [useAudioCapture] *)

(** What the Web Audio calls of [stopRecording] do. *)
Record Teardown := {
  disconnectWorklet : Outcome unit;   (* workletNode.disconnect() *)
  disconnectSource : Outcome unit;    (* sourceNode.disconnect() *)
  stopTracks : Outcome unit;          (* getTracks().forEach(t => t.stop()) *)
  closeContext : Outcome unit         (* audioContext.close() *)
}.

(** What the platform calls of [startRecording] do. *)
Record CaptureDevice := {
  hasGetUserMedia : bool;  (* navigator.mediaDevices && ....getUserMedia *)
  getUserMedia : Outcome unit;
  newAudioContext : Outcome unit;
  createMediaStreamSource : Outcome unit;
  addModule : Outcome unit;           (* audioWorklet.addModule(url) *)
  newAudioWorkletNode : Outcome unit;
  connectGraph : Outcome unit         (* source.connect, workletNode.connect *)
}.

Definition microphoneUnavailable : JSString :=
  str "Acc" ++ [0xE8%N]
  ++ str "s au microphone non disponible. Pour des raisons de s"
  ++ [0xE9%N] ++ str "curit" ++ [0xE9%N]
  ++ str ", votre navigateur exige HTTPS ou localhost. "
  ++ str "Utilisez http://localhost:8888 ou configurez HTTPS pour acc"
  ++ [0xE9%N] ++ str "der au microphone.".

(** [startRecording(onAudioChunk)] *)
Definition startRecording (callback : option JSString) (dev : CaptureDevice)
  : M unit :=
  tryCatch
    (setAudioError None;;
     (if negb (hasGetUserMedia dev)
      then throw (Error microphoneUnavailable) else ret ());;
     call (getUserMedia dev);;
     write (onCapture (with_streamRef true));;
     call (newAudioContext dev);;
     write (onCapture (with_audioContextRef true));;
     call (createMediaStreamSource dev);;
     write (onCapture (with_sourceNodeRef true));;
     call (addModule dev);;
     call (newAudioWorkletNode dev);;
     write (onCapture (with_workletNodeRef true));;
     write (onCapture (with_onAudioChunk (Some callback)));;
     call (connectGraph dev);;
     setIsRecording true)
    (λ err, setAudioError (Some (message err))).

(** [stopRecording()] *)
Definition stopRecording (t : Teardown) : M unit :=
  tryCatch
    (node ← read (λ w, workletNodeRef (capture w));
     (if node
      then call (disconnectWorklet t);;
           write (onCapture (with_workletNodeRef false))
      else ret ());;
     source ← read (λ w, sourceNodeRef (capture w));
     (if source
      then call (disconnectSource t);;
           write (onCapture (with_sourceNodeRef false))
      else ret ());;
     stream ← read (λ w, streamRef (capture w));
     (if stream
      then call (stopTracks t);;
           write (onCapture (with_streamRef false))
      else ret ());;
     audioContext ← read (λ w, audioContextRef (capture w));
     (if audioContext
      then call (closeContext t);;
           write (onCapture (with_audioContextRef false))
      else ret ());;
     setIsRecording false)
    (λ err, setAudioError (Some (message err))).

(** [clearChunks()] *)
Definition clearChunks : M unit :=
  write (onCapture (with_audioChunksRef []));;
  node ← read (λ w, workletNodeRef (capture w));
  if node
  then write (onOutside (λ o,
         with_workletPort
           (workletPort o ++ [ {| Worklet.command := str "clear" |} ]) o))
  else ret ().

(* ================================================================= *)
(** ** The component [WhisperTranscription] *)

(** [createSession()] *)
Definition createSession (net : Fetch CreateData) : M (option JSString) :=
  lang ← read (λ w, language (ui w));
  tryCatch
    (setError None;;
     response ← fetch (SessionCreate lang) net;
     (if negb (ok response)
      then throw (Error (str "Failed to create session")) else ret ());;
     data ← call (json response);
     setSessionId (session_id data);;
     ret (session_id data))
    (λ err, setError (Some (message err));; ret None).

(** [processSession()] *)
Definition processSession (net : Fetch ProcessData) : M unit :=
  id ← read (λ w, sessionId (ui w));
  if falsy id then ret () else
  tryCatch
    (setIsProcessing true;;
     response ← fetch (SessionProcess (toString id)) net;
     (if negb (ok response)
      then throw (Error (str "Failed to process session")) else ret ());;
     data ← call (json response);
     (match committed data with
      | Some segments =>
          if 0 <? length segments
          then setCommittedSegments segments else ret ()
      | None => ret ()
      end);;
     (match uncommitted data with
      | Some segments => setUncommittedSegments segments
      | None => setUncommittedSegments []
      end);;
     setIsProcessing false)
    (λ err, setError (Some (message err));; setIsProcessing false).

(** [processSession()] up to its request: it returns whether a request
    has been sent, for which the function now waits. *)
Definition processSessionCall : M bool :=
  id ← read (λ w, sessionId (ui w));
  if falsy id then ret false else
  setIsProcessing true;;
  write (sent (SessionProcess (toString id)));;
  ret true.

(** [processSession()] from the answer to its request on. *)
Definition processSessionResume (net : Fetch ProcessData) : M unit :=
  tryCatch
    (response ← call net;
     (if negb (ok response)
      then throw (Error (str "Failed to process session")) else ret ());;
     data ← call (json response);
     (match committed data with
      | Some segments =>
          if 0 <? length segments
          then setCommittedSegments segments else ret ()
      | None => ret ()
      end);;
     (match uncommitted data with
      | Some segments => setUncommittedSegments segments
      | None => setUncommittedSegments []
      end);;
     setIsProcessing false)
    (λ err, setError (Some (message err));; setIsProcessing false).

(** [endSession()] *)
Definition endSession (poll : Fetch ProcessData) (net : Fetch unit) : M unit :=
  id ← read (λ w, sessionId (ui w));
  if falsy id then ret () else
  tryCatch
    (processSession poll;;
     fetch (SessionEnd (toString id)) net;;
     setSessionId None)
    (λ err, setError (Some (message err))).

(** The callback [sendChunk] that [handleStartRecording] builds around
    the identifier of the session it has just created. *)
Definition sendChunk (newSessionId : option JSString)
    (audioBase64 : JSString) (net : Fetch unit) : M unit :=
  tryCatch
    (response ← fetch (SessionAddChunk (toString newSessionId) audioBase64) net;
     if negb (ok response)
     then throw (Error (str "Failed to send audio chunk")) else ret ())
    (λ err, setError (Some (message err))).

(** The handler that [startRecording] installs on the port of the worklet
    node, with the callback that [handleStartRecording] passes: it keeps
    the chunk, encodes it and hands it to [sendChunk].  The encoding
    [float32ToBase64] (the bytes of the samples, in base 64) is taken as
    given. *)
Definition onWorkletMessage (float32ToBase64 : list float → JSString)
    (event : Worklet.AudioMessage float) (net : Fetch unit) : M unit :=
  if strictEq (Worklet.type event) (str "audio") then
    write (onCapture (λ c,
      with_audioChunksRef (audioChunksRef c ++ [Worklet.data event]) c));;
    callback ← read (λ w, onAudioChunk (capture w));
    match callback with
    | Some newSessionId =>
        sendChunk newSessionId (float32ToBase64 (Worklet.data event)) net
    | None => ret ()
    end
  else ret ().

(** [handleStartRecording()] *)
Definition handleStartRecording (net : Fetch CreateData) (dev : CaptureDevice)
  : M unit :=
  tryCatch
    (setError None;;
     setCommittedSegments [];;
     setUncommittedSegments [];;
     setShouldSave false;;
     clearChunks;;
     clearPolling;;
     newSessionId ← createSession net;
     if falsy newSessionId then ret () else
     startRecording newSessionId dev)
    (λ err, setError (Some (message err))).

(** [handleStopRecording()] *)
Definition handleStopRecording (t : Teardown) (poll : Fetch ProcessData)
    (net : Fetch unit) : M unit :=
  tryCatch
    (clearPolling;;
     stopRecording t;;
     setShouldSave true;;
     endSession poll net)
    (λ err, setError (Some (message err))).

(** [getTranscriptionText()], also the committed text on display. *)
Definition getTranscriptionText (w : World) : JSString :=
  join (str " ") (map text (committedSegments (ui w))).

(** The uncommitted text on display. *)
Definition uncommittedText (w : World) : JSString :=
  join (str " ") (map text (uncommittedSegments (ui w))).

(** [saveTranscription()], the function inside the save effect; [now] is
    [new Date().toISOString()]. *)
Definition saveTranscription (now : JSString) (store : Outcome unit) : M unit :=
  segments ← read (λ w, committedSegments (ui w));
  lang ← read (λ w, language (ui w));
  let text := join (str " ") (map text segments) in
  (if truthy text && truthy (trim text)
   then tryCatch
          (clientSave
             {| Doc._type := TRANSCRIPTIONS_DOCTYPE;
                Doc.text := text;
                Doc.language := lang;
                Doc.createdAt := now;
                Doc.wordCount := length segments |}
             store)
          (λ err, setError
             (Some (str "Erreur lors de la sauvegarde: " ++ message err)))
   else ret ());;
  setShouldSave false.

(** The effect that saves the transcription once recording has stopped
    and the session has ended.  React runs it after a render in which
    [shouldSave], [sessionId], [committedSegments], [client] or [language]
    has changed. *)
Definition saveEffect (now : JSString) (store : Outcome unit) : M unit :=
  flag ← read (λ w, shouldSave (ui w));
  id ← read (λ w, sessionId (ui w));
  if negb flag || negb (falsy id) then ret ()
  else saveTranscription now store.

(** [saveTranscription()] up to its call of [client.save]: it returns
    the document handed to [client.save], for which the function now
    waits with the save flag still up; with nothing to save it lowers
    the flag at once. *)
Definition saveTranscriptionCall (now : JSString)
  : M (option Doc.TranscriptionRecord) :=
  segments ← read (λ w, committedSegments (ui w));
  lang ← read (λ w, language (ui w));
  let text := join (str " ") (map text segments) in
  if truthy text && truthy (trim text)
  then ret (Some {| Doc._type := TRANSCRIPTIONS_DOCTYPE;
                    Doc.text := text;
                    Doc.language := lang;
                    Doc.createdAt := now;
                    Doc.wordCount := length segments |})
  else setShouldSave false;; ret None.

(** [saveTranscription()] from the moment [client.save(doc)] settles. *)
Definition saveTranscriptionResume (doc : Doc.TranscriptionRecord)
    (store : Outcome unit) : M unit :=
  tryCatch
    (clientSave doc store)
    (λ err, setError
       (Some (str "Erreur lors de la sauvegarde: " ++ message err)));;
  setShouldSave false.

(** The save effect up to the call of [client.save]. *)
Definition saveEffectCall (now : JSString)
  : M (option Doc.TranscriptionRecord) :=
  flag ← read (λ w, shouldSave (ui w));
  id ← read (λ w, sessionId (ui w));
  if negb flag || negb (falsy id) then ret None
  else saveTranscriptionCall now.

(** The effect that polls while recording: [fresh] is the identifier
    that [setInterval] returns; each tick of the interval calls
    [processSession]. *)
Definition pollingEffect (fresh : positive) : M unit :=
  recording ← read (λ w, isRecording (capture w));
  id ← read (λ w, sessionId (ui w));
  if negb recording || falsy id then ret ()
  else
    write (onOutside (λ o,
      with_activeIntervals (activeIntervals o ++ [fresh]) o));;
    write (onUi (with_intervalRef (Some fresh))).

(** The cleanup of the polling effect. *)
Definition pollingCleanup : M unit := clearPolling.

(** A run of polls, one [processSession] per tick, each answered in
    turn. *)
Fixpoint polls (answers : list (Fetch ProcessData)) : M unit :=
  match answers with
  | [] => ret ()
  | net :: later => processSession net;; polls later
  end.

(** The page when the component has just mounted: the initial value of
    every hook and ref, and nothing done yet. *)
Definition mounted : World :=
  {| ui := {| sessionId := None; committedSegments := [];
              uncommittedSegments := []; isProcessing := false;
              error := None; language := str "fr"; shouldSave := false;
              intervalRef := None |};
     capture := {| isRecording := false; audioError := None;
                   audioContextRef := false; sourceNodeRef := false;
                   workletNodeRef := false; streamRef := false;
                   audioChunksRef := []; onAudioChunk := None |};
     outside := {| requests := []; documents := []; workletPort := [];
                   activeIntervals := [] |} |}.

(** *** Vocabulary for the properties *)

(** A request fails when [fetch] rejects or the response is not 2xx. *)
Definition failed {B} (net : Fetch B) : Prop :=
  match net with
  | Throws _ => True
  | Returns response => ok response = false
  end.

(** The message of the error that a failed request raises in a function
    that throws [new Error(generic)] on a response that is not [ok]. *)
Definition failureMessage {B} (generic : JSString) (net : Fetch B) : JSString :=
  match net with
  | Throws err => message err
  | Returns _ => generic
  end.

(** A poll succeeds when the response is 2xx and its body parses. *)
Definition succeeded (net : Fetch ProcessData) (data : ProcessData) : Prop :=
  ∃ response, net = Returns response ∧ ok response = true
              ∧ json response = Returns data.

(** A session identifier is set. *)
Definition sessionSet (w : World) : Prop := falsy (sessionId (ui w)) = false.

(** The bodies of successive poll responses grow from the committed list
    [current]: each committed list that is present and not empty extends
    the last such list before it, the first one extends [current]. *)
Fixpoint growing (current : list Segment) (bodies : list ProcessData) : Prop :=
  match bodies with
  | [] => True
  | data :: later =>
      match committed data with
      | Some (s :: rest) =>
          current `prefix_of` (s :: rest) ∧ growing (s :: rest) later
      | _ => growing current later
      end
  end.

(** The control that the page offers: start when not recording, stop
    when recording. *)
Inductive Control := StartControl | StopControl.

Definition control (w : World) : Control :=
  if negb (isRecording (capture w)) then StartControl else StopControl.

(** *** Scenarios *)

(** A segment with the given text. *)
Definition segment (s : String.string) : Segment :=
  {| text := str s; timestamp := (0%float, 0%float) |}.
Arguments segment s%_string_scope.

(** A request answered with status 200 and the given body. *)
Definition answer {B} (body : B) : Fetch B :=
  Returns {| status := 200; json := Returns body |}.

(** A request answered with status 500. *)
Definition serverError {B} (body : B) : Fetch B :=
  Returns {| status := 500; json := Returns body |}.

(** A request that never reaches the server. *)
Definition networkError {B} : Fetch B :=
  Throws (Error (str "Failed to fetch")).

(** A microphone and an audio graph that work. *)
Definition workingDevice : CaptureDevice :=
  {| hasGetUserMedia := true; getUserMedia := Returns ();
     newAudioContext := Returns (); createMediaStreamSource := Returns ();
     addModule := Returns (); newAudioWorkletNode := Returns ();
     connectGraph := Returns () |}.

Definition cleanTeardown : Teardown :=
  {| disconnectWorklet := Returns (); disconnectSource := Returns ();
     stopTracks := Returns (); closeContext := Returns () |}.

(** The page while it records in session [id]: the user has pressed
    start on the mounted page, and the session was created. *)
Definition recording (id : String.string) : World :=
  exec (handleStartRecording (answer {| session_id := Some (str id) |})
          workingDevice) mounted.
Arguments recording id%_string_scope.

(** A poll response body that carries the given committed and
    uncommitted texts, and the answer that delivers it. *)
Definition pollData (committedTexts uncommittedTexts : list JSString)
  : ProcessData :=
  {| committed :=
       Some (map (λ s, {| text := s; timestamp := (0%float, 0%float) |})
               committedTexts);
     uncommitted :=
       Some (map (λ s, {| text := s; timestamp := (0%float, 0%float) |})
               uncommittedTexts) |}.

Definition pollAnswer (committedTexts uncommittedTexts : list JSString)
  : Fetch ProcessData :=
  answer (pollData committedTexts uncommittedTexts).

(* ================================================================= *)
(** ** The host of the audio worklet *)

Module Host.
Section Host.
Context {sample : Type}.

(** The samples that a call of [process] takes in: the first channel of
    the first input, when there is one. *)
Definition received (inputs : list (list (option (Worklet.Float32Array sample))))
  : list sample :=
  match inputs with
  | (Some inputChannel :: _) :: _ => inputChannel
  | _ => []
  end.

(** What reaches a processor: a render quantum, which calls [process],
    or a message on its port, which calls [onmessage].  [debug] is what
    the debug output of the inlined copy does in this quantum, if the
    copy evaluates it; the worklet file has no such output. *)
Inductive Event :=
| Quantum (inputs : list (list (option (Worklet.Float32Array sample))))
    (debug : Outcome unit)
| Message (event : Worklet.PortCommand).

(** The worklet file driven by a sequence of events: the messages it
    posts, in order, and the processor at the end. *)
Fixpoint drive (events : list Event)
    (this : Worklet.WhisperAudioProcessor sample)
  : list (Worklet.AudioMessage sample) * Worklet.WhisperAudioProcessor sample :=
  match events with
  | [] => ([], this)
  | Quantum inputs _ :: later =>
      let s := Worklet.process inputs this in
      if Worklet.alive s then
        let '(out, final) := drive later (Worklet.next s) in
        (Worklet.posted s ++ out, final)
      else (Worklet.posted s, Worklet.next s)
  | Message event :: later => drive later (Worklet.onmessage event this)
  end.

(** The inlined copy driven by the same events, up to the first call of
    [process] that throws: whether every call has returned, the messages
    posted, and the processor at the end. *)
Fixpoint driveInline (events : list Event)
    (this : Worklet.Inline.WhisperAudioProcessor sample)
  : Worklet.Inline.Step sample :=
  match events with
  | [] => {| Worklet.Inline.alive := true; Worklet.Inline.posted := [];
             Worklet.Inline.next := this |}
  | Quantum inputs debug :: later =>
      let s := Worklet.Inline.process debug inputs this in
      if Worklet.Inline.alive s then
        let s' := driveInline later (Worklet.Inline.next s) in
        {| Worklet.Inline.alive := Worklet.Inline.alive s';
           Worklet.Inline.posted :=
             Worklet.Inline.posted s ++ Worklet.Inline.posted s';
           Worklet.Inline.next := Worklet.Inline.next s' |}
      else s
  | Message event :: later =>
      driveInline later (Worklet.Inline.onmessage event this)
  end.

(** A render quantum that carries a first channel. *)
Definition carriesFrame (e : Event) : bool :=
  match e with
  | Quantum ((Some _ :: _) :: _) _ => true
  | _ => false
  end.

(** The number of render quanta among the events that carry a first
    channel. *)
Definition framesSeen (events : list Event) : nat :=
  length (List.filter carriesFrame events).

(** An event in which the debug output does not throw. *)
Definition calm (e : Event) : bool :=
  match e with
  | Quantum _ (Throws _) => false
  | _ => true
  end.
End Host.
Arguments Event : clear implicits.
End Host.

(* ================================================================= *)
(** ** More vocabulary for the properties *)

(** A string has a character that [trim] does not strip. *)
Definition hasInk (s : JSString) : bool := existsb (λ c, negb (isWhiteSpace c)) s.

(** A platform call returns. *)
Definition returns {A} (result : Outcome A) : bool :=
  match result with
  | Returns _ => true
  | Throws _ => false
  end.

(** A teardown call that [stopRecording] makes throws: the resource is
    held, and its call throws. *)
Definition teardownFails (c : AudioCapture) (t : Teardown) : bool :=
  workletNodeRef c && negb (returns (disconnectWorklet t))
  || sourceNodeRef c && negb (returns (disconnectSource t))
  || streamRef c && negb (returns (stopTracks t))
  || audioContextRef c && negb (returns (closeContext t)).

(** The record that [saveTranscription] hands to [client.save]. *)
Definition recordOf (now : JSString) (w : World) : Doc.TranscriptionRecord :=
  {| Doc._type := TRANSCRIPTIONS_DOCTYPE;
     Doc.text := getTranscriptionText w;
     Doc.language := language (ui w);
     Doc.createdAt := now;
     Doc.wordCount := length (committedSegments (ui w)) |}.

(** Every platform call of [startRecording] returns. *)
Definition deviceWorks (dev : CaptureDevice) : bool :=
  hasGetUserMedia dev && returns (getUserMedia dev)
  && returns (newAudioContext dev) && returns (createMediaStreamSource dev)
  && returns (addModule dev) && returns (newAudioWorkletNode dev)
  && returns (connectGraph dev).

(* ================================================================= *)
(** ** The export handlers of [WhisperTranscription] *)

(** The page: the world, the [copied] hook, what the export handlers
    have given to the platform (the texts written to the clipboard, the
    files offered for download, the timeouts that wait to reset
    [copied]), and what React and the pending calls keep between two
    events: the dependencies with which the polling effect and the save
    effect last ran, the number of arrays that [setCommittedSegments] has
    been given (React compares this dependency of the save effect by
    identity, and every call gives the hook a new array), the polls of
    the interval that wait for their answer, and the documents handed to
    [client.save] whose call has not settled, oldest first. *)
Record Page := {
  world : World;
  copied : bool;
  clipboard : list JSString;
  downloads : list (JSString * JSString);
  copyTimeouts : nat;
  pollingDeps : bool * option JSString;
  arrays : nat;
  saveDeps : bool * option JSString * nat * JSString;
  pendingPolls : nat;
  saving : list Doc.TranscriptionRecord
}.

Definition onWorld (f : World → World) (p : Page) : Page :=
  {| world := f (world p); copied := copied p; clipboard := clipboard p;
     downloads := downloads p; copyTimeouts := copyTimeouts p;
     pollingDeps := pollingDeps p; arrays := arrays p;
     saveDeps := saveDeps p; pendingPolls := pendingPolls p;
     saving := saving p |}.

(** One more array given to [setCommittedSegments]. *)
Definition newArray (p : Page) : Page :=
  {| world := world p; copied := copied p; clipboard := clipboard p;
     downloads := downloads p; copyTimeouts := copyTimeouts p;
     pollingDeps := pollingDeps p; arrays := S (arrays p);
     saveDeps := saveDeps p; pendingPolls := pendingPolls p;
     saving := saving p |}.

Definition with_pendingPolls (n : nat) (p : Page) : Page :=
  {| world := world p; copied := copied p; clipboard := clipboard p;
     downloads := downloads p; copyTimeouts := copyTimeouts p;
     pollingDeps := pollingDeps p; arrays := arrays p;
     saveDeps := saveDeps p; pendingPolls := n; saving := saving p |}.

Definition with_saving (docs : list Doc.TranscriptionRecord) (p : Page)
  : Page :=
  {| world := world p; copied := copied p; clipboard := clipboard p;
     downloads := downloads p; copyTimeouts := copyTimeouts p;
     pollingDeps := pollingDeps p; arrays := arrays p;
     saveDeps := saveDeps p; pendingPolls := pendingPolls p;
     saving := docs |}.

(** [handleCopyTranscription()]; [clip] is what
    [navigator.clipboard.writeText] does. *)
Definition handleCopyTranscription (clip : Outcome unit) (p : Page) : Page :=
  let text := getTranscriptionText (world p) in
  if negb (truthy text) then p else
  match clip with
  | Returns _ =>
      {| world := world p; copied := true;
         clipboard := clipboard p ++ [text]; downloads := downloads p;
         copyTimeouts := S (copyTimeouts p); pollingDeps := pollingDeps p;
         arrays := arrays p; saveDeps := saveDeps p;
         pendingPolls := pendingPolls p; saving := saving p |}
  | Throws _ =>
      onWorld (exec (setError (Some (str "Impossible de copier le texte")))) p
  end.

(** The timeout that [handleCopyTranscription] sets fires, two seconds
    later: [setCopied(false)]. *)
Definition copiedTimeout (p : Page) : Page :=
  {| world := world p; copied := false; clipboard := clipboard p;
     downloads := downloads p; copyTimeouts := pred (copyTimeouts p);
     pollingDeps := pollingDeps p; arrays := arrays p;
     saveDeps := saveDeps p; pendingPolls := pendingPolls p;
     saving := saving p |}.

(** [handleDownloadTranscription()]; [now] is [new Date().toISOString()].
    The file offered has the committed text as content. *)
Definition handleDownloadTranscription (now : JSString) (p : Page) : Page :=
  let text := getTranscriptionText (world p) in
  if negb (truthy text) then p else
  {| world := world p; copied := copied p; clipboard := clipboard p;
     downloads :=
       downloads p
       ++ [(str "transcription-" ++ take 10 now ++ str ".txt", text)];
     copyTimeouts := copyTimeouts p; pollingDeps := pollingDeps p;
     arrays := arrays p; saveDeps := saveDeps p;
     pendingPolls := pendingPolls p; saving := saving p |}.

(* ================================================================= *)
(** ** The page as the user and the platform drive it *)

(** The two entries of [languageOptions]. *)
Inductive LanguageOption := Francais | English.

Definition value (option : LanguageOption) : JSString :=
  match option with
  | Francais => str "fr"
  | English => str "en"
  end.

(** What can happen to the page.  Each event carries the outcomes of the
    calls that its handler makes; a handler runs to its end, the calls it
    awaits included, before the next event is taken.  A tick of the
    interval sends its poll, whose answer is an event of its own; so is
    the settling of a call of [client.save], the [i]-th of those that
    wait. *)
Inductive Event :=
| PressStart (create : Fetch CreateData) (dev : CaptureDevice)
| PressStop (t : Teardown) (poll : Fetch ProcessData) (net : Fetch unit)
| Tick
| PollAnswer (poll : Fetch ProcessData)
| ChunkMessage (m : Worklet.AudioMessage float) (net : Fetch unit)
| SelectLanguage (option : LanguageOption)
| PressCopy (clip : Outcome unit)
| CopiedTimeout
| PressDownload (now : JSString)
| SaveSettled (i : nat) (store : Outcome unit).

(** What the render that follows an event needs: the identifier that
    [setInterval] would return, and the date. *)
Record Commit := {
  fresh : positive;
  today : JSString
}.

(** The answer to a poll makes [processSession] call
    [setCommittedSegments]: the response is 2xx and its body carries a
    committed list that is not empty. *)
Definition setsCommitted (poll : Fetch ProcessData) : bool :=
  match poll with
  | Returns response =>
      ok response
      && match json response with
         | Returns data =>
             match committed data with
             | Some (_ :: _) => true
             | _ => false
             end
         | Throws _ => false
         end
  | Throws _ => false
  end.

(** The handler of an event, when the page offers it.  The start control
    is rendered when not recording and the stop control when recording;
    the language selector is disabled while recording; the export
    buttons are rendered when there are committed segments, and the copy
    button is disabled while [copied]; an interval ticks while it is
    active; a chunk message is handled once [startRecording] has
    installed the handler.  [handleStartRecording] always calls
    [setCommittedSegments]; [handleStopRecording] does when its final
    poll does. *)
Definition handle (float32ToBase64 : list float → JSString)
    (e : Event) (p : Page) : Page :=
  let w := world p in
  match e with
  | PressStart create dev =>
      if isRecording (capture w) then p
      else newArray (onWorld (exec (handleStartRecording create dev)) p)
  | PressStop t poll net =>
      if isRecording (capture w)
      then (if negb (falsy (sessionId (ui w))) && setsCommitted poll
            then newArray else id)
             (onWorld (exec (handleStopRecording t poll net)) p)
      else p
  | Tick =>
      match activeIntervals (outside w) with
      | [] => p
      | _ :: _ =>
          match completion processSessionCall w with
          | Returns true =>
              with_pendingPolls (S (pendingPolls p))
                (onWorld (exec processSessionCall) p)
          | _ => onWorld (exec processSessionCall) p
          end
      end
  | PollAnswer poll =>
      match pendingPolls p with
      | 0 => p
      | S n =>
          (if setsCommitted poll then newArray else id)
            (with_pendingPolls n
               (onWorld (exec (processSessionResume poll)) p))
      end
  | ChunkMessage m net =>
      match onAudioChunk (capture w) with
      | None => p
      | Some _ => onWorld (exec (onWorkletMessage float32ToBase64 m net)) p
      end
  | SelectLanguage option =>
      if isRecording (capture w) then p
      else onWorld (exec (setLanguage (value option))) p
  | PressCopy clip =>
      match committedSegments (ui w) with
      | [] => p
      | _ :: _ => if copied p then p else handleCopyTranscription clip p
      end
  | CopiedTimeout =>
      match copyTimeouts p with
      | 0 => p
      | S _ => copiedTimeout p
      end
  | PressDownload now =>
      match committedSegments (ui w) with
      | [] => p
      | _ :: _ => handleDownloadTranscription now p
      end
  | SaveSettled i store =>
      match saving p !! i with
      | None => p
      | Some doc =>
          with_saving (delete i (saving p))
            (onWorld (exec (saveTranscriptionResume doc store)) p)
      end
  end.

(** The dependencies of the save effect as React compares them.  The
    client, the fifth, never changes. *)
Definition saveDepsOf (w : World) (arrays : nat)
  : bool * option JSString * nat * JSString :=
  (shouldSave (ui w), sessionId (ui w), arrays, language (ui w)).

(** The render after an event, with its effects.  The polling effect is
    cleaned up and run again when [isRecording] or [sessionId] differs
    from what it was when the effect last ran ([processSession], its
    third dependency, changes with [sessionId] only).  The save effect
    runs when one of its dependencies differs from what it was at the
    last render; it stops at its call of [client.save], and the document
    joins those that wait.  When the effect has lowered the save flag
    itself, the render that this causes runs it once more, to no
    effect. *)
Definition commit (c : Commit) (p : Page) : Page :=
  let w := world p in
  let deps := (isRecording (capture w), sessionId (ui w)) in
  let w1 := if bool_decide (deps = pollingDeps p) then w
            else exec (pollingCleanup;; pollingEffect (fresh c)) w in
  let fires := negb (bool_decide (saveDepsOf w1 (arrays p) = saveDeps p)) in
  let w2 := if fires then exec (saveEffectCall (today c)) w1 else w1 in
  let handed := if fires
                then match completion (saveEffectCall (today c)) w1 with
                     | Returns (Some doc) => [doc]
                     | _ => []
                     end
                else [] in
  {| world := w2;
     copied := copied p; clipboard := clipboard p; downloads := downloads p;
     copyTimeouts := copyTimeouts p; pollingDeps := deps;
     arrays := arrays p; saveDeps := saveDepsOf w2 (arrays p);
     pendingPolls := pendingPolls p; saving := saving p ++ handed |}.

(** A history of the page: events, each followed by its render. *)
Fixpoint run (float32ToBase64 : list float → JSString)
    (history : list (Event * Commit)) (p : Page) : Page :=
  match history with
  | [] => p
  | (e, c) :: later =>
      run float32ToBase64 later (commit c (handle float32ToBase64 e p))
  end.

(** The page once mounted: the effects have run on the initial state. *)
Definition mountedPage : Page :=
  {| world := mounted; copied := false; clipboard := []; downloads := [];
     copyTimeouts := 0; pollingDeps := (false, None);
     arrays := 0; saveDeps := (false, None, 0, str "fr");
     pendingPolls := 0; saving := [] |}.

(** The session identifiers that the create responses of a history
    carry. *)
Definition announced (e : Event) : list JSString :=
  match e with
  | PressStart (Returns response) _ =>
      match json response with
      | Returns data =>
          match session_id data with
          | Some id => [id]
          | None => []
          end
      | Throws _ => []
      end
  | _ => []
  end.

Definition issued (history : list (Event * Commit)) : list JSString :=
  concat (map (λ ec, announced (fst ec)) history).

(** The session that a request is about. *)
Definition aboutSession (r : Request) : option JSString :=
  match r with
  | SessionCreate _ => None
  | SessionAddChunk s _ => Some s
  | SessionProcess s => Some s
  | SessionEnd s => Some s
  end.

(** The stop presses of a history. *)
Definition stopPresses (history : list (Event * Commit)) : nat :=
  length (List.filter (λ ec, match fst ec with
                             | PressStop _ _ _ => true
                             | _ => false
                             end) history).

(** A press on the start control. *)
Definition isStart (e : Event) : bool :=
  match e with
  | PressStart _ _ => true
  | _ => false
  end.

(** Every save settles before anything else happens to the page: an
    event that finds a document waiting for [client.save] is the
    settling of that call. *)
Fixpoint prompt (float32ToBase64 : list float → JSString)
    (history : list (Event * Commit)) (p : Page) : bool :=
  match history with
  | [] => true
  | (e, c) :: later =>
      match saving p, e with
      | [], _ => true
      | _ :: _, SaveSettled 0 _ => true
      | _ :: _, _ => false
      end
      && prompt float32ToBase64 later (commit c (handle float32ToBase64 e p))
  end.

(** A record as the page saves them. *)
Definition wellFormed (d : Doc.TranscriptionRecord) : Prop :=
  Doc._type d = TRANSCRIPTIONS_DOCTYPE
  ∧ hasInk (Doc.text d) = true
  ∧ 1 ≤ Doc.wordCount d
  ∧ (Doc.language d = str "fr" ∨ Doc.language d = str "en").

(** The page keeps at most one polling interval, the one that
    [intervalRef] names, and only while it records in a session. *)
Definition onePollingTimer (w : World) : Prop :=
  activeIntervals (outside w)
  = match intervalRef (ui w) with
    | Some id => [id]
    | None => []
    end
  ∧ (intervalRef (ui w) ≠ None →
     isRecording (capture w) = true ∧ sessionSet w).

(** Two worlds agree on what the invariants of the page watch: the
    timers, the recording flag, the session identifier, the chunk
    callback, the save flag and the documents. *)
Definition sameCore (w w' : World) : Prop :=
  intervalRef (ui w') = intervalRef (ui w)
  ∧ activeIntervals (outside w') = activeIntervals (outside w)
  ∧ isRecording (capture w') = isRecording (capture w)
  ∧ sessionId (ui w') = sessionId (ui w)
  ∧ onAudioChunk (capture w') = onAudioChunk (capture w)
  ∧ shouldSave (ui w') = shouldSave (ui w)
  ∧ documents (outside w') = documents (outside w).

(** The session identifiers in use are among [ids]: the identifier of
    the component when it is set, the identifier bound to the chunk
    callback, and the identifier of every request sent. *)
Definition sessionsWithin (ids : list JSString) (w : World) : Prop :=
  (sessionSet w → toString (sessionId (ui w)) ∈ ids)
  ∧ (∀ callback, onAudioChunk (capture w) = Some callback →
       toString callback ∈ ids)
  ∧ Forall (λ r, ∀ s, aboutSession r = Some s → s ∈ ids)
      (requests (outside w)).

(** The polling effect has run on the recording flag and the session
    identifier that the page has now. *)
Definition settled (p : Page) : Prop :=
  pollingDeps p
  = (isRecording (capture (world p)), sessionId (ui (world p))).

(* ================================================================= *)
(** ** [TranscriptionHistory] *)

Module History.

(** A saved transcription as the query returns it: the document that was
    saved, under the identifier that the store gave it. *)
Record Saved := {
  _id : JSString;
  doc : Doc.TranscriptionRecord
}.

(** The state hooks of the component, and what its handlers have given
    to the platform: the texts written to the clipboard, the documents
    handed to [client.destroy], and the timeouts that wait to reset
    [copiedId]. *)
Record State := {
  expandedId : option JSString;
  deletingId : option JSString;
  copiedId : option JSString;
  written : list JSString;
  destroyed : list Saved;
  resets : nat
}.

Definition mounted : State :=
  {| expandedId := None; deletingId := None; copiedId := None;
     written := []; destroyed := []; resets := 0 |}.

(** [handleToggleExpand(transcriptionId)] *)
Definition handleToggleExpand (transcriptionId : JSString) (h : State)
  : State :=
  {| expandedId := if bool_decide (expandedId h = Some transcriptionId)
                   then None else Some transcriptionId;
     deletingId := deletingId h; copiedId := copiedId h;
     written := written h; destroyed := destroyed h; resets := resets h |}.

(** [handleCopy(transcription)]; [clip] is what
    [navigator.clipboard.writeText] does. *)
Definition handleCopy (clip : Outcome unit) (transcription : Saved)
    (h : State) : State :=
  match clip with
  | Returns _ =>
      {| expandedId := expandedId h; deletingId := deletingId h;
         copiedId := Some (_id transcription);
         written := written h ++ [Doc.text (doc transcription)];
         destroyed := destroyed h; resets := S (resets h) |}
  | Throws _ => h
  end.

(** The timeout that [handleCopy] sets fires: [setCopiedId(null)]. *)
Definition copiedTimeout (h : State) : State :=
  {| expandedId := expandedId h; deletingId := deletingId h;
     copiedId := None; written := written h; destroyed := destroyed h;
     resets := pred (resets h) |}.

(** [handleDelete(transcription)]; [destroy] is what [client.destroy]
    does.  The promise that the handler returns is rejected when
    [client.destroy] is. *)
Definition handleDelete (destroy : Outcome unit) (transcription : Saved)
    (h : State) : Outcome unit * State :=
  (destroy,
   {| expandedId := expandedId h; deletingId := Some (_id transcription);
      copiedId := copiedId h; written := written h;
      destroyed := destroyed h ++ [transcription]; resets := resets h |}).

(** [getTruncatedText(text, maxLength)] *)
Definition getTruncatedText (text : JSString) (maxLength : nat) : JSString :=
  if length text <=? maxLength then text
  else take maxLength text ++ str "...".

Definition Francais : JSString := str "Fran" ++ [0xE7%N] ++ str "ais".
Definition English : JSString := str "English".
Definition Copie : JSString := str "Copi" ++ [0xE9%N] ++ str " !".
Definition Copier : JSString := str "Copier".
Definition VoirMoins : JSString := str "Voir moins".
Definition VoirPlus : JSString := str "Voir plus".

(** What the component renders for one transcription. *)
Record Card := {
  dimmed : bool;                      (* opacity 0.5 rather than 1 *)
  languageLabel : JSString;
  copyLabel : JSString;
  copyDisabled : bool;
  deleteDisabled : bool;
  preview : JSString;
  expandLabel : option JSString       (* the button, when rendered *)
}.

Definition card (h : State) (transcription : Saved) : Card :=
  let isExpanded := bool_decide (expandedId h = Some (_id transcription)) in
  let isCopied := bool_decide (copiedId h = Some (_id transcription)) in
  let isDeleting := bool_decide (deletingId h = Some (_id transcription)) in
  let text := Doc.text (doc transcription) in
  {| dimmed := isDeleting;
     languageLabel :=
       if strictEq (Doc.language (doc transcription)) (str "fr")
       then Francais else English;
     copyLabel := if isCopied then Copie else Copier;
     copyDisabled := isCopied || isDeleting;
     deleteDisabled := isDeleting;
     preview := if isExpanded then text else getTruncatedText text 100;
     expandLabel :=
       if 100 <? length text
       then Some (if isExpanded then VoirMoins else VoirPlus)
       else None |}.

(** What can happen to the component: a click on the text or on the
    button under it, on the copy button, on the delete button, of some
    transcription; a timeout of [handleCopy] that fires. *)
Inductive Event :=
| ClickText (transcription : Saved)
| ClickCopy (transcription : Saved) (clip : Outcome unit)
| CopiedTimeout
| ClickDelete (transcription : Saved) (destroy : Outcome unit).

(** The handler of an event, when the component offers it: a disabled
    button takes no click. *)
Definition handle (e : Event) (h : State) : State :=
  match e with
  | ClickText transcription => handleToggleExpand (_id transcription) h
  | ClickCopy transcription clip =>
      if copyDisabled (card h transcription) then h
      else handleCopy clip transcription h
  | CopiedTimeout =>
      match resets h with
      | 0 => h
      | S _ => copiedTimeout h
      end
  | ClickDelete transcription destroy =>
      if deleteDisabled (card h transcription) then h
      else snd (handleDelete destroy transcription h)
  end.

Definition run (events : list Event) (h : State) : State :=
  foldl (λ h e, handle e h) h events.

Definition isDelete (e : Event) : bool :=
  match e with
  | ClickDelete _ _ => true
  | _ => false
  end.

End History.

(* ================================================================= *)
(** * Properties of the audio worklet *)

Section WorkletFacts.
Context {sample : Type}.
Implicit Types (this : Worklet.WhisperAudioProcessor sample).
Implicit Types (buf frame : list sample).

Lemma pushAll_app buf frame : Worklet.pushAll buf frame = buf ++ frame.
Proof.
  unfold Worklet.pushAll. revert buf.
  induction frame as [|x frame IH]; intros buf; simpl.
  - by rewrite app_nil_r.
  - rewrite IH, <- app_assoc. done.
Qed.

Lemma process_alive inputs this : Worklet.alive (Worklet.process inputs this) = true.
Proof.
  unfold Worklet.process.
  destruct inputs as [|[|[ch|] ?] ?]; simpl; try done.
  by destruct (_ <=? _).
Qed.

Lemma process_chunkSize inputs this :
  Worklet.chunkSize (Worklet.next (Worklet.process inputs this))
  = Worklet.chunkSize this.
Proof.
  unfold Worklet.process.
  destruct inputs as [|[|[ch|] ?] ?]; simpl; try done.
  by destruct (_ <=? _).
Qed.

(** One call of [process] on a mono frame, with the loop and the
    [splice] spelled out on lists. *)
Lemma process_mono this frame chans more :
  Worklet.process ((Some frame :: chans) :: more) this =
  let buf := Worklet.buffer this ++ frame in
  let n := Worklet.chunkSize this in
  if n <=? length buf then
    {| Worklet.alive := true;
       Worklet.posted :=
         [ {| Worklet.type := str "audio"; Worklet.data := take n buf |} ];
       Worklet.next :=
         {| Worklet.buffer := drop n buf; Worklet.chunkSize := n |} |}
  else
    {| Worklet.alive := true; Worklet.posted := [];
       Worklet.next := {| Worklet.buffer := buf; Worklet.chunkSize := n |} |}.
Proof. unfold Worklet.process. by rewrite pushAll_app. Qed.

Lemma feed_cons inputs later this :
  Worklet.feed (inputs :: later) this =
  let s := Worklet.process inputs this in
  let s' := Worklet.feed later (Worklet.next s) in
  {| Worklet.alive := Worklet.alive s';
     Worklet.posted := Worklet.posted s ++ Worklet.posted s';
     Worklet.next := Worklet.next s' |}.
Proof. simpl. by rewrite process_alive. Qed.

Lemma concat_uniform_length (frames : list (list sample)) F :
  Forall (λ f, length f = F) frames →
  length (concat frames) = length frames * F.
Proof.
  induction 1 as [|f frames Hf _ IH]; simpl; [done|].
  rewrite length_app, IH, Hf. done.
Qed.

Lemma concat_chunks_length (msgs : list (Worklet.AudioMessage sample)) n :
  Forall (λ m, length (Worklet.data m) = n) msgs →
  length (concat (map Worklet.data msgs)) = n * length msgs.
Proof.
  induction 1 as [|m msgs Hm _ IH]; simpl; [lia|].
  rewrite length_app, IH, Hm. lia.
Qed.

Lemma frame_le_total (frames : list (list sample)) :
  Forall (λ f, length f ≤ length (concat frames)) frames.
Proof.
  induction frames as [|f frames IH]; simpl; constructor.
  - rewrite length_app. lia.
  - eapply Forall_impl; [exact IH|]. intros g Hg. simpl in Hg.
    rewrite length_app. lia.
Qed.

Lemma process_posted_type inputs this :
  Forall (λ m, Worklet.type m = str "audio")
    (Worklet.posted (Worklet.process inputs this)).
Proof.
  unfold Worklet.process.
  destruct inputs as [|[|[ch|] ?] ?]; simpl; try by constructor.
  destruct (_ <=? _); simpl; by repeat constructor.
Qed.

Lemma feed_posted_type calls this :
  Forall (λ m, Worklet.type m = str "audio")
    (Worklet.posted (Worklet.feed calls this)).
Proof.
  revert this. induction calls as [|inputs later IH]; intros this.
  - by constructor.
  - rewrite feed_cons. simpl. apply Forall_app. split.
    + apply process_posted_type.
    + apply IH.
Qed.

(** The invariant of a stream of frames none of which is longer than a
    chunk: fewer than [chunkSize] samples stay in the buffer, every chunk
    posted is full, and chunks followed by the buffer are the samples
    received, in order. *)
Lemma feed_frames_inv (frames : list (list sample)) this n :
  Worklet.chunkSize this = n →
  length (Worklet.buffer this) < n →
  Forall (λ f, length f ≤ n) frames →
  let s := Worklet.feed (map Worklet.mono frames) this in
  Worklet.alive s = true
  ∧ Worklet.chunkSize (Worklet.next s) = n
  ∧ length (Worklet.buffer (Worklet.next s)) < n
  ∧ Forall (λ m, length (Worklet.data m) = n) (Worklet.posted s)
  ∧ Worklet.buffer this ++ concat frames
    = concat (map Worklet.data (Worklet.posted s))
      ++ Worklet.buffer (Worklet.next s).
Proof.
  intros Hc Hb Hf. revert this Hc Hb.
  induction Hf as [|f frames Hlen _ IH]; intros this Hc Hb.
  - simpl. rewrite app_nil_r. done.
  - change (map Worklet.mono (f :: frames))
      with (Worklet.mono f :: map Worklet.mono frames).
    rewrite feed_cons. unfold Worklet.mono at 1.
    rewrite process_mono, Hc. cbv zeta.
    destruct (Nat.leb_spec n (length (Worklet.buffer this ++ f)))
      as [Hge|Hlt]; cbn [Worklet.alive Worklet.posted Worklet.next].
    + set (this' := {| Worklet.buffer := _ |}).
      destruct (IH this') as (Ha & Hc' & Hb' & Hall & Heq);
        [done| |].
      { subst this'. cbn [Worklet.buffer].
        rewrite length_drop, length_app in *. lia. }
      split_and!; [done|done|done| |].
      * constructor; [|done]. cbn [Worklet.data].
        rewrite length_take. lia.
      * cbn [map concat app Worklet.data].
        rewrite <- !app_assoc, <- Heq. subst this'. cbn [Worklet.buffer].
        rewrite !app_assoc. f_equal. by rewrite take_drop.
    + set (this' := {| Worklet.buffer := _ |}).
      destruct (IH this') as (Ha & Hc' & Hb' & Hall & Heq);
        [done|done|].
      split_and!; [done|done|done|done|].
      cbn [map concat app]. rewrite <- Heq. subst this'.
      cbn [Worklet.buffer]. by rewrite <- app_assoc.
Qed.

(** From an empty buffer, frames that add up to exactly one chunk make
    the processor post exactly that chunk. *)
Lemma feed_exact_chunk (frames : list (list sample)) this n :
  0 < n →
  Worklet.chunkSize this = n →
  Worklet.buffer this = [] →
  length (concat frames) = n →
  let s := Worklet.feed (map Worklet.mono frames) this in
  Worklet.alive s = true
  ∧ Worklet.posted s
    = [ {| Worklet.type := str "audio"; Worklet.data := concat frames |} ]
  ∧ Worklet.buffer (Worklet.next s) = [].
Proof.
  intros Hn Hc Hb Hsum.
  destruct (feed_frames_inv frames this n)
    as (Ha & _ & Hlt & Hall & Heq); [done|rewrite Hb; simpl; lia| |].
  { rewrite <- Hsum. apply frame_le_total. }
  pose proof (feed_posted_type (map Worklet.mono frames) this) as Hty.
  cbv zeta. rewrite Hb in Heq. cbn [app] in Heq.
  pose proof (f_equal length Heq) as Hl.
  rewrite length_app, (concat_chunks_length _ n), Hsum in Hl by done.
  destruct (Worklet.posted _) as [|m [|m' ms]] eqn:Hp; cbn [length] in Hl;
    [lia| |nia].
  assert (Hnil : Worklet.buffer
                   (Worklet.next (Worklet.feed (map Worklet.mono frames) this))
                 = []).
  { apply length_zero_iff_nil. lia. }
  split_and!; [done| |done].
  rewrite Hnil in Heq. cbn [map concat] in Heq. rewrite !app_nil_r in Heq.
  inversion Hty as [|? ? Hm _]; subst.
  destruct m as [ty d]; cbn in *. by subst.
Qed.

End WorkletFacts.

Section WorkletClaims.
Context {sample : Type}.
Implicit Types (this : Worklet.WhisperAudioProcessor sample).

(** As long as its debug output does not throw, the inlined copy posts
    the same messages and keeps the same buffer as the worklet file. *)
Lemma inline_process_erase debug inputs
    (this : Worklet.Inline.WhisperAudioProcessor sample) :
  let s := Worklet.Inline.process debug inputs this in
  let t := Worklet.process inputs (Worklet.Inline.erase this) in
  if Worklet.Inline.alive s
  then Worklet.Inline.posted s = Worklet.posted t
       ∧ Worklet.Inline.erase (Worklet.Inline.next s) = Worklet.next t
  else Worklet.Inline.posted s = []
       ∧ Worklet.Inline.erase (Worklet.Inline.next s)
         = Worklet.Inline.erase this.
Proof.
  unfold Worklet.Inline.process, Worklet.process, Worklet.Inline.erase.
  destruct inputs as [|[|[ch|] ?] ?]; simpl; try done.
  destruct (_ && _); simpl; [done|].
  destruct (_ <=? _); simpl; done.
Qed.

Lemma inline_onmessage_erase event (this : Worklet.Inline.WhisperAudioProcessor sample) :
  Worklet.Inline.erase (Worklet.Inline.onmessage event this)
  = Worklet.onmessage event (Worklet.Inline.erase this).
Proof.
  unfold Worklet.Inline.onmessage, Worklet.onmessage.
  by destruct (strictEq _ _).
Qed.

(** C4, as amended: a stream of [N] frames of uniform length [F], with
    [F] at most one chunk (1600), fed to a fresh accumulator, posts
    exactly [floor (N * F / 1600)] chunks, each of exactly 1600 samples;
    the chunks followed by the samples still buffered are the samples
    received, in their original order; and at most 1599 samples stay
    unflushed. *)
Theorem accumulator_stream (N F : nat) (frames : list (list sample)) :
  F ≤ 1600 →
  length frames = N →
  Forall (λ f, length f = F) frames →
  let s := Worklet.feed (map Worklet.mono frames) Worklet.constructor in
  length (Worklet.posted s) = (N * F) / 1600
  ∧ Forall (λ m, length (Worklet.data m) = 1600) (Worklet.posted s)
  ∧ concat (map Worklet.data (Worklet.posted s))
      ++ Worklet.buffer (Worklet.next s) = concat frames
  ∧ length (Worklet.buffer (Worklet.next s)) ≤ 1599.
Proof.
  intros HF HN Hlen.
  destruct (feed_frames_inv frames Worklet.constructor 1600)
    as (_ & _ & Hb & Hall & Heq); [done|cbn [Worklet.constructor Worklet.buffer length]; lia| |].
  { eapply Forall_impl; [exact Hlen|]. cbv beta. lia. }
  cbn [Worklet.constructor Worklet.buffer app] in Heq.
  cbv zeta. split_and!; [|done|done|lia].
  apply (f_equal length) in Heq.
  rewrite length_app, (concat_uniform_length _ F),
    (concat_chunks_length _ 1600), HN in Heq by done.
  eapply Nat.div_unique; [exact Hb|]. exact Heq.
Qed.

(** C5: a call of [process] with a frame first appends the frame to
    the buffer; if the buffer then holds at least 1600 samples, exactly
    one chunk is posted, made of exactly the 1600 oldest samples, and
    the buffer keeps the rest; if it holds fewer, nothing is posted and
    the buffer keeps everything.  Whatever the call receives, no chunk
    other than a full one is posted, and the processor stays alive. *)
Theorem process_emits_one_full_chunk this (frame : list sample) chans more :
  Worklet.chunkSize this = 1600 →
  let buf := Worklet.buffer this ++ frame in
  let s := Worklet.process ((Some frame :: chans) :: more) this in
  Worklet.alive s = true
  ∧ Worklet.chunkSize (Worklet.next s) = 1600
  ∧ (1600 ≤ length buf →
       Worklet.posted s
       = [ {| Worklet.type := str "audio"; Worklet.data := take 1600 buf |} ]
       ∧ length (take 1600 buf) = 1600
       ∧ Worklet.buffer (Worklet.next s) = drop 1600 buf
       ∧ take 1600 buf ++ Worklet.buffer (Worklet.next s) = buf)
  ∧ (length buf < 1600 →
       Worklet.posted s = [] ∧ Worklet.buffer (Worklet.next s) = buf)
  ∧ (∀ inputs,
       Worklet.alive (Worklet.process inputs this) = true
       ∧ Forall (λ m, length (Worklet.data m) = 1600)
           (Worklet.posted (Worklet.process inputs this))).
Proof.
  intros Hc. cbv zeta.
  assert (Hfull : ∀ inputs,
            Forall (λ m, length (Worklet.data m) = 1600)
              (Worklet.posted (Worklet.process inputs this))).
  { intros [|[|[ch|] ?] ?]; try by constructor.
    rewrite process_mono, Hc. cbv zeta. revert Hc.
    generalize 1600. intros n Hc.
    destruct (Nat.leb_spec n (length (Worklet.buffer this ++ ch)));
      cbn [Worklet.posted]; repeat constructor.
    cbn [Worklet.data]. rewrite length_take. lia. }
  rewrite process_mono, Hc. cbv zeta.
  revert Hc Hfull. generalize 1600. intros n Hc Hfull.
  destruct (Nat.leb_spec n (length (Worklet.buffer this ++ frame)))
    as [Hge|Hlt]; cbn [Worklet.alive Worklet.posted Worklet.next
                       Worklet.chunkSize Worklet.buffer].
  - split_and!; try done.
    + intros _. rewrite length_take, take_drop. split_and!; [done|lia|done|done].
    + lia.
    + intros inputs. split; [apply process_alive|apply Hfull].
  - split_and!; try done.
    + lia.
    + intros inputs. split; [apply process_alive|apply Hfull].
Qed.

(** C9: the [clear] command empties the buffer and leaves the
    processor running; frames fed after it whose lengths sum to exactly
    1600 make it post exactly one chunk, which holds exactly the samples
    of those frames, in order, and leave the buffer empty. *)
Theorem clear_then_one_chunk this (frames : list (list sample)) :
  Worklet.chunkSize this = 1600 →
  list_sum (map length frames) = 1600 →
  let cleared := Worklet.onmessage {| Worklet.command := str "clear" |} this in
  let s := Worklet.feed (map Worklet.mono frames) cleared in
  Worklet.buffer cleared = []
  ∧ Worklet.chunkSize cleared = 1600
  ∧ Worklet.alive s = true
  ∧ Worklet.posted s
    = [ {| Worklet.type := str "audio"; Worklet.data := concat frames |} ]
  ∧ Worklet.buffer (Worklet.next s) = [].
Proof.
  intros Hc Hsum. cbv zeta.
  assert (Hclr : Worklet.onmessage {| Worklet.command := str "clear" |} this
                 = {| Worklet.buffer := []; Worklet.chunkSize := 1600 |}).
  { unfold Worklet.onmessage, strictEq. cbn [Worklet.command].
    rewrite bool_decide_eq_true_2 by done. by rewrite Hc. }
  rewrite Hclr. rewrite <- length_concat in Hsum.
  split; [done|]. split; [done|].
  apply (feed_exact_chunk frames _ 1600); [lia|done|done|done].
Qed.
End WorkletClaims.

(* ================================================================= *)
(** * Properties of the transcription client *)

Section Strings.
Implicit Types (s sep : JSString) (xs ys : list JSString).

Lemma join_app sep xs ys :
  join sep (xs ++ ys) =
  join sep xs
  ++ (match xs, ys with _ :: _, _ :: _ => sep | _, _ => [] end)
  ++ join sep ys.
Proof.
  induction xs as [|x xs IH]; [done|].
  destruct xs as [|x' xs].
  - destruct ys as [|y ys]; simpl; [by rewrite !app_nil_r | done].
  - change (join sep ((x :: x' :: xs) ++ ys))
      with (x ++ sep ++ join sep ((x' :: xs) ++ ys)).
    rewrite IH. change (join sep (x :: x' :: xs))
      with (x ++ sep ++ join sep (x' :: xs)).
    destruct ys; by rewrite <- !app_assoc.
Qed.

Lemma join_prefix sep xs ys :
  xs `prefix_of` ys → join sep xs `prefix_of` join sep ys.
Proof. intros [k ->]. rewrite join_app. by eexists. Qed.

Lemma trimStart_all_white s :
  Forall (λ c, isWhiteSpace c = true) s → trimStart s = [].
Proof. induction 1 as [|c s Hc _ IH]; simpl; [done|by rewrite Hc]. Qed.

Lemma trim_all_white s :
  Forall (λ c, isWhiteSpace c = true) s → trim s = [].
Proof. intros H. unfold trim. by rewrite trimStart_all_white. Qed.

Lemma trimStart_keeps_ink s :
  Exists (λ c, isWhiteSpace c = false) s →
  Exists (λ c, isWhiteSpace c = false) (trimStart s).
Proof.
  induction s as [|c s IH]; intros H; [done|]. simpl.
  destruct (isWhiteSpace c) eqn:Hc; [|done].
  apply IH. inversion H; subst; [congruence|done].
Qed.

(** A string with a character that is not white space does not trim
    to the empty string. *)
Lemma trim_ink s :
  Exists (λ c, isWhiteSpace c = false) s → trim s ≠ [].
Proof.
  intros H. unfold trim, trimEnd.
  apply trimStart_keeps_ink in H.
  assert (H' : Exists (λ c, isWhiteSpace c = false) (rev (trimStart s))).
  { apply Exists_exists in H as (c & Hin & Hc).
    apply Exists_exists. exists c. split; [|done].
    by apply list_elem_of_In, in_rev, list_elem_of_In in Hin. }
  apply trimStart_keeps_ink in H'.
  destruct (trimStart (rev (trimStart s))) as [|c r] eqn:E.
  - inversion H'.
  - intros Hnil. apply (f_equal length) in Hnil.
    rewrite length_rev in Hnil. done.
Qed.
End Strings.

(** Unfolding a computation down to the world it yields. *)
Ltac js_unfold :=
  unfold exec, completion, polls, saveEffect, saveTranscription,
    saveEffectCall, saveTranscriptionCall, saveTranscriptionResume,
    processSessionCall, processSessionResume,
    handleStopRecording, handleStartRecording, endSession, processSession,
    createSession, sendChunk, stopRecording, startRecording, clearChunks,
    clearPolling, pollingEffect, clientSave, fetch, sent,
    setSessionId, setCommittedSegments, setUncommittedSegments,
    setIsProcessing, setError, setLanguage, setShouldSave, setIsRecording,
    setAudioError, write, read, call, throw, tryCatch, bind, ret in *.

Ltac js_world w :=
  let u := fresh "u" in let c := fresh "c" in let o := fresh "o" in
  destruct w as [u c o]; destruct u, c, o.

Section Polling.
Implicit Types (w : World) (net : Fetch ProcessData) (data : ProcessData).

(** [processSession] handles its own errors. *)
Lemma processSession_returns net w :
  completion (processSession net) w = Returns ().
Proof.
  js_unfold. destruct (falsy (sessionId (ui w))); [done|]. simpl.
  destruct net as [[st [data|err]]|err]; simpl; [|by destruct (ok _)..|done].
  destruct (ok _); simpl; [|done].
  destruct (committed data) as [segments|]; [destruct (0 <? _)|];
    by destruct (uncommitted data).
Qed.

(** What a poll never touches. *)
Lemma processSession_frame net w :
  let w' := exec (processSession net) w in
  sessionId (ui w') = sessionId (ui w)
  ∧ shouldSave (ui w') = shouldSave (ui w)
  ∧ language (ui w') = language (ui w)
  ∧ intervalRef (ui w') = intervalRef (ui w)
  ∧ capture w' = capture w
  ∧ documents (outside w') = documents (outside w)
  ∧ workletPort (outside w') = workletPort (outside w)
  ∧ activeIntervals (outside w') = activeIntervals (outside w).
Proof.
  js_unfold. destruct (falsy (sessionId (ui w))); [done|]. simpl.
  destruct net as [[st [data|err]]|err]; simpl; [|by destruct (ok _)..|done].
  destruct (ok _); simpl; [|done].
  destruct (committed data) as [segments|]; [destruct (0 <? _)|];
    by destruct (uncommitted data).
Qed.

(** The state of the segment lists after a successful poll. *)
Lemma processSession_success net data w :
  sessionSet w → succeeded net data →
  let w' := exec (processSession net) w in
  committedSegments (ui w') =
    match committed data with
    | Some (s :: rest) => s :: rest
    | _ => committedSegments (ui w)
    end
  ∧ uncommittedSegments (ui w') = default [] (uncommitted data)
  ∧ error (ui w') = error (ui w)
  ∧ isProcessing (ui w') = false
  ∧ requests (outside w')
    = requests (outside w) ++ [SessionProcess (toString (sessionId (ui w)))].
Proof.
  unfold sessionSet. intros Hset (response & -> & Hok & Hjson).
  js_unfold. rewrite Hset. simpl. rewrite Hok. simpl. rewrite Hjson. simpl.
  destruct (committed data) as [[|s rest]|]; by destruct (uncommitted data).
Qed.

(** C1: after a successful poll, the committed list is the one of
    the response when the response has one and it is not empty, and is
    what it was before when the response has none or an empty one; the
    uncommitted list is the one of the response, or the empty list when
    the response has none. *)
Theorem processSession_merges_response net data w :
  sessionSet w → succeeded net data →
  let w' := exec (processSession net) w in
  (∀ segments, committed data = Some segments → segments ≠ [] →
     committedSegments (ui w') = segments)
  ∧ (committed data = Some [] ∨ committed data = None →
     committedSegments (ui w') = committedSegments (ui w))
  ∧ (∀ segments, uncommitted data = Some segments →
     uncommittedSegments (ui w') = segments)
  ∧ (uncommitted data = None → uncommittedSegments (ui w') = []).
Proof.
  intros Hset Hok.
  destruct (processSession_success net data w Hset Hok) as (Hc & Hu & _).
  cbv zeta. rewrite Hc, Hu. split_and!.
  - intros [|s rest] -> ?; done.
  - by intros [-> | ->].
  - by intros segments ->.
  - by intros ->.
Qed.

(** A successful poll whose committed list is absent, empty, or an
    extension of the committed list that the client holds never shrinks
    the committed text. *)
Lemma processSession_extends net data w :
  sessionSet w → succeeded net data →
  (∀ segments, committed data = Some segments → segments ≠ [] →
     committedSegments (ui w) `prefix_of` segments) →
  let w' := exec (processSession net) w in
  committedSegments (ui w) `prefix_of` committedSegments (ui w')
  ∧ getTranscriptionText w `prefix_of` getTranscriptionText w'.
Proof.
  intros Hset Hok Hext.
  destruct (processSession_success net data w Hset Hok) as (Hc & _).
  cbv zeta.
  assert (Hpre : committedSegments (ui w)
                 `prefix_of` committedSegments
                               (ui (exec (processSession net) w))).
  { rewrite Hc. destruct (committed data) as [[|s rest]|]; [done| |done].
    by apply Hext. }
  split; [done|].
  unfold getTranscriptionText. apply join_prefix.
  destruct Hpre as [k ->]. rewrite map_app. by eexists.
Qed.

Lemma processSession_run net w :
  processSession net w = (Returns (), exec (processSession net) w).
Proof.
  pose proof (processSession_returns net w) as H.
  unfold completion, exec in *. destruct (processSession net w) as [r w'].
  simpl in *. by subst.
Qed.

Lemma polls_cons net later w :
  exec (polls (net :: later)) w
  = exec (polls later) (exec (processSession net) w).
Proof.
  unfold exec at 1. cbn [polls]. unfold bind.
  by rewrite processSession_run.
Qed.

Lemma answer_succeeded data : succeeded (answer data) data.
Proof. by eexists. Qed.

(** C2, as amended: within one session, along any sequence of successful
    polls whose responses grow (each committed list that is present and
    not empty extends the committed list that the client holds when the
    response arrives), the committed text on display never shrinks: the
    text before any poll of the sequence is a prefix of the text after
    it, and so is not longer. *)
Theorem committed_text_never_shrinks_along_growing_polls
    (answers : list (Fetch ProcessData)) (bodies : list ProcessData) w k :
  sessionSet w →
  Forall2 succeeded answers bodies →
  growing (committedSegments (ui w)) bodies →
  let before := exec (polls (take k answers)) w in
  let after := exec (polls (take (S k) answers)) w in
  getTranscriptionText before `prefix_of` getTranscriptionText after
  ∧ length (getTranscriptionText before) ≤ length (getTranscriptionText after).
Proof.
  intros Hset Hok. revert w k Hset.
  induction Hok as [|net data answers bodies Hnet _ IH];
    intros w k Hset Hgrow; cbv zeta.
  - rewrite !take_nil. done.
  - assert (Hext : ∀ segments, committed data = Some segments →
                     segments ≠ [] →
                     committedSegments (ui w) `prefix_of` segments).
    { intros [|s rest] Hsome ?; [done|]. cbn [growing] in Hgrow.
      rewrite Hsome in Hgrow. apply Hgrow. }
    destruct k as [|k].
    + cbn [take]. rewrite polls_cons.
      destruct (processSession_extends net data w Hset Hnet Hext) as (_ & H).
      split; [exact H|by apply prefix_length].
    + cbn [take]. rewrite !polls_cons. apply IH.
      * unfold sessionSet in *.
        destruct (processSession_frame net w) as (-> & _). done.
      * destruct (processSession_success net data w Hset Hnet) as (-> & _).
        cbn [growing] in Hgrow.
        destruct (committed data) as [[|s rest]|]; [done| |done].
        apply Hgrow.
Qed.
End Polling.

Section Session.
Implicit Types (w : World) (poll : Fetch ProcessData) (net : Fetch unit).

(** [endSession] with a session identifier set: the final poll, the
    end request, and then either the identifier cleared (the request
    resolved) or the error recorded (the request was rejected). *)
Lemma endSession_run poll net w :
  sessionSet w →
  endSession poll net w =
  let w1 := sent (SessionEnd (toString (sessionId (ui w))))
              (exec (processSession poll) w) in
  match net with
  | Returns _ => (Returns (), onUi (with_sessionId None) w1)
  | Throws err => (Returns (), onUi (with_error (Some (message err))) w1)
  end.
Proof.
  unfold sessionSet. intros Hset.
  unfold endSession, read, bind at 1. rewrite Hset.
  unfold tryCatch, bind at 1. rewrite processSession_run.
  unfold fetch, setSessionId, setError, write, call, bind. simpl.
  by destruct net.
Qed.

(** [endSession] without a session identifier does nothing. *)
Lemma endSession_unset poll net w :
  falsy (sessionId (ui w)) = true →
  endSession poll net w = (Returns (), w).
Proof. intros H. unfold endSession, read, bind, ret. by rewrite H. Qed.

(** C6, as amended: with a session identifier set, [endSession] runs
    one final [processSession] and then sends the session-end request;
    when that request resolves, whatever its status, the session
    identifier is then cleared and the end request raises no error; when
    that request is rejected, the message of the rejection becomes the
    error on display. *)
Theorem endSession_final_poll_then_end poll net w :
  sessionSet w →
  let id := toString (sessionId (ui w)) in
  let w1 := exec (processSession poll) w in
  let w' := exec (endSession poll net) w in
  completion (endSession poll net) w = Returns ()
  ∧ requests (outside w') = requests (outside w1) ++ [SessionEnd id]
  ∧ committedSegments (ui w') = committedSegments (ui w1)
  ∧ uncommittedSegments (ui w') = uncommittedSegments (ui w1)
  ∧ match net with
    | Returns _ => sessionId (ui w') = None ∧ error (ui w') = error (ui w1)
    | Throws err => error (ui w') = Some (message err)
    end.
Proof.
  intros Hset. unfold exec at 2, completion.
  rewrite (endSession_run poll net w Hset). cbv zeta.
  by destruct net.
Qed.

(** With a session identifier set, the poll of [endSession] is sent
    first: the two requests leave in this order. *)
Lemma endSession_requests poll net w :
  sessionSet w →
  requests (outside (exec (endSession poll net) w)) =
  requests (outside w)
  ++ [ SessionProcess (toString (sessionId (ui w)));
       SessionEnd (toString (sessionId (ui w))) ].
Proof.
  intros Hset. unfold exec at 1. rewrite (endSession_run _ _ _ Hset).
  assert (Hreq : requests (outside (exec (processSession poll) w))
                 = requests (outside w)
                   ++ [SessionProcess (toString (sessionId (ui w)))]).
  { unfold sessionSet in Hset. js_unfold. rewrite Hset. simpl.
    destruct poll as [[st [data|err]]|err]; simpl;
      [|by destruct (ok _)..|done].
    destruct (ok _); simpl; [|done].
    destruct (committed data) as [segments|]; [destruct (0 <? _)|];
      by destruct (uncommitted data). }
  destruct net; simpl; rewrite Hreq, <- app_assoc; done.
Qed.

(** When the end request is rejected, [endSession] leaves the session
    identifier as it was. *)
Lemma endSession_rejected_keeps_session poll err w :
  sessionSet w →
  sessionId (ui (exec (endSession poll (Throws err)) w)) = sessionId (ui w).
Proof.
  intros Hset. unfold exec. rewrite (endSession_run _ _ _ Hset). simpl.
  apply (processSession_frame poll w).
Qed.

(** C7, as amended: when the session-create request fails (it is
    rejected, or its response is not 2xx), [createSession] returns
    [null], puts the message of the failure on display and does not
    write the session identifier, which is unset afterwards exactly when
    it was unset before; and [handleStartRecording], given this failure,
    starts no capture and installs no chunk callback, so that a page
    that offered the start control offers it still, and the polling
    effect starts no timer on it. *)
Theorem createSession_failure (create : Fetch CreateData) dev w :
  failed create →
  let msg := failureMessage (str "Failed to create session") create in
  let w' := exec (createSession create) w in
  let w'' := exec (handleStartRecording create dev) w in
  completion (createSession create) w = Returns None
  ∧ error (ui w') = Some msg
  ∧ sessionId (ui w') = sessionId (ui w)
  ∧ (sessionId (ui w') = None ↔ sessionId (ui w) = None)
  ∧ error (ui w'') = Some msg
  ∧ sessionId (ui w'') = sessionId (ui w)
  ∧ isRecording (capture w'') = isRecording (capture w)
  ∧ onAudioChunk (capture w'') = onAudioChunk (capture w)
  ∧ (control w = StartControl →
     control w'' = StartControl
     ∧ ∀ fresh, exec (pollingEffect fresh) w' = w'
                ∧ exec (pollingEffect fresh) w'' = w'').
Proof.
  intros Hfail. unfold control. js_unfold. js_world w. simpl.
  destruct create as [response|err]; simpl in *.
  - rewrite Hfail. simpl.
    destruct workletNodeRef0, intervalRef0; simpl; rewrite ?Hfail;
      split_and!; try done; destruct isRecording0; done.
  - destruct workletNodeRef0, intervalRef0; simpl;
      split_and!; try done; destruct isRecording0; done.
Qed.

(** C8: when the add-chunk request fails, [sendChunk] puts the message
    of the failure on display and changes nothing else: the session
    identifier, both segment lists and every other hook of the component
    are as before, and so is the whole state of the capture hook
    (recording flag, audio graph, chunk callback); the callback returns
    normally. *)
Theorem sendChunk_failure newSessionId audioBase64 net w :
  failed net →
  let msg := failureMessage (str "Failed to send audio chunk") net in
  let w' := exec (sendChunk newSessionId audioBase64 net) w in
  completion (sendChunk newSessionId audioBase64 net) w = Returns ()
  ∧ ui w' = with_error (Some msg) (ui w)
  ∧ sessionId (ui w') = sessionId (ui w)
  ∧ committedSegments (ui w') = committedSegments (ui w)
  ∧ uncommittedSegments (ui w') = uncommittedSegments (ui w)
  ∧ capture w' = capture w
  ∧ isRecording (capture w') = isRecording (capture w)
  ∧ documents (outside w') = documents (outside w)
  ∧ requests (outside w')
    = requests (outside w)
      ++ [SessionAddChunk (toString newSessionId) audioBase64].
Proof.
  intros Hfail. js_unfold. simpl.
  destruct net as [response|err]; simpl in *; [rewrite Hfail|]; done.
Qed.
End Session.

Section Saving.
Implicit Types (w : World) (poll : Fetch ProcessData) (net : Fetch unit).
Implicit Types (t : Teardown) (now : JSString) (store : Outcome unit).

Lemma clearPolling_run w :
  clearPolling w = (Returns (), exec clearPolling w).
Proof. js_unfold. by destruct (intervalRef (ui w)). Qed.

Lemma clearPolling_frame w :
  let w' := exec clearPolling w in
  with_intervalRef None (ui w') = with_intervalRef None (ui w)
  ∧ capture w' = capture w
  ∧ with_activeIntervals [] (outside w')
    = with_activeIntervals [] (outside w).
Proof. js_unfold. js_world w. simpl. by destruct intervalRef0. Qed.

(** [stopRecording] handles its own errors and touches the capture
    hook only. *)
Lemma stopRecording_run t w :
  ∃ c, stopRecording t w
       = (Returns (), {| ui := ui w; capture := c; outside := outside w |}).
Proof.
  js_unfold. js_world w. simpl.
  destruct workletNodeRef0, sourceNodeRef0, streamRef0, audioContextRef0,
    t as [[|] [|] [|] [|]]; simpl; eauto.
Qed.

(** When no teardown call throws, [stopRecording] ends with
    [isRecording] false and every ref released. *)
Lemma stopRecording_clean w :
  let t := {| disconnectWorklet := Returns (); disconnectSource := Returns ();
              stopTracks := Returns (); closeContext := Returns () |} in
  let c := capture (exec (stopRecording t) w) in
  isRecording c = false ∧ workletNodeRef c = false ∧ sourceNodeRef c = false
  ∧ streamRef c = false ∧ audioContextRef c = false.
Proof.
  js_unfold. js_world w. simpl.
  destruct workletNodeRef0, sourceNodeRef0, streamRef0, audioContextRef0;
    done.
Qed.

(** After a stop whose teardown does not throw, the page offers the
    start control, not the stop control. *)
Lemma stop_offers_start poll net w :
  control (exec (handleStopRecording cleanTeardown poll net) w) = StartControl.
Proof.
  assert (Hrec : ∀ w0, isRecording (capture (exec (endSession poll net) w0))
                      = isRecording (capture w0)).
  { intros w0. unfold exec. destruct (falsy (sessionId (ui w0))) eqn:Hs.
    - by rewrite endSession_unset.
    - rewrite endSession_run by done.
      destruct (processSession_frame poll w0) as (_ & _ & _ & _ & Hcap & _).
      destruct net; simpl; by rewrite Hcap. }
  unfold control.
  replace (isRecording (capture (exec (handleStopRecording cleanTeardown poll net) w)))
    with false; [done|].
  symmetry.
  destruct (stopRecording_clean (exec clearPolling w)) as (Hoff & _).
  cbv zeta in Hoff. fold cleanTeardown in Hoff.
  unfold exec at 1. unfold handleStopRecording, tryCatch, bind at 1.
  rewrite clearPolling_run. unfold bind at 1.
  destruct (stopRecording_run cleanTeardown (exec clearPolling w)) as [c Hc].
  unfold exec at 1 in Hoff. rewrite Hc in Hoff. rewrite Hc.
  unfold setShouldSave, write, bind. cbn [snd capture] in Hoff.
  specialize (Hrec (onUi (with_shouldSave true)
                      {| ui := ui (exec clearPolling w); capture := c;
                         outside := outside (exec clearPolling w) |})).
  unfold exec at 1 in Hrec. cbn [onUi capture] in Hrec.
  destruct (endSession poll net _) as [[|err] w1]; simpl in *; congruence.
Qed.

(** [stopRecording] lowers the recording flag unless a teardown call on
    a held resource throws, and then it leaves the flag. *)
Lemma stopRecording_flag t w :
  isRecording (capture (exec (stopRecording t) w))
  = if teardownFails (capture w) t then isRecording (capture w) else false.
Proof.
  unfold teardownFails, returns. js_unfold. js_world w.
  destruct t as [a b c d]. cbn.
  destruct workletNodeRef0; cbn; [destruct a; cbn; [|done]|].
  all: destruct sourceNodeRef0; cbn; [destruct b; cbn; [|done]|].
  all: destruct streamRef0; cbn; [destruct c; cbn; [|done]|].
  all: destruct audioContextRef0; cbn; [destruct d; cbn; [|done]|].
  all: done.
Qed.

(** [handleStopRecording] leaves the recording flag as [stopRecording]
    does. *)
Lemma handleStopRecording_flag t poll net w :
  isRecording (capture (exec (handleStopRecording t poll net) w))
  = if teardownFails (capture w) t then isRecording (capture w) else false.
Proof.
  assert (Hrec : ∀ w0, isRecording (capture (exec (endSession poll net) w0))
                      = isRecording (capture w0)).
  { intros w0. unfold exec. destruct (falsy (sessionId (ui w0))) eqn:Hs.
    - by rewrite endSession_unset.
    - rewrite endSession_run by done.
      destruct (processSession_frame poll w0) as (_ & _ & _ & _ & Hcap & _).
      destruct net; simpl; by rewrite Hcap. }
  pose proof (stopRecording_flag t (exec clearPolling w)) as Hflag.
  destruct (clearPolling_frame w) as (_ & Hcap & _). cbv zeta in Hcap.
  rewrite Hcap in Hflag. rewrite <- Hflag. clear Hflag Hcap.
  destruct (stopRecording_run t (exec clearPolling w)) as [c Hc].
  assert (Hcc : capture (exec (stopRecording t) (exec clearPolling w)) = c)
    by (unfold exec at 1; by rewrite Hc).
  rewrite Hcc. clear Hcc.
  unfold exec at 1. unfold handleStopRecording, tryCatch, bind at 1.
  rewrite clearPolling_run. unfold bind at 1. rewrite Hc.
  unfold setShouldSave, write, bind. cbn [snd capture].
  specialize (Hrec (onUi (with_shouldSave true)
                      {| ui := ui (exec clearPolling w); capture := c;
                         outside := outside (exec clearPolling w) |})).
  unfold exec at 1 in Hrec. cbn [onUi capture] in Hrec.
  destruct (endSession poll net _) as [[|err] w1]; simpl in *; congruence.
Qed.

(** [handleStopRecording]: polling cleared, capture stopped, the save
    flag raised, and then [endSession]. *)
Lemma handleStopRecording_run t poll net w :
  ∃ w0, handleStopRecording t poll net w = endSession poll net w0
        ∧ with_intervalRef None (ui w0)
          = with_intervalRef None (with_shouldSave true (ui w))
        ∧ shouldSave (ui w0) = true
        ∧ outside w0
          = with_activeIntervals (activeIntervals (outside w0)) (outside w).
Proof.
  destruct (stopRecording_run t (exec clearPolling w)) as [c Hc].
  destruct (clearPolling_frame w) as (Hui & _ & Hout).
  eexists (onUi (with_shouldSave true)
             {| ui := ui (exec clearPolling w); capture := c;
                outside := outside (exec clearPolling w) |}).
  split_and!.
  - unfold handleStopRecording, tryCatch, bind at 1.
    rewrite clearPolling_run. unfold bind at 1. rewrite Hc.
    unfold setShouldSave, write, bind. simpl.
    assert (He : ∀ w0, ∃ w1, endSession poll net w0 = (Returns (), w1)).
    { intros w0. destruct (falsy (sessionId (ui w0))) eqn:Hs.
      - rewrite endSession_unset by done. eauto.
      - rewrite endSession_run by done. destruct net; simpl; eauto. }
    edestruct He as [w1 ->]. done.
  - simpl. cbv zeta in Hui. revert Hui.
    generalize (ui (exec clearPolling w)) (ui w).
    intros [] []; unfold with_intervalRef, with_shouldSave; simpl.
    intros [=]. by subst.
  - done.
  - simpl. cbv zeta in Hout. revert Hout.
    generalize (outside (exec clearPolling w)) (outside w).
    intros [] []; unfold with_activeIntervals; simpl.
    intros [=]. by subst.
Qed.



(** The save effect when it fires. *)
Lemma saveEffect_fires now store w :
  shouldSave (ui w) = true → falsy (sessionId (ui w)) = true →
  saveEffect now store w = saveTranscription now store w.
Proof. unfold saveEffect, read, bind. by intros -> ->. Qed.

Lemma saveTranscription_blank now store w :
  trim (getTranscriptionText w) = [] →
  saveTranscription now store w
  = (Returns (), onUi (with_shouldSave false) w).
Proof.
  unfold getTranscriptionText. intros Hblank. js_unfold.
  rewrite Hblank. simpl. by rewrite andb_false_r.
Qed.

Lemma saveTranscription_saves now w :
  trim (getTranscriptionText w) ≠ [] →
  saveTranscription now (Returns ()) w
  = (Returns (),
     onUi (with_shouldSave false)
       (onOutside (λ o, with_documents
          (documents o
           ++ [ {| Doc._type := TRANSCRIPTIONS_DOCTYPE;
                   Doc.text := getTranscriptionText w;
                   Doc.language := language (ui w);
                   Doc.createdAt := now;
                   Doc.wordCount := length (committedSegments (ui w)) |} ])
          o) w)).
Proof.
  unfold getTranscriptionText. intros Hink. js_unfold.
  destruct (join _ _) as [|c text] eqn:Htext; [done|].
  destruct (trim (c :: text)); done.
Qed.

(** The save effect is its two halves run back to back. *)
Lemma saveEffect_two_halves now store w :
  saveEffect now store w
  = match saveEffectCall now w with
    | (Returns (Some doc), w1) => saveTranscriptionResume doc store w1
    | (_, w1) => (Returns (), w1)
    end.
Proof.
  js_unfold. destruct (negb _ || negb _); [done|].
  destruct (truthy _ && truthy _); [|done].
  by destruct store.
Qed.

(** A poll is its two halves run back to back. *)
Lemma processSession_two_halves poll w :
  processSession poll w
  = match processSessionCall w with
    | (Returns true, w1) => processSessionResume poll w1
    | (_, w1) => (Returns (), w1)
    end.
Proof.
  js_unfold. destruct (falsy _); [done|]. cbn.
  by destruct poll as [[st [data|err]]|err].
Qed.




(** C10: when the save effect fires (the save flag is up and no session
    identifier is set) and the committed text is not empty but is made
    of white space only, no record is added to the store and no error is
    shown, and the save flag is lowered all the same, so that no later
    run of the save effect saves anything. *)
Theorem blank_text_is_not_saved now store w :
  shouldSave (ui w) = true →
  falsy (sessionId (ui w)) = true →
  getTranscriptionText w ≠ [] →
  Forall (λ c, isWhiteSpace c = true) (getTranscriptionText w) →
  let w' := exec (saveEffect now store) w in
  w' = onUi (with_shouldSave false) w
  ∧ documents (outside w') = documents (outside w)
  ∧ error (ui w') = error (ui w)
  ∧ shouldSave (ui w') = false
  ∧ (∀ now' store', exec (saveEffect now' store') w' = w').
Proof.
  intros Hflag Hsid _ Hblank. cbv zeta. unfold exec.
  rewrite saveEffect_fires, saveTranscription_blank
    by (done || by apply trim_all_white).
  cbn [snd]. split_and!; try done.
Qed.
End Saving.

(* ================================================================= *)
(** * The properties on concrete runs *)

Section Runs.

Example trim_example : trim (str "  a b  ") = str "a b".
Proof. reflexivity. Qed.

Example join_example :
  join (str " ") [str "hello"; str "world"] = str "hello world".
Proof. reflexivity. Qed.

Example recording_state :
  sessionId (ui (recording "s1")) = Some (str "s1")
  ∧ isRecording (capture (recording "s1")) = true
  ∧ onAudioChunk (capture (recording "s1")) = Some (Some (str "s1"))
  ∧ requests (outside (recording "s1")) = [SessionCreate (str "fr")].
Proof. by vm_compute. Qed.

(** The poll sequence [{committed: ["a"], uncommitted: ["b"]}] then
    [{committed: [], uncommitted: ["c"]}]. *)
Example poll_keeps_committed_on_empty :
  let w := exec (polls [ pollAnswer [str "a"] [str "b"];
                         pollAnswer [] [str "c"] ]) (recording "s1") in
  getTranscriptionText w = str "a" ∧ uncommittedText w = str "c".
Proof. by vm_compute. Qed.

(** The poll sequence [["a"]] then [["a", "d"]]. *)
Example poll_grows_committed :
  let w := exec (polls [ pollAnswer [str "a"] []; pollAnswer [str "a"; str "d"] [] ])
             (recording "s1") in
  getTranscriptionText w = str "a d".
Proof. by vm_compute. Qed.

(** [endSession] with no session is a no-op. *)
Example endSession_without_session poll net :
  endSession poll net mounted = (Returns (), mounted).
Proof. reflexivity. Qed.
End Runs.

(* ================================================================= *)
(** * Instances and limits of the properties *)

(** The merge of a poll response, on the second poll of the sequence
    [{committed: ["a"], uncommitted: ["b"]}],
    [{committed: [], uncommitted: ["c"]}]. *)
Lemma processSession_merges_response_witness :
  let w := exec (processSession (pollAnswer [str "a"] [str "b"])) (recording "s1") in
  let data := {| committed := Some []; uncommitted := Some [segment "c"] |} in
  let w' := exec (processSession (answer data)) w in
  sessionSet w ∧ succeeded (answer data) data
  ∧ committedSegments (ui w') = [segment "a"]
  ∧ uncommittedSegments (ui w') = [segment "c"].
Proof.
  cbv zeta.
  assert (Hset : sessionSet
            (exec (processSession (pollAnswer [str "a"] [str "b"]))
               (recording "s1"))) by reflexivity.
  assert (Hok : succeeded
            (answer {| committed := Some []; uncommitted := Some [segment "c"] |})
            {| committed := Some []; uncommitted := Some [segment "c"] |}).
  { eexists. split; [reflexivity|]. split; reflexivity. }
  destruct (processSession_merges_response _ _ _ Hset Hok)
    as (_ & Hkeep & Hrepl & _).
  split; [exact Hset|]. split; [exact Hok|]. split.
  - rewrite Hkeep; [reflexivity|left; reflexivity].
  - apply Hrepl. reflexivity.
Defined.

(** C2 as stated fails: after the committed list [["a", "d"]], a
    successful poll that carries the committed list [["a"]] replaces it.
    The committed text goes from "a d" to "a": it is shorter, it has
    fewer segments, and the text before is not a prefix of the text
    after. *)
Lemma committed_text_can_shrink :
  let w := exec (processSession (pollAnswer [str "a"; str "d"] [])) (recording "s1") in
  let w' := exec (processSession (pollAnswer [str "a"] [])) w in
  sessionSet w
  ∧ getTranscriptionText w = str "a d"
  ∧ getTranscriptionText w' = str "a"
  ∧ length (getTranscriptionText w') < length (getTranscriptionText w)
  ∧ length (committedSegments (ui w')) < length (committedSegments (ui w))
  ∧ ¬ (getTranscriptionText w `prefix_of` getTranscriptionText w').
Proof.
  cbv zeta. split_and!; [reflexivity|reflexivity|reflexivity| | |].
  - vm_compute. lia.
  - vm_compute. lia.
  - intros Hpre. apply prefix_length in Hpre. vm_compute in Hpre. lia.
Qed.

(** The growth of the committed text, on the second poll of the
    sequence [["a"]], [["a", "d"]]. *)
Lemma committed_text_never_shrinks_witness :
  let bodies := [pollData [str "a"] []; pollData [str "a"; str "d"] []] in
  let answers := map answer bodies in
  let w := recording "s1" in
  let before := exec (polls (take 1 answers)) w in
  let after := exec (polls (take 2 answers)) w in
  sessionSet w
  ∧ Forall2 succeeded answers bodies
  ∧ growing (committedSegments (ui w)) bodies
  ∧ getTranscriptionText before `prefix_of` getTranscriptionText after
  ∧ length (getTranscriptionText before) ≤ length (getTranscriptionText after).
Proof.
  cbv zeta.
  assert (Hset : sessionSet (recording "s1")) by reflexivity.
  assert (Hok : Forall2 succeeded
            (map answer [pollData [str "a"] []; pollData [str "a"; str "d"] []])
            [pollData [str "a"] []; pollData [str "a"; str "d"] []]).
  { repeat constructor; apply answer_succeeded. }
  assert (Hgrow : growing (committedSegments (ui (recording "s1")))
            [pollData [str "a"] []; pollData [str "a"; str "d"] []]).
  { split; [eexists; reflexivity|].
    split; [exists [segment "d"]; reflexivity|exact I]. }
  split; [exact Hset|]. split; [exact Hok|]. split; [exact Hgrow|].
  exact (committed_text_never_shrinks_along_growing_polls _ _ _ 1
           Hset Hok Hgrow).
Defined.



(** C4 as stated fails for frames longer than a chunk: one frame of 3200
    samples ([N = 1], [F = 3200]) makes a fresh accumulator post one chunk,
    not [floor (3200 / 1600) = 2], and leaves 1600 samples in the buffer,
    not at most 1599. *)
Lemma accumulator_long_frame :
  let frames := [repeat 0%nat 3200] in
  let s := Worklet.feed (map Worklet.mono frames) Worklet.constructor in
  length frames = 1
  ∧ Forall (λ f, length f = 3200) frames
  ∧ (1 * 3200) / 1600 = 2
  ∧ length (Worklet.posted s) = 1
  ∧ length (Worklet.buffer (Worklet.next s)) = 1600
  ∧ ¬ (length (Worklet.posted s) = (1 * 3200) / 1600)
  ∧ ¬ (length (Worklet.buffer (Worklet.next s)) ≤ 1599).
Proof.
  cbv zeta.
  assert (Hposted : length (Worklet.posted
             (Worklet.feed (map Worklet.mono [repeat 0%nat 3200])
                Worklet.constructor)) = 1) by (by vm_compute).
  assert (Hleft : length (Worklet.buffer (Worklet.next
             (Worklet.feed (map Worklet.mono [repeat 0%nat 3200])
                Worklet.constructor))) = 1600) by (by vm_compute).
  assert (Hdiv : (1 * 3200) / 1600 = 2) by (by vm_compute).
  rewrite Hposted, Hleft, Hdiv.
  split; [reflexivity|].
  split; [repeat constructor; apply repeat_length|].
  split; [reflexivity|]. split; [reflexivity|]. split; [reflexivity|].
  split; [discriminate|lia].
Qed.

(** The stream property on 25 frames of 128 samples, the frame size of
    the host: 3200 samples make two chunks and leave nothing. *)
Lemma accumulator_stream_witness :
  let frames := repeat (repeat 0%nat 128) 25 in
  let s := Worklet.feed (map Worklet.mono frames) Worklet.constructor in
  128 ≤ 1600 ∧ length frames = 25 ∧ Forall (λ f, length f = 128) frames
  ∧ length (Worklet.posted s) = (25 * 128) / 1600
  ∧ Forall (λ m, length (Worklet.data m) = 1600) (Worklet.posted s)
  ∧ concat (map Worklet.data (Worklet.posted s))
      ++ Worklet.buffer (Worklet.next s) = concat frames
  ∧ length (Worklet.buffer (Worklet.next s)) ≤ 1599.
Proof.
  cbv zeta.
  assert (H1 : 128 ≤ 1600) by lia.
  assert (H2 : length (repeat (repeat 0%nat 128) 25) = 25) by reflexivity.
  assert (H3 : Forall (λ f, length f = 128) (repeat (repeat 0%nat 128) 25)).
  { apply Forall_forall. intros f Hin.
    apply list_elem_of_In, repeat_spec in Hin. rewrite Hin. reflexivity. }
  split; [exact H1|]. split; [exact H2|]. split; [exact H3|].
  exact (accumulator_stream 25 128 (repeat (repeat 0%nat 128) 25) H1 H2 H3).
Defined.

(** One call of [process] on a buffer of 1590 samples that
    receives a frame of 128: one chunk leaves, 118 samples stay. *)
Lemma process_emits_one_full_chunk_witness :
  let this := {| Worklet.buffer := repeat 0%nat 1590;
                 Worklet.chunkSize := 1600 |} in
  let s := Worklet.process (Worklet.mono (repeat 1%nat 128)) this in
  Worklet.chunkSize this = 1600
  ∧ Worklet.alive s = true
  ∧ Forall (λ m, length (Worklet.data m) = 1600) (Worklet.posted s).
Proof.
  cbv zeta.
  destruct (process_emits_one_full_chunk
              {| Worklet.buffer := repeat 0%nat 1590;
                 Worklet.chunkSize := 1600 |}
              (repeat 1%nat 128) [] [] eq_refl)
    as (Halive & _ & _ & _ & Hall).
  split; [reflexivity|]. split; [exact Halive|].
  apply (Hall (Worklet.mono (repeat 1%nat 128))).
Defined.

Example process_chunk_run :
  let this := {| Worklet.buffer := repeat 0%nat 1590;
                 Worklet.chunkSize := 1600 |} in
  let s := Worklet.process (Worklet.mono (repeat 1%nat 128)) this in
  map Worklet.data (Worklet.posted s) = [repeat 0%nat 1590 ++ repeat 1%nat 10]
  ∧ Worklet.buffer (Worklet.next s) = repeat 1%nat 118.
Proof. by vm_compute. Qed.

(** The clear command on a processor that holds 100 stale samples:
    after the clear command, two frames of 800 samples leave as one chunk
    that holds these 1600 samples and none of the stale ones. *)
Lemma clear_then_one_chunk_witness :
  let this := {| Worklet.buffer := repeat 9%nat 100;
                 Worklet.chunkSize := 1600 |} in
  let frames := [repeat 1%nat 800; repeat 2%nat 800] in
  let cleared := Worklet.onmessage {| Worklet.command := str "clear" |} this in
  let s := Worklet.feed (map Worklet.mono frames) cleared in
  Worklet.chunkSize this = 1600
  ∧ list_sum (map length frames) = 1600
  ∧ Worklet.posted s
    = [ {| Worklet.type := str "audio";
           Worklet.data := repeat 1%nat 800 ++ repeat 2%nat 800 |} ]
  ∧ Worklet.buffer (Worklet.next s) = [].
Proof.
  cbv zeta.
  assert (Hsum : list_sum (map length [repeat 1%nat 800; repeat 2%nat 800])
                 = 1600).
  { cbn [map list_sum]. rewrite !repeat_length. reflexivity. }
  destruct (clear_then_one_chunk
              {| Worklet.buffer := repeat 9%nat 100;
                 Worklet.chunkSize := 1600 |}
              [repeat 1%nat 800; repeat 2%nat 800] eq_refl Hsum)
    as (_ & _ & _ & Hposted & Hempty).
  split; [reflexivity|]. split; [exact Hsum|]. split; [|exact Hempty].
  etransitivity; [exact Hposted|]. cbn [concat]. by rewrite app_nil_r.
Defined.

(** C6 as stated fails.  When the end request is rejected, the error is
    shown but the session identifier stays set.  When the end request is
    answered with status 500, the identifier is cleared but no error is
    shown. *)
Lemma endSession_failed_end_request :
  (let w' := exec (endSession (pollAnswer [] []) networkError) (recording "s1") in
   error (ui w') = Some (str "Failed to fetch")
   ∧ sessionId (ui w') = Some (str "s1")
   ∧ sessionId (ui w') ≠ None)
  ∧
  (let w' := exec (endSession (pollAnswer [] []) (serverError ())) (recording "s1") in
   sessionId (ui w') = None ∧ error (ui w') = None).
Proof. cbv zeta. split_and!; by vm_compute. Qed.

(** The end of a session, while recording in session s1. *)
Lemma endSession_final_poll_then_end_witness :
  let w := recording "s1" in
  let w' := exec (endSession (pollAnswer [str "a"] []) (answer ())) w in
  sessionSet w
  ∧ requests (outside w')
    = [ SessionCreate (str "fr"); SessionProcess (str "s1");
        SessionEnd (str "s1") ]
  ∧ sessionId (ui w') = None
  ∧ getTranscriptionText w' = str "a".
Proof.
  cbv zeta.
  assert (Hset : sessionSet (recording "s1")) by reflexivity.
  destruct (endSession_final_poll_then_end (pollAnswer [str "a"] [])
              (answer ()) (recording "s1") Hset)
    as (_ & Hreq & Hcommitted & _ & Hid & _).
  split; [exact Hset|]. split; [|split; [exact Hid|]].
  - etransitivity; [exact Hreq|]. reflexivity.
  - unfold getTranscriptionText. rewrite Hcommitted. reflexivity.
Defined.

(** C7 as stated fails where an identifier is stored.  After a stop
    whose end request is rejected the identifier of the session stays
    stored and the page offers the start control; a start whose create
    request then fails leaves that identifier stored, not [null]. *)
Lemma createSession_failure_keeps_stale_identifier :
  let w := exec (handleStopRecording cleanTeardown
                   (pollAnswer [str "hello"] []) networkError)
             (recording "s1") in
  let w' := exec (createSession networkError) w in
  let w'' := exec (handleStartRecording networkError workingDevice) w in
  control w = StartControl
  ∧ failed (@networkError CreateData)
  ∧ error (ui w') = Some (str "Failed to fetch")
  ∧ sessionId (ui w') = Some (str "s1")
  ∧ sessionId (ui w') ≠ None
  ∧ sessionId (ui w'') = Some (str "s1").
Proof. cbv zeta. split_and!; by vm_compute. Qed.

(** A failed session creation on the mounted page, the server out of
    reach. *)
Lemma createSession_failure_witness :
  let w' := exec (createSession networkError) mounted in
  let w'' := exec (handleStartRecording networkError workingDevice) mounted in
  failed (@networkError CreateData)
  ∧ error (ui w') = Some (str "Failed to fetch")
  ∧ sessionId (ui w') = None
  ∧ isRecording (capture w'') = false
  ∧ control w'' = StartControl.
Proof.
  cbv zeta.
  destruct (createSession_failure networkError workingDevice mounted I)
    as (_ & Herr & _ & Hid & _ & _ & Hrec & _ & Hidle).
  split; [exact I|]. split; [exact Herr|].
  split; [apply Hid; reflexivity|]. split; [exact Hrec|].
  exact (proj1 (Hidle eq_refl)).
Defined.

(** A failed chunk upload while recording, the server answering 500. *)
Lemma sendChunk_failure_witness :
  let w := recording "s1" in
  let w' := exec (sendChunk (Some (str "s1")) (str "AAAA") (serverError ())) w in
  failed (serverError ())
  ∧ error (ui w') = Some (str "Failed to send audio chunk")
  ∧ sessionId (ui w') = Some (str "s1")
  ∧ isRecording (capture w') = true.
Proof.
  cbv zeta.
  assert (Hfail : failed (serverError ())) by reflexivity.
  destruct (sendChunk_failure (Some (str "s1")) (str "AAAA") (serverError ())
              (recording "s1") Hfail)
    as (_ & Hui & Hid & _ & _ & _ & Hrec & _).
  split; [exact Hfail|]. split; [|split].
  - rewrite Hui. reflexivity.
  - etransitivity; [exact Hid|]. reflexivity.
  - etransitivity; [exact Hrec|]. reflexivity.
Defined.

(** The save effect on a page whose committed text is a single
    space, at the time the save effect fires. *)
Lemma blank_text_is_not_saved_witness :
  let w := onUi (with_shouldSave true)
             (onUi (with_committedSegments [segment " "]) mounted) in
  let w' := exec (saveEffect (str "2025-01-01T00:00:00.000Z") (Returns ())) w in
  shouldSave (ui w) = true
  ∧ falsy (sessionId (ui w)) = true
  ∧ getTranscriptionText w ≠ []
  ∧ Forall (λ c, isWhiteSpace c = true) (getTranscriptionText w)
  ∧ documents (outside w') = []
  ∧ shouldSave (ui w') = false.
Proof.
  cbv zeta.
  assert (Hne : getTranscriptionText
                  (onUi (with_shouldSave true)
                     (onUi (with_committedSegments [segment " "]) mounted))
                ≠ []) by discriminate.
  assert (Hws : Forall (λ c, isWhiteSpace c = true)
                  (getTranscriptionText
                     (onUi (with_shouldSave true)
                        (onUi (with_committedSegments [segment " "]) mounted)))).
  { apply Forall_cons. split; [reflexivity|apply Forall_nil_2]. }
  destruct (blank_text_is_not_saved (str "2025-01-01T00:00:00.000Z")
              (Returns ())
              (onUi (with_shouldSave true)
                 (onUi (with_committedSegments [segment " "]) mounted))
              eq_refl eq_refl Hne Hws)
    as (_ & Hdocs & _ & Hflag & _).
  split; [reflexivity|]. split; [reflexivity|]. split; [exact Hne|].
  split; [exact Hws|]. split; [|exact Hflag].
  etransitivity; [exact Hdocs|]. reflexivity.
Defined.

(* ================================================================= *)
(** * Further properties of the audio worklet *)

Section WorkletMore.
Context {sample : Type}.
Implicit Types (this : Worklet.WhisperAudioProcessor sample).

Lemma process_conserves inputs this :
  let s := Worklet.process inputs this in
  Worklet.buffer this ++ Host.received inputs
  = concat (map Worklet.data (Worklet.posted s))
    ++ Worklet.buffer (Worklet.next s).
Proof.
  destruct inputs as [|[|[ch|] ?] ?]; cbv zeta;
    try (cbn; by rewrite app_nil_r).
  rewrite process_mono. cbv zeta.
  destruct (_ <=? _); cbn [Worklet.posted Worklet.next Worklet.buffer
                            Worklet.data map concat app Host.received].
  - by rewrite app_nil_r, take_drop.
  - done.
Qed.

(** No sample is lost, repeated or moved: whatever the calls carry and
    whatever the processor holds at the start, the samples held at the
    start followed by the samples received are the chunks posted, in
    order, followed by the samples held at the end. *)
Theorem feed_conserves_samples calls this :
  let s := Worklet.feed calls this in
  Worklet.buffer this ++ concat (map Host.received calls)
  = concat (map Worklet.data (Worklet.posted s))
    ++ Worklet.buffer (Worklet.next s).
Proof.
  revert this. induction calls as [|inputs later IH]; intros this.
  - cbn. by rewrite app_nil_r.
  - rewrite feed_cons. cbv zeta.
    cbn [Worklet.posted Worklet.next map concat].
    rewrite map_app, concat_app, <- app_assoc.
    specialize (IH (Worklet.next (Worklet.process inputs this))).
    cbv zeta in IH. rewrite <- IH, !app_assoc. f_equal.
    apply process_conserves.
Qed.

Lemma process_posts_at_most_one inputs this :
  length (Worklet.posted (Worklet.process inputs this)) ≤ 1.
Proof.
  unfold Worklet.process.
  destruct inputs as [|[|[ch|] ?] ?]; cbn; try lia.
  destruct (_ <=? _); cbn; lia.
Qed.

(** A call of [process] never posts more than one chunk, so a run of
    calls posts at most as many chunks as there are calls, however many
    samples the calls carry. *)
Theorem feed_posts_at_most_one_chunk_per_call calls this :
  length (Worklet.posted (Worklet.feed calls this)) ≤ length calls.
Proof.
  revert this. induction calls as [|inputs later IH]; intros this.
  - cbn. lia.
  - rewrite feed_cons. cbv zeta. cbn [Worklet.posted length].
    rewrite length_app.
    pose proof (process_posts_at_most_one inputs this).
    specialize (IH (Worklet.next (Worklet.process inputs this))). lia.
Qed.

Lemma feed_long_frames (frames : list (list sample)) this n F :
  Worklet.chunkSize this = n →
  n ≤ F →
  Forall (λ f, length f = F) frames →
  let s := Worklet.feed (map Worklet.mono frames) this in
  length (Worklet.posted s) = length frames
  ∧ Forall (λ m, length (Worklet.data m) = n) (Worklet.posted s)
  ∧ length (Worklet.buffer (Worklet.next s))
    = length (Worklet.buffer this) + length frames * (F - n).
Proof.
  intros Hc HF Hlen. revert this Hc.
  induction Hlen as [|f frames Hf _ IH]; intros this Hc.
  - cbn. split_and!; [done|by constructor|lia].
  - change (map Worklet.mono (f :: frames))
      with (Worklet.mono f :: map Worklet.mono frames).
    rewrite feed_cons. unfold Worklet.mono at 1.
    rewrite process_mono, Hc. cbv zeta.
    destruct (Nat.leb_spec n (length (Worklet.buffer this ++ f)))
      as [Hge|Hlt]; [|rewrite length_app in Hlt; lia].
    cbn [Worklet.alive Worklet.posted Worklet.next].
    set (this' := {| Worklet.buffer := _ |}).
    destruct (IH this') as (Hn & Hall & Hb); [done|].
    split_and!.
    + cbn [app length]. by rewrite Hn.
    + constructor; [|done]. cbn [Worklet.data]. rewrite length_take. lia.
    + rewrite Hb. subst this'. cbn [Worklet.buffer length].
      rewrite length_drop, length_app, Hf. nia.
Qed.

(** With frames at least as long as a chunk, the accumulator falls
    behind: [N] frames of [F] samples, [F] at least 1600, fed to a fresh
    accumulator post exactly [N] full chunks and leave [N * (F - 1600)]
    samples waiting in the buffer. *)
Theorem feed_long_frames_backlog (N F : nat) (frames : list (list sample)) :
  1600 ≤ F →
  length frames = N →
  Forall (λ f, length f = F) frames →
  let s := Worklet.feed (map Worklet.mono frames) Worklet.constructor in
  length (Worklet.posted s) = N
  ∧ Forall (λ m, length (Worklet.data m) = 1600) (Worklet.posted s)
  ∧ length (Worklet.buffer (Worklet.next s)) = N * (F - 1600).
Proof.
  intros HF <- Hlen.
  destruct (feed_long_frames frames Worklet.constructor 1600 F)
    as (Hn & Hall & Hb); [done|done|done|].
  split_and!; [done|done|]. by rewrite Hb.
Qed.

Lemma inline_process_simulates debug inputs
    (this : Worklet.Inline.WhisperAudioProcessor sample) :
  let s := Worklet.Inline.process debug inputs this in
  let t := Worklet.process inputs (Worklet.Inline.erase this) in
  (Host.calm (Host.Quantum inputs debug) = true →
   Worklet.Inline.alive s = true)
  ∧ (Worklet.Inline.alive s = false → Worklet.Inline.posted s = [])
  ∧ (Worklet.Inline.alive s = true →
     Worklet.Inline.posted s = Worklet.posted t
     ∧ Worklet.Inline.erase (Worklet.Inline.next s) = Worklet.next t
     ∧ Worklet.Inline.sampleCount (Worklet.Inline.next s)
       = Worklet.Inline.sampleCount this
         + Host.framesSeen [Host.Quantum inputs debug]).
Proof.
  unfold Worklet.Inline.process, Worklet.process, Worklet.Inline.erase,
    Host.framesSeen, Host.calm.
  destruct inputs as [|[|[ch|] ?] ?]; cbn;
    try (split_and!; intros; split_and?; (done || lia)).
  destruct (Worklet.Inline.debugDue _ _); cbn.
  - destruct debug; cbn; [|by split_and!].
    destruct (_ <=? _); cbn; split_and!; intros; split_and?; (done || lia).
  - destruct (_ <=? _); cbn; split_and!; intros; split_and?;
      (done || lia || by destruct debug).
Qed.

(** The copy of the processor inlined in the hook and the worklet file.
    Driven by the same render quanta and port messages from matching
    states, the copy posts a prefix of what the file posts.  As long as
    no call of the copy has thrown, the two post the same messages and
    hold the same buffer and chunk size, and the frame counter of the
    copy has counted the quanta that carried a first channel.  The copy
    throws only in its debug output, which it evaluates every
    [debugInterval]-th frame before it buffers the frame: when no debug
    output throws, no call does. *)
Theorem inline_copy_posts_the_same (events : list (Host.Event sample))
    (this : Worklet.Inline.WhisperAudioProcessor sample) :
  let s := Host.driveInline events this in
  let '(out', final') := Host.drive events (Worklet.Inline.erase this) in
  Worklet.Inline.posted s `prefix_of` out'
  ∧ (Worklet.Inline.alive s = true →
     Worklet.Inline.posted s = out'
     ∧ Worklet.Inline.erase (Worklet.Inline.next s) = final'
     ∧ Worklet.Inline.sampleCount (Worklet.Inline.next s)
       = Worklet.Inline.sampleCount this + Host.framesSeen events)
  ∧ (forallb Host.calm events = true → Worklet.Inline.alive s = true).
Proof.
  cbv zeta. revert this.
  induction events as [|[inputs debug|event] later IH]; intros this.
  - cbn. split_and!; [done| |done]. intros _. split_and!; [done|done|lia].
  - cbn [Host.driveInline Host.drive forallb].
    destruct (inline_process_simulates debug inputs this)
      as (Hcalm & Hdead & Hlive). cbv zeta in *.
    rewrite process_alive.
    specialize (IH (Worklet.Inline.next
                      (Worklet.Inline.process debug inputs this))).
    destruct (Worklet.Inline.alive (Worklet.Inline.process debug inputs this))
      eqn:Halive.
    + destruct (Hlive eq_refl) as (Hposted & Hnext & Hcount).
      rewrite <- Hnext, <- Hposted.
      destruct (Host.drive later _) as [out' final'].
      destruct IH as (Hprefix & Hsame & Hstays).
      cbn [Worklet.Inline.posted Worklet.Inline.alive Worklet.Inline.next].
      split_and!.
      * by apply prefix_app.
      * intros Hend. destruct (Hsame Hend) as (-> & -> & ->).
        split_and!; [done|done|].
        rewrite Hcount. unfold Host.framesSeen.
        change (Host.Quantum inputs debug :: later)
          with ([Host.Quantum inputs debug] ++ later).
        rewrite List.filter_app, length_app. lia.
      * intros Hall. apply andb_prop in Hall as [_ Hall]. by apply Hstays.
    + rewrite (Hdead eq_refl), Halive. clear IH.
      destruct (Host.drive later _) as [out' final']. cbv beta iota.
      split_and!; [apply prefix_nil|done|].
      intros Hall. apply andb_prop in Hall as [Hfirst _].
      by apply Hcalm.
  - cbn [Host.driveInline Host.drive forallb].
    rewrite <- inline_onmessage_erase.
    specialize (IH (Worklet.Inline.onmessage event this)).
    destruct (Host.drive later _) as [out' final'].
    destruct IH as (Hprefix & Hsame & Hstays). split_and!; [done| |done].
    intros Hend. destruct (Hsame Hend) as (-> & -> & ->).
    split_and!; [done|done|].
    assert (Hcount : Worklet.Inline.sampleCount
                       (Worklet.Inline.onmessage event this)
                     = Worklet.Inline.sampleCount this).
    { unfold Worklet.Inline.onmessage. by destruct (strictEq _ _). }
    rewrite Hcount. unfold Host.framesSeen. cbn. done.
Qed.

(** Where the debug output throws, on the fiftieth frame here, the copy
    stops before it buffers the frame, although the worklet file posts a
    chunk of it. *)
Lemma inline_copy_dies_where_the_file_posts (frame : list sample) err :
  1600 ≤ length frame →
  let this := {| Worklet.Inline.buffer := [];
                 Worklet.Inline.chunkSize := 1600;
                 Worklet.Inline.sampleCount := 49;
                 Worklet.Inline.debugInterval := 50 |} in
  let events := [Host.Quantum (Worklet.mono frame) (Throws err)] in
  let s := Host.driveInline events this in
  Worklet.Inline.alive s = false
  ∧ Worklet.Inline.posted s = []
  ∧ Worklet.Inline.buffer (Worklet.Inline.next s) = []
  ∧ length (fst (Host.drive events (Worklet.Inline.erase this))) = 1.
Proof.
  intros Hlong. cbv zeta. split_and!; [reflexivity..|].
  unfold Host.drive, Worklet.mono, Worklet.Inline.erase.
  rewrite process_mono. cbv zeta.
  cbn [Worklet.buffer Worklet.chunkSize Worklet.Inline.buffer
       Worklet.Inline.chunkSize app].
  destruct (Nat.leb_spec 1600 (length frame)); [done|lia].
Qed.
End WorkletMore.

(** The backlog of long frames, on two frames of 3200 samples. *)
Lemma feed_long_frames_backlog_witness :
  let frames := [repeat 0%nat 3200; repeat 1%nat 3200] in
  let s := Worklet.feed (map Worklet.mono frames) Worklet.constructor in
  1600 ≤ 3200 ∧ length frames = 2 ∧ Forall (λ f, length f = 3200) frames
  ∧ length (Worklet.posted s) = 2
  ∧ length (Worklet.buffer (Worklet.next s)) = 2 * (3200 - 1600).
Proof.
  cbv zeta.
  assert (H1 : 1600 ≤ 3200) by lia.
  assert (H2 : length [repeat 0%nat 3200; repeat 1%nat 3200] = 2)
    by reflexivity.
  assert (H3 : Forall (λ f, length f = 3200)
                 [repeat 0%nat 3200; repeat 1%nat 3200]).
  { repeat constructor; apply repeat_length. }
  destruct (feed_long_frames_backlog 2 3200 _ H1 H2 H3) as (Hn & _ & Hb).
  split; [exact H1|]. split; [exact H2|]. split; [exact H3|].
  split; [exact Hn|exact Hb].
Defined.

(* ================================================================= *)
(** * Further properties of the transcription client *)

Section ClientMore.
Implicit Types (w : World) (poll : Fetch ProcessData) (net : Fetch unit).

(** A poll that does not succeed (the request is rejected, the response
    is not 2xx, or its body does not parse) leaves both segment lists as
    they were, shows an error, and lowers [isProcessing]; the error is
    the generic message when the response is not 2xx and the message of
    the rejection when the request is rejected. *)
Theorem processSession_failure_keeps_segments poll w :
  sessionSet w →
  (∀ data, ¬ succeeded poll data) →
  let w' := exec (processSession poll) w in
  committedSegments (ui w') = committedSegments (ui w)
  ∧ uncommittedSegments (ui w') = uncommittedSegments (ui w)
  ∧ isProcessing (ui w') = false
  ∧ (∃ msg, error (ui w') = Some msg)
  ∧ (failed poll →
     error (ui w')
     = Some (failureMessage (str "Failed to process session") poll))
  ∧ requests (outside w')
    = requests (outside w) ++ [SessionProcess (toString (sessionId (ui w)))].
Proof.
  unfold sessionSet. intros Hset Hfail. js_unfold. rewrite Hset. simpl.
  destruct poll as [[st [data|err]]|err]; simpl.
  - destruct (ok {| status := st; json := Returns data |}) eqn:Hok; simpl.
    + exfalso. apply (Hfail data). by eexists.
    + split_and!; eauto.
  - destruct (ok {| status := st; json := Throws err |}) eqn:Hok; simpl;
      split_and!; eauto; done.
  - split_and!; eauto.
Qed.

Lemma processSession_failure_keeps_segments_witness :
  let w := recording "s1" in
  let w' := exec (processSession (serverError (pollData [str "hello"] []))) w in
  sessionSet w
  ∧ committedSegments (ui w') = committedSegments (ui w)
  ∧ error (ui w') = Some (str "Failed to process session").
Proof.
  cbv zeta.
  assert (Hset : sessionSet (recording "s1")) by reflexivity.
  assert (Hnot : ∀ data,
            ¬ succeeded (serverError (pollData [str "hello"] [])) data).
  { intros data (response & [= <-] & Hok & _). discriminate Hok. }
  destruct (processSession_failure_keeps_segments _ _ Hset Hnot)
    as (Hkept & _ & _ & _ & Hmsg & _).
  split; [exact Hset|]. split; [exact Hkept|].
  apply Hmsg. reflexivity.
Defined.

Lemma polls_unset answers w :
  falsy (sessionId (ui w)) = true →
  polls answers w = (Returns (), w).
Proof.
  intros H. induction answers as [|a later IH]; [done|].
  cbn [polls]. unfold bind, processSession, read, ret. cbn.
  rewrite H. exact IH.
Qed.

(** With no session identifier set ([null] or the empty string), polls
    and [endSession] send no request and change nothing, and a stop sends
    no request. *)
Theorem nothing_is_sent_without_session answers poll net t w :
  falsy (sessionId (ui w)) = true →
  exec (polls answers) w = w
  ∧ exec (processSession poll) w = w
  ∧ exec (endSession poll net) w = w
  ∧ requests (outside (exec (handleStopRecording t poll net) w))
    = requests (outside w).
Proof.
  intros H. split_and!.
  - unfold exec. by rewrite polls_unset.
  - pose proof (polls_unset [poll] w H) as Hp. unfold exec.
    cbn [polls] in Hp. unfold bind, ret in Hp.
    destruct (processSession poll w) as [[|] w']; by inversion Hp.
  - unfold exec. by rewrite endSession_unset.
  - destruct (handleStopRecording_run t poll net w)
      as (w0 & Heq & Hui & _ & Hout).
    unfold exec. rewrite Heq.
    assert (Hs : falsy (sessionId (ui w0)) = true).
    { apply (f_equal sessionId) in Hui.
      destruct (ui w0), (ui w); simpl in *. by subst. }
    rewrite endSession_unset by done. cbn [snd]. rewrite Hout.
    by destruct (outside w).
Qed.

Lemma nothing_is_sent_without_session_witness :
  falsy (sessionId (ui mounted)) = true
  ∧ exec (polls [pollAnswer [str "hello"] []; networkError]) mounted = mounted
  ∧ requests (outside (exec (handleStopRecording cleanTeardown networkError
                               networkError) mounted))
    = [].
Proof.
  assert (Hunset : falsy (sessionId (ui mounted)) = true) by reflexivity.
  destruct (nothing_is_sent_without_session
              [pollAnswer [str "hello"] []; networkError] networkError
              networkError cleanTeardown mounted Hunset)
    as (Hpolls & _ & _ & Hstop).
  split; [exact Hunset|]. split; [exact Hpolls|exact Hstop].
Defined.

(** On a 2xx response whose body parses, [createSession] stores and
    returns exactly the [session_id] of the body (so nothing, when the
    body has none, even over an identifier that was set), clears the
    error, and has sent one create request that carries the language
    selected; on a 2xx response whose body does not parse it shows the
    parse error and leaves the session identifier as it was. *)
Theorem createSession_on_2xx_response (response : Response CreateData) w :
  ok response = true →
  let w' := exec (createSession (Returns response)) w in
  requests (outside w')
  = requests (outside w) ++ [SessionCreate (language (ui w))]
  ∧ match json response with
    | Returns data =>
        completion (createSession (Returns response)) w
        = Returns (session_id data)
        ∧ sessionId (ui w') = session_id data
        ∧ error (ui w') = None
    | Throws err =>
        completion (createSession (Returns response)) w = Returns None
        ∧ sessionId (ui w') = sessionId (ui w)
        ∧ error (ui w') = Some (message err)
    end.
Proof.
  intros Hok. js_unfold. simpl. rewrite Hok. simpl.
  by destruct (json response).
Qed.

Lemma createSession_on_2xx_response_witness :
  let response : Response CreateData :=
    {| status := 204; json := Returns {| session_id := None |} |} in
  let w := recording "s1" in
  ok response = true
  ∧ sessionId (ui w) = Some (str "s1")
  ∧ sessionId (ui (exec (createSession (Returns response)) w)) = None.
Proof.
  cbv zeta.
  split; [reflexivity|]. split; [reflexivity|].
  exact (proj1 (proj2 (proj2
    (createSession_on_2xx_response
       {| status := 204; json := Returns {| session_id := None |} |}
       (recording "s1") eq_refl)))).
Defined.

(** A 2xx create response without a usable [session_id] (missing, [null]
    or empty) makes [handleStartRecording] stop without a word: no
    capture starts, no chunk callback is installed, and no error is
    shown. *)
Theorem start_is_silent_without_session_id (response : Response CreateData)
    data dev w :
  ok response = true →
  json response = Returns data →
  falsy (session_id data) = true →
  let w' := exec (handleStartRecording (Returns response) dev) w in
  error (ui w') = None
  ∧ audioError (capture w') = audioError (capture w)
  ∧ isRecording (capture w') = isRecording (capture w)
  ∧ onAudioChunk (capture w') = onAudioChunk (capture w)
  ∧ falsy (sessionId (ui w')) = true.
Proof.
  intros Hok Hjson Hfalsy. js_unfold. js_world w. simpl.
  destruct workletNodeRef0, intervalRef0; simpl;
    rewrite Hok; simpl; rewrite Hjson; simpl; rewrite Hfalsy; done.
Qed.

Lemma start_is_silent_without_session_id_witness :
  let response : Response CreateData :=
    {| status := 200; json := Returns {| session_id := Some [] |} |} in
  let w' := exec (handleStartRecording (Returns response) workingDevice)
              mounted in
  ok response = true
  ∧ falsy (Some ([] : JSString)) = true
  ∧ error (ui w') = None
  ∧ isRecording (capture w') = false.
Proof.
  cbv zeta.
  destruct (start_is_silent_without_session_id
              {| status := 200; json := Returns {| session_id := Some [] |} |}
              {| session_id := Some [] |} workingDevice mounted
              eq_refl eq_refl eq_refl)
    as (Herr & _ & Hrec & _).
  split; [reflexivity|]. split; [reflexivity|].
  split; [exact Herr|exact Hrec].
Defined.
End ClientMore.

Section CaptureMore.
Implicit Types (w : World) (t : Teardown) (dev : CaptureDevice).

(** [startRecording] handles its own errors and touches the capture hook
    only. *)
Lemma startRecording_run callback dev w :
  ∃ c, startRecording callback dev w
       = (Returns (), {| ui := ui w; capture := c; outside := outside w |}).
Proof.
  js_unfold. js_world w. simpl.
  destruct dev as [[|] [|] [|] [|] [|] [|] [|]]; simpl; eauto.
Qed.

(** A start that goes well: from any page, when the create response is
    2xx and carries a non-empty session identifier and every platform
    call returns, the page records in the new session with an empty
    transcript: both segment lists are empty, the save flag and the error
    are cleared, the chunk callback is bound to the new identifier, the
    stop control is on offer, and the only request sent is the create
    request. *)
Theorem start_success (response : Response CreateData) data id w :
  ok response = true →
  json response = Returns data →
  session_id data = Some id →
  truthy id = true →
  let w' := exec (handleStartRecording (Returns response) workingDevice) w in
  sessionId (ui w') = Some id
  ∧ committedSegments (ui w') = []
  ∧ uncommittedSegments (ui w') = []
  ∧ shouldSave (ui w') = false
  ∧ error (ui w') = None
  ∧ audioError (capture w') = None
  ∧ isRecording (capture w') = true
  ∧ onAudioChunk (capture w') = Some (Some id)
  ∧ audioChunksRef (capture w') = []
  ∧ control w' = StopControl
  ∧ requests (outside w')
    = requests (outside w) ++ [SessionCreate (language (ui w))]
  ∧ documents (outside w') = documents (outside w).
Proof.
  intros Hok Hjson Hid Htruthy. unfold control. js_unfold. js_world w. simpl.
  destruct workletNodeRef0, intervalRef0; simpl;
    rewrite Hok; simpl; rewrite Hjson; simpl; rewrite Hid; simpl;
    rewrite Htruthy; done.
Qed.

Lemma start_success_witness :
  let response : Response CreateData :=
    {| status := 200; json := Returns {| session_id := Some (str "s1") |} |} in
  let w' := exec (handleStartRecording (Returns response) workingDevice)
              mounted in
  ok response = true
  ∧ truthy (str "s1") = true
  ∧ sessionId (ui w') = Some (str "s1")
  ∧ isRecording (capture w') = true
  ∧ onAudioChunk (capture w') = Some (Some (str "s1")).
Proof.
  cbv zeta.
  destruct (start_success
              {| status := 200;
                 json := Returns {| session_id := Some (str "s1") |} |}
              {| session_id := Some (str "s1") |} (str "s1") mounted
              eq_refl eq_refl eq_refl eq_refl)
    as (Hsid & _ & _ & _ & _ & _ & Hrec & Hcb & _).
  split; [reflexivity|]. split; [reflexivity|].
  split; [exact Hsid|]. split; [exact Hrec|exact Hcb].
Defined.

(** [handleStartRecording] once the session is created: the page is
    reset, the create request has left, the identifier is stored, and what
    remains is [startRecording]. *)
Lemma handleStartRecording_created (response : Response CreateData)
    data id dev w :
  ok response = true →
  json response = Returns data →
  session_id data = Some id →
  truthy id = true →
  ∃ w0, handleStartRecording (Returns response) dev w
        = startRecording (Some id) dev w0
        ∧ sessionId (ui w0) = Some id
        ∧ capture w0 = with_audioChunksRef [] (capture w)
        ∧ requests (outside w0)
          = requests (outside w) ++ [SessionCreate (language (ui w))].
Proof.
  intros Hok Hjson Hid Htruthy.
  assert (Hpre : ∃ w0,
    (setError None;; setCommittedSegments [];; setUncommittedSegments [];;
     setShouldSave false;; clearChunks;; clearPolling;;
     newSessionId ← createSession (Returns response);
     if falsy newSessionId then ret () else startRecording newSessionId dev) w
    = startRecording (Some id) dev w0
    ∧ sessionId (ui w0) = Some id
    ∧ capture w0 = with_audioChunksRef [] (capture w)
    ∧ requests (outside w0)
      = requests (outside w) ++ [SessionCreate (language (ui w))]).
  { js_unfold. js_world w. simpl.
    destruct workletNodeRef0, intervalRef0; simpl;
      rewrite Hok; simpl; rewrite Hjson; simpl; rewrite Hid; simpl;
      rewrite Htruthy; simpl;
      eexists; (split; [reflexivity|done]). }
  destruct Hpre as (w0 & Heq & Hfacts). exists w0. split; [|exact Hfacts].
  unfold handleStartRecording, tryCatch. rewrite Heq.
  by destruct (startRecording_run (Some id) dev w0) as [c ->].
Qed.

(** [startRecording] on a platform where some call fails. *)
Lemma startRecording_fails callback dev w :
  deviceWorks dev = false →
  let c := capture w in
  let c' := capture (exec (startRecording callback dev) w) in
  isRecording c' = isRecording c
  ∧ (∃ msg, audioError c' = Some msg)
  ∧ (hasGetUserMedia dev = false → audioError c' = Some microphoneUnavailable)
  ∧ (hasGetUserMedia dev = true → returns (getUserMedia dev) = true →
     streamRef c' = true).
Proof.
  unfold deviceWorks. intros Hdev. js_unfold.
  destruct dev as [has gum ctx src add node conn]. cbn in Hdev |- *.
  destruct has; cbn; [|by split_and!; eauto].
  destruct gum as [[]|e1]; cbn; [|by split_and!; eauto].
  destruct ctx as [[]|e2]; cbn; [|by split_and!; eauto].
  destruct src as [[]|e3]; cbn; [|by split_and!; eauto].
  destruct add as [[]|e4]; cbn; [|by split_and!; eauto].
  destruct node as [[]|e5]; cbn; [|by split_and!; eauto].
  destruct conn as [[]|e6]; cbn; [|by split_and!; eauto].
  discriminate Hdev.
Qed.

(** A start whose capture fails: when the session is created but some
    platform call of [startRecording] fails, the session identifier stays
    set although nothing records, the failure is shown as the audio
    error, and no end request is sent for the session just created; when
    the microphone had been acquired before the failure, its stream stays
    held. *)
Theorem start_capture_failure_keeps_session (response : Response CreateData)
    data id dev w :
  ok response = true →
  json response = Returns data →
  session_id data = Some id →
  truthy id = true →
  deviceWorks dev = false →
  let w' := exec (handleStartRecording (Returns response) dev) w in
  sessionId (ui w') = Some id
  ∧ isRecording (capture w') = isRecording (capture w)
  ∧ (∃ msg, audioError (capture w') = Some msg)
  ∧ (hasGetUserMedia dev = false →
     audioError (capture w') = Some microphoneUnavailable)
  ∧ (hasGetUserMedia dev = true → returns (getUserMedia dev) = true →
     streamRef (capture w') = true)
  ∧ requests (outside w')
    = requests (outside w) ++ [SessionCreate (language (ui w))].
Proof.
  intros Hok Hjson Hid Htruthy Hdev.
  destruct (handleStartRecording_created response data id dev w
              Hok Hjson Hid Htruthy) as (w0 & Heq & Hsid & Hcap & Hreq).
  destruct (startRecording_fails (Some id) dev w0 Hdev)
    as (Hrec & Herr & Hmic & Hstream).
  cbv zeta in *. unfold exec in *. rewrite Heq.
  destruct (startRecording_run (Some id) dev w0) as [c Hc].
  rewrite Hc in *. cbn [snd ui capture outside] in *.
  rewrite Hcap in Hrec. split_and!; try done.
Qed.

Lemma start_capture_failure_keeps_session_witness :
  let response : Response CreateData :=
    {| status := 200; json := Returns {| session_id := Some (str "s1") |} |} in
  let dev :=
    {| hasGetUserMedia := true; getUserMedia := Returns ();
       newAudioContext := Returns (); createMediaStreamSource := Returns ();
       addModule := Throws (Error (str "Unable to load a worklet's module."));
       newAudioWorkletNode := Returns (); connectGraph := Returns () |} in
  let w' := exec (handleStartRecording (Returns response) dev) mounted in
  deviceWorks dev = false
  ∧ sessionId (ui w') = Some (str "s1")
  ∧ isRecording (capture w') = false
  ∧ streamRef (capture w') = true
  ∧ requests (outside w') = [SessionCreate (str "fr")].
Proof.
  cbv zeta.
  destruct (start_capture_failure_keeps_session
              {| status := 200;
                 json := Returns {| session_id := Some (str "s1") |} |}
              {| session_id := Some (str "s1") |} (str "s1")
              {| hasGetUserMedia := true; getUserMedia := Returns ();
                 newAudioContext := Returns ();
                 createMediaStreamSource := Returns ();
                 addModule :=
                   Throws (Error (str "Unable to load a worklet's module."));
                 newAudioWorkletNode := Returns ();
                 connectGraph := Returns () |}
              mounted eq_refl eq_refl eq_refl eq_refl eq_refl)
    as (Hsid & Hrec & _ & _ & Hstream & Hreq).
  split; [reflexivity|]. split; [exact Hsid|]. split; [exact Hrec|].
  split; [by apply Hstream|exact Hreq].
Defined.

(** [stopRecording] lowers the recording flag exactly when no teardown
    call on a held resource throws.  When none throws, every resource is
    released and the audio error is left alone; when one throws, the
    recording flag and the audio context are as before, and the failure
    is shown as the audio error.  Either way the component state and the
    world outside are untouched. *)
Theorem stopRecording_all_or_nothing t w :
  let c := capture w in
  let w' := exec (stopRecording t) w in
  let c' := capture w' in
  ui w' = ui w ∧ outside w' = outside w
  ∧ (teardownFails c t = false →
     isRecording c' = false ∧ workletNodeRef c' = false
     ∧ sourceNodeRef c' = false ∧ streamRef c' = false
     ∧ audioContextRef c' = false ∧ audioError c' = audioError c)
  ∧ (teardownFails c t = true →
     isRecording c' = isRecording c
     ∧ audioContextRef c' = audioContextRef c
     ∧ ∃ msg, audioError c' = Some msg).
Proof.
  unfold teardownFails. js_unfold. js_world w. simpl.
  destruct workletNodeRef0, sourceNodeRef0, streamRef0, audioContextRef0,
    t as [[|] [|] [|] [|]]; simpl;
    (split; [reflexivity|]); (split; [reflexivity|]);
    (split; intros H; [try discriminate H; by repeat split
                      |try discriminate H; split_and!; eauto]).
Qed.

(** After a stop whose teardown went well, a further [stopRecording]
    changes nothing, whatever the platform would do: no resource is held,
    so no platform call is made. *)
Theorem stopRecording_twice t w :
  exec (stopRecording t) (exec (stopRecording cleanTeardown) w)
  = exec (stopRecording cleanTeardown) w.
Proof.
  js_unfold. js_world w. simpl.
  destruct workletNodeRef0, sourceNodeRef0, streamRef0, audioContextRef0;
    done.
Qed.
End CaptureMore.

Section SavingMore.
Implicit Types (w : World) (poll : Fetch ProcessData) (net : Fetch unit).
Implicit Types (t : Teardown) (now : JSString) (store : Outcome unit).

Lemma hasInk_Exists s :
  hasInk s = true ↔ Exists (λ c, isWhiteSpace c = false) s.
Proof.
  unfold hasInk. rewrite existsb_exists, Exists_exists. split.
  - intros (c & Hin & Hc). exists c. split; [by apply list_elem_of_In|].
    by destruct (isWhiteSpace c).
  - intros (c & Hin & Hc). exists c. split; [by apply list_elem_of_In|].
    by rewrite Hc.
Qed.

Lemma hasInk_false s :
  hasInk s = false → Forall (λ c, isWhiteSpace c = true) s.
Proof.
  unfold hasInk. induction s as [|c s IH]; cbn; [by constructor|].
  intros [Hc Hs]%orb_false_elim. constructor; [|by apply IH].
  by destruct (isWhiteSpace c).
Qed.

(** [text && text.trim()] is truthy exactly when the text has a
    character that is not white space. *)
Lemma save_guard s : truthy s && truthy (trim s) = hasInk s.
Proof.
  destruct (hasInk s) eqn:Hink.
  - apply hasInk_Exists in Hink. pose proof (trim_ink s Hink) as Hne.
    destruct s; [by inversion Hink|]. cbn [truthy andb].
    by destruct (trim _).
  - apply hasInk_false in Hink. rewrite (trim_all_white s Hink).
    apply andb_false_r.
Qed.

(** [saveTranscription], case by case. *)
Lemma saveTranscription_run now store w :
  saveTranscription now store w
  = (Returns (),
     onUi (with_shouldSave false)
       (if hasInk (getTranscriptionText w)
        then match store with
             | Returns _ =>
                 onOutside (λ o,
                   with_documents (documents o ++ [recordOf now w]) o) w
             | Throws err =>
                 onUi (with_error
                         (Some (str "Erreur lors de la sauvegarde: "
                                ++ message err))) w
             end
        else w)).
Proof.
  unfold getTranscriptionText, recordOf, getTranscriptionText.
  rewrite <- save_guard.
  unfold saveTranscription, read, bind, ret, tryCatch, clientSave,
    setError, setShouldSave, write, throw.
  destruct (truthy _ && truthy _); [|done]. by destruct store.
Qed.

(** When the save effect fires and the store accepts the document, the
    store gains exactly one record, the one built from the committed
    segments, if the committed text has a character that is not white
    space, and gains nothing otherwise (the text is empty or blank); in
    both cases the save flag is lowered and the error is left alone. *)
Theorem save_effect_saves_exactly_inked_text now w :
  shouldSave (ui w) = true →
  falsy (sessionId (ui w)) = true →
  let w' := exec (saveEffect now (Returns ())) w in
  documents (outside w')
  = (if hasInk (getTranscriptionText w)
     then documents (outside w) ++ [recordOf now w]
     else documents (outside w))
  ∧ shouldSave (ui w') = false
  ∧ error (ui w') = error (ui w)
  ∧ committedSegments (ui w') = committedSegments (ui w).
Proof.
  intros Hflag Hsid. cbv zeta. unfold exec.
  rewrite saveEffect_fires, saveTranscription_run by done.
  by destruct (hasInk (getTranscriptionText w)).
Qed.

(** When the store refuses the document, the save is not retried: the
    error shown is "Erreur lors de la sauvegarde: " followed by the
    message of the failure, nothing is stored, the save flag is lowered
    all the same, and later runs of the save effect do nothing. *)
Theorem save_failure_is_not_retried now err w :
  shouldSave (ui w) = true →
  falsy (sessionId (ui w)) = true →
  hasInk (getTranscriptionText w) = true →
  let w' := exec (saveEffect now (Throws err)) w in
  documents (outside w') = documents (outside w)
  ∧ error (ui w')
    = Some (str "Erreur lors de la sauvegarde: " ++ message err)
  ∧ shouldSave (ui w') = false
  ∧ committedSegments (ui w') = committedSegments (ui w)
  ∧ (∀ now' store', exec (saveEffect now' store') w' = w').
Proof.
  intros Hflag Hsid Hink. cbv zeta. unfold exec.
  rewrite saveEffect_fires, saveTranscription_run, Hink by done.
  cbn [snd]. split_and!; done.
Qed.

(** [handleStartRecording] always resets the transcript and never
    stores a document or sends an end request. *)
Lemma handleStartRecording_resets create dev w :
  let w' := exec (handleStartRecording create dev) w in
  shouldSave (ui w') = false
  ∧ committedSegments (ui w') = []
  ∧ uncommittedSegments (ui w') = []
  ∧ documents (outside w') = documents (outside w).
Proof.
  js_unfold. js_world w. cbn.
  destruct workletNodeRef0, intervalRef0; cbn.
  all: destruct create as [[st [data|e]]|e]; cbn; [| |done].
  all: destruct (ok _); cbn; [|done..].
  all: try done.
  all: destruct (falsy (session_id data)); cbn; [done|].
  all: destruct dev as [has gum ctx src add node conn]; cbn.
  all: destruct has; cbn; [|done].
  all: destruct gum as [[]|e1]; cbn; [|done].
  all: destruct ctx as [[]|e2]; cbn; [|done].
  all: destruct src as [[]|e3]; cbn; [|done].
  all: destruct add as [[]|e4]; cbn; [|done].
  all: destruct node as [[]|e5]; cbn; [|done].
  all: by destruct conn as [[]|e6].
Qed.

End SavingMore.

(** The exact save, on a page that waits to save the text "hello". *)
Lemma save_effect_saves_exactly_inked_text_witness :
  let w := onUi (with_shouldSave true)
             (onUi (with_committedSegments [segment "hello"]) mounted) in
  let now := str "2025-01-01T00:00:00.000Z" in
  let w' := exec (saveEffect now (Returns ())) w in
  shouldSave (ui w) = true
  ∧ falsy (sessionId (ui w)) = true
  ∧ map Doc.text (documents (outside w')) = [str "hello"]
  ∧ shouldSave (ui w') = false.
Proof.
  cbv zeta.
  destruct (save_effect_saves_exactly_inked_text
              (str "2025-01-01T00:00:00.000Z")
              (onUi (with_shouldSave true)
                 (onUi (with_committedSegments [segment "hello"]) mounted))
              eq_refl eq_refl) as (Hdocs & Hflag & _).
  split; [reflexivity|]. split; [reflexivity|]. split; [|exact Hflag].
  rewrite Hdocs. reflexivity.
Defined.

(** The save that fails, on a page that waits to save the text "hello". *)
Lemma save_failure_is_not_retried_witness :
  let w := onUi (with_shouldSave true)
             (onUi (with_committedSegments [segment "hello"]) mounted) in
  let w' := exec (saveEffect (str "2025-01-01T00:00:00.000Z")
                    (Throws (Error (str "quota")))) w in
  shouldSave (ui w) = true
  ∧ falsy (sessionId (ui w)) = true
  ∧ hasInk (getTranscriptionText w) = true
  ∧ documents (outside w') = []
  ∧ error (ui w') = Some (str "Erreur lors de la sauvegarde: quota").
Proof.
  cbv zeta.
  destruct (save_failure_is_not_retried (str "2025-01-01T00:00:00.000Z")
              (Error (str "quota"))
              (onUi (with_shouldSave true)
                 (onUi (with_committedSegments [segment "hello"]) mounted))
              eq_refl eq_refl eq_refl) as (Hdocs & Herr & _).
  split; [reflexivity|]. split; [reflexivity|]. split; [reflexivity|].
  split; [exact Hdocs|exact Herr].
Defined.

Section PortProtocol.
Implicit Types (w : World).

(** The hook and the worklet agree on the clear command.  [clearChunks]
    empties the list of kept chunks; when a worklet node is held it posts
    exactly one command, and that command makes the worklet file and the
    inlined copy alike drop whatever they hold; when no node is held it
    posts nothing. *)
Theorem clearChunks_command_clears_the_worklet {sample : Type} w
    (this : Worklet.WhisperAudioProcessor sample)
    (inline : Worklet.Inline.WhisperAudioProcessor sample) :
  let w' := exec clearChunks w in
  audioChunksRef (capture w') = []
  ∧ ui w' = ui w
  ∧ (workletNodeRef (capture w) = false →
     workletPort (outside w') = workletPort (outside w))
  ∧ (workletNodeRef (capture w) = true →
     ∃ cmd, workletPort (outside w') = workletPort (outside w) ++ [cmd]
            ∧ Worklet.buffer (Worklet.onmessage cmd this) = []
            ∧ Worklet.chunkSize (Worklet.onmessage cmd this)
              = Worklet.chunkSize this
            ∧ Worklet.Inline.buffer (Worklet.Inline.onmessage cmd inline) = []).
Proof.
  js_unfold. js_world w. cbn.
  destruct workletNodeRef0; cbn; split_and!; try done.
  intros _. by eexists.
Qed.


(** A message on the port that is not tagged 'audio' is ignored. *)
Lemma other_messages_are_ignored float32ToBase64
    (m : Worklet.AudioMessage float) net w :
  Worklet.type m ≠ str "audio" →
  onWorkletMessage float32ToBase64 m net w = (Returns (), w).
Proof.
  intros Hty. unfold onWorkletMessage, strictEq.
  by rewrite bool_decide_eq_false_2.
Qed.
End PortProtocol.


(* ================================================================= *)
(** * Invariants of the page *)

Section Handlers.
Implicit Types (w : World) (t : Teardown) (dev : CaptureDevice).

(** What [handleStartRecording] does to the timers, the requests, the
    session identifier, the chunk callback and the recording flag. *)
Lemma handleStartRecording_summary create dev w :
  let w' := exec (handleStartRecording create dev) w in
  language (ui w') = language (ui w)
  ∧ intervalRef (ui w') = None
  ∧ activeIntervals (outside w')
    = activeIntervals (outside (exec clearPolling w))
  ∧ requests (outside w')
    = requests (outside w) ++ [SessionCreate (language (ui w))]
  ∧ (sessionId (ui w') = sessionId (ui w) ∨ sessionId (ui w') = None
     ∨ ∃ id, sessionId (ui w') = Some id
             ∧ id ∈ announced (PressStart create dev))
  ∧ (onAudioChunk (capture w') = onAudioChunk (capture w)
     ∨ ∃ id, onAudioChunk (capture w') = Some (Some id)
             ∧ id ∈ announced (PressStart create dev))
  ∧ (isRecording (capture w') = isRecording (capture w)
     ∨ (isRecording (capture w') = true ∧ sessionSet w')).
Proof.
  unfold sessionSet. js_unfold. js_world w. cbn.
  destruct workletNodeRef0, intervalRef0; cbn.
  all: destruct create as [[st [data|e]]|e]; cbn;
    [| |by split_and!; eauto].
  all: destruct (ok _); cbn; [|by split_and!; eauto..].
  all: try (by split_and!; eauto).
  all: destruct (session_id data) as [id|] eqn:Hid; cbn;
    [|by split_and!; eauto].
  all: destruct (truthy id) eqn:Htruthy; cbn;
    [|split_and!; eauto; right; right; exists id; split;
      [done|apply list_elem_of_here]].
  all: assert (Hin : ∃ id0, Some id = Some id0 ∧ id0 ∈ [id])
         by (exists id; split; [done|apply list_elem_of_here]).
  all: assert (Hcb : ∃ id0, Some (Some id) = Some (Some id0) ∧ id0 ∈ [id])
         by (exists id; split; [done|apply list_elem_of_here]).
  all: destruct dev as [has gum ctx src add node conn]; cbn.
  all: destruct has; cbn; [|by split_and!; eauto].
  all: destruct gum as [[]|e1]; cbn; [|by split_and!; eauto].
  all: destruct ctx as [[]|e2]; cbn; [|by split_and!; eauto].
  all: destruct src as [[]|e3]; cbn; [|by split_and!; eauto].
  all: destruct add as [[]|e4]; cbn; [|by split_and!; eauto].
  all: destruct node as [[]|e5]; cbn; [|by split_and!; eauto].
  all: destruct conn as [[]|e6]; cbn; [|by split_and!; eauto].
  all: rewrite Htruthy; by split_and!; eauto.
Qed.

(** [handleStopRecording], step by step. *)
Lemma handleStopRecording_steps t poll net w :
  ∃ c, handleStopRecording t poll net w
       = endSession poll net
           {| ui := with_shouldSave true (ui (exec clearPolling w));
              capture := c;
              outside := outside (exec clearPolling w) |}
       ∧ onAudioChunk c = onAudioChunk (capture w).
Proof.
  destruct (stopRecording_run t (exec clearPolling w)) as [c Hc].
  exists c. split.
  - unfold handleStopRecording, tryCatch, bind at 1.
    rewrite clearPolling_run. unfold bind at 1. rewrite Hc.
    unfold setShouldSave, write, bind, onUi. cbn [ui capture outside].
    assert (He : ∀ w0, ∃ w1, endSession poll net w0 = (Returns (), w1)).
    { intros w0. destruct (falsy (sessionId (ui w0))) eqn:Hs.
      - rewrite endSession_unset by done. eauto.
      - rewrite endSession_run by done. destruct net; cbn; eauto. }
    edestruct He as [w1 Hw1]. by rewrite Hw1.
  - destruct (clearPolling_frame w) as (_ & Hcap & _). cbv zeta in Hcap.
    rewrite <- Hcap.
    pose proof (f_equal (λ x, onAudioChunk (capture (snd x))) Hc) as H.
    cbn in H. rewrite <- H. generalize (exec clearPolling w). clear.
    intros w1. unfold stopRecording, tryCatch, bind, read, write, call, ret,
      setIsRecording, setAudioError.
    destruct w1 as [u [] o]. cbn.
    destruct workletNodeRef0, sourceNodeRef0, streamRef0, audioContextRef0,
      t as [[|] [|] [|] [|]]; reflexivity.
Qed.

(** What [handleStopRecording] does to the same. *)
Lemma handleStopRecording_summary t poll net w :
  let w' := exec (handleStopRecording t poll net) w in
  language (ui w') = language (ui w)
  ∧ intervalRef (ui w') = None
  ∧ activeIntervals (outside w')
    = activeIntervals (outside (exec clearPolling w))
  ∧ shouldSave (ui w') = true
  ∧ documents (outside w') = documents (outside w)
  ∧ onAudioChunk (capture w') = onAudioChunk (capture w)
  ∧ (sessionId (ui w') = sessionId (ui w) ∨ sessionId (ui w') = None)
  ∧ (requests (outside w') = requests (outside w)
     ∨ (sessionSet w
        ∧ requests (outside w')
          = requests (outside w)
            ++ [ SessionProcess (toString (sessionId (ui w)));
                 SessionEnd (toString (sessionId (ui w))) ])).
Proof.
  destruct (handleStopRecording_steps t poll net w) as (c & Heq & Hcb).
  unfold exec at 1. rewrite Heq. clear Heq.
  destruct (clearPolling_frame w) as (Hui & _ & Hout). cbv zeta in Hui, Hout.
  assert (Href : intervalRef (ui (exec clearPolling w)) = None).
  { unfold exec, clearPolling, read, write, bind, ret.
    by destruct (intervalRef (ui w)) eqn:E. }
  set (w1 := exec clearPolling w) in *.
  set (w3 := {| ui := with_shouldSave true (ui w1); capture := c;
                outside := outside w1 |}).
  assert (H3 : language (ui w3) = language (ui w)
               ∧ intervalRef (ui w3) = None
               ∧ sessionId (ui w3) = sessionId (ui w)
               ∧ shouldSave (ui w3) = true
               ∧ onAudioChunk (capture w3) = onAudioChunk (capture w)
               ∧ activeIntervals (outside w3) = activeIntervals (outside w1)
               ∧ documents (outside w3) = documents (outside w)
               ∧ requests (outside w3) = requests (outside w)).
  { subst w3. cbn.
    apply (f_equal (λ u, (language u, sessionId u))) in Hui.
    apply (f_equal (λ o, (documents o, requests o))) in Hout.
    destruct (ui w1), (outside w1), (ui w), (outside w); cbn in *.
    injection Hui as -> ->. injection Hout as -> ->. by split_and!. }
  clearbody w3. clearbody w1. clear Hui Hout Href Hcb c.
  destruct H3 as (Hl3 & Hr3 & Hs3 & Hf3 & Hc3 & Ha3 & Hd3 & Hq3).
  cbv zeta. destruct (falsy (sessionId (ui w3))) eqn:Hfalsy.
  - rewrite endSession_unset by done. cbn [snd].
    split_and!; eauto.
  - assert (Hset3 : sessionSet w3) by done.
    assert (Hset : sessionSet w).
    { unfold sessionSet. by rewrite <- Hs3. }
    pose proof (endSession_requests poll net w3 Hset3) as Hreq.
    unfold exec in Hreq. rewrite Hq3, Hs3 in Hreq.
    rewrite endSession_run in * by done.
    destruct (processSession_frame poll w3)
      as (Hs & Hf & Hl & Hr & Hc & Hd & _ & Ha). cbv zeta in *.
    destruct net; cbn [snd] in *; cbn in *;
      rewrite ?Hs, ?Hf, ?Hl, ?Hr, ?Hc, ?Hd, ?Ha; split_and!; eauto.
Qed.
End Handlers.

(** Naming the fields of a world. *)
Ltac world_fields w :=
  destruct w as [[sid committed uncommitted processing err lang flag ref]
                 [rec aerr ctx src node stream chunks cb]
                 [reqs docs port timers]].

Section Frames.
Implicit Types (w : World).

Lemma sameCore_refl w : sameCore w w.
Proof. by repeat split. Qed.

(** The first half of a poll: a request, and [isProcessing]. *)
Lemma processSessionCall_core w :
  let w' := exec processSessionCall w in
  sameCore w w'
  ∧ language (ui w') = language (ui w)
  ∧ committedSegments (ui w') = committedSegments (ui w)
  ∧ (requests (outside w') = requests (outside w)
     ∨ (sessionSet w
        ∧ requests (outside w')
          = requests (outside w)
            ++ [SessionProcess (toString (sessionId (ui w)))])).
Proof.
  unfold sameCore, sessionSet. js_unfold.
  destruct (falsy (sessionId (ui w))) eqn:Hs; cbn; by split_and!; eauto.
Qed.

(** The second half of a poll: the segments, the error and
    [isProcessing]. *)
Lemma processSessionResume_core poll w :
  let w' := exec (processSessionResume poll) w in
  sameCore w w'
  ∧ language (ui w') = language (ui w)
  ∧ capture w' = capture w
  ∧ outside w' = outside w.
Proof.
  unfold sameCore. js_unfold.
  destruct poll as [[st [data|e]]|e]; cbn; [| |by split_and!].
  - destruct (ok _); cbn; [|by split_and!].
    destruct (committed data) as [[|s segs]|];
      destruct (uncommitted data); cbn; by split_and!.
  - destruct (ok _); cbn; by split_and!.
Qed.

(** An answer that does not make [processSession] call
    [setCommittedSegments] leaves the committed segments alone; one that
    does carries them. *)
Lemma processSessionResume_committed poll w :
  committedSegments (ui (exec (processSessionResume poll) w))
  = if setsCommitted poll
    then match poll with
         | Returns {| json := Returns {| committed := Some segments |} |} =>
             segments
         | _ => committedSegments (ui w)
         end
    else committedSegments (ui w).
Proof.
  unfold setsCommitted. js_unfold.
  destruct poll as [[st [data|e]]|e]; cbn; [| |done].
  - destruct (ok _); cbn; [|done].
    destruct data as [[[|s segs]|] [un|]]; cbn; done.
  - by destruct (ok _).
Qed.

Lemma onWorkletMessage_core float32ToBase64 m net callback w :
  onAudioChunk (capture w) = Some callback →
  let w' := exec (onWorkletMessage float32ToBase64 m net) w in
  sameCore w w'
  ∧ language (ui w') = language (ui w)
  ∧ (requests (outside w') = requests (outside w)
     ∨ ∃ audio, requests (outside w')
                = requests (outside w)
                  ++ [SessionAddChunk (toString callback) audio]).
Proof.
  intros Hcb. unfold sameCore, onWorkletMessage.
  destruct (strictEq _ _); [|cbn; by split_and!; eauto].
  js_unfold. cbn. rewrite Hcb. cbn.
  destruct net as [[st body]|e]; cbn; [|by split_and!; eauto].
  destruct (ok _); cbn; by split_and!; eauto.
Qed.

(** The first half of the save effect: it hands at most one record to
    [client.save], built from the committed segments, and changes
    nothing then; with nothing to save it may lower the save flag. *)
Lemma saveEffectCall_core now w :
  let w' := exec (saveEffectCall now) w in
  capture w' = capture w
  ∧ outside w' = outside w
  ∧ with_shouldSave false (ui w') = with_shouldSave false (ui w)
  ∧ match completion (saveEffectCall now) w with
    | Returns (Some doc) =>
        w' = w ∧ shouldSave (ui w) = true
        ∧ falsy (sessionId (ui w)) = true
        ∧ doc = recordOf now w
        ∧ hasInk (getTranscriptionText w) = true
    | Returns None =>
        w' = w
        ∨ (shouldSave (ui w) = true ∧ falsy (sessionId (ui w)) = true
           ∧ hasInk (getTranscriptionText w) = false
           ∧ w' = onUi (with_shouldSave false) w)
    | Throws _ => False
    end.
Proof.
  cbv zeta. unfold recordOf, getTranscriptionText. rewrite <- save_guard.
  js_unfold.
  destruct (shouldSave (ui w)) eqn:Hflag; cbn; [|by split_and!; eauto].
  destruct (falsy (sessionId (ui w))) eqn:Hsid; cbn; [|by split_and!; eauto].
  destruct (truthy _ && truthy _) eqn:Hink; cbn.
  - by split_and!.
  - split_and!; try done. right. by split_and!.
Qed.

(** The second half of the save effect: the record joins the documents
    unless the call is rejected, the save flag is lowered, and an error
    may be shown. *)
Lemma saveTranscriptionResume_core doc store w :
  let w' := exec (saveTranscriptionResume doc store) w in
  capture w' = capture w
  ∧ outside w' = with_documents (documents (outside w')) (outside w)
  ∧ with_error None (with_shouldSave false (ui w'))
    = with_error None (with_shouldSave false (ui w))
  ∧ shouldSave (ui w') = false
  ∧ documents (outside w')
    = documents (outside w)
      ++ match store with Returns _ => [doc] | Throws _ => [] end.
Proof.
  js_unfold. destruct store; cbn; rewrite ?app_nil_r;
    split_and!; try done; by destruct (outside w).
Qed.

Lemma clearPolling_tidy w :
  activeIntervals (outside w)
  = match intervalRef (ui w) with Some id => [id] | None => [] end →
  activeIntervals (outside (exec clearPolling w)) = [].
Proof.
  js_unfold. destruct (intervalRef (ui w)) as [id|]; cbn; [|done].
  intros ->. rewrite filter_cons_False by (by intros ?). done.
Qed.
End Frames.

Section Steps.
Implicit Types (w : World) (p : Page) (e : Event) (c : Commit).
Variable float32ToBase64 : list float → JSString.

(** What a handler does to the world. *)
Lemma handle_world e p :
  let w := world p in
  world (handle float32ToBase64 e p)
  = match e with
    | PressStart create dev =>
        if isRecording (capture w) then w
        else exec (handleStartRecording create dev) w
    | PressStop t poll net =>
        if isRecording (capture w)
        then exec (handleStopRecording t poll net) w else w
    | Tick =>
        match activeIntervals (outside w) with
        | [] => w
        | _ :: _ => exec processSessionCall w
        end
    | PollAnswer poll =>
        match pendingPolls p with
        | 0 => w
        | S _ => exec (processSessionResume poll) w
        end
    | ChunkMessage m net =>
        match onAudioChunk (capture w) with
        | None => w
        | Some _ => exec (onWorkletMessage float32ToBase64 m net) w
        end
    | SelectLanguage option =>
        if isRecording (capture w) then w
        else exec (setLanguage (value option)) w
    | PressCopy clip =>
        match committedSegments (ui w), copied p,
              truthy (getTranscriptionText w), clip with
        | _ :: _, false, true, Throws _ =>
            exec (setError (Some (str "Impossible de copier le texte"))) w
        | _, _, _, _ => w
        end
    | CopiedTimeout | PressDownload _ => w
    | SaveSettled i store =>
        match saving p !! i with
        | None => w
        | Some doc => exec (saveTranscriptionResume doc store) w
        end
    end.
Proof.
  cbv zeta. destruct e as [create dev|t poll net| |poll|m net|option|clip|
                           |now|i store]; cbn [handle].
  - by destruct (isRecording _).
  - destruct (isRecording _); [|done]. by destruct (_ && _).
  - destruct (activeIntervals _); [done|].
    by destruct (completion processSessionCall (world p)) as [[]|].
  - destruct (pendingPolls p); [done|]. by destruct (setsCommitted poll).
  - by destruct (onAudioChunk _).
  - by destruct (isRecording _).
  - destruct (committedSegments _); [done|]. destruct (copied p); [done|].
    unfold handleCopyTranscription.
    destruct (truthy _); cbn [negb]; [|done]. by destruct clip.
  - by destruct (copyTimeouts p).
  - destruct (committedSegments _); [done|].
    unfold handleDownloadTranscription. by destruct (negb _).
  - by destruct (saving p !! i).
Qed.

(** The events other than the two recording controls and the settling
    of a save leave alone what the invariants watch. *)
Lemma handle_minor e p :
  match e with
  | PressStart _ _ | PressStop _ _ _ | SaveSettled _ _ => False
  | _ => True
  end →
  sameCore (world p) (world (handle float32ToBase64 e p)).
Proof.
  rewrite handle_world. cbv zeta.
  destruct e as [create dev|t poll net| |poll|m net|option|clip|
                 |now|i store]; intros He; try done.
  - destruct (activeIntervals _); [apply sameCore_refl|].
    apply processSessionCall_core.
  - destruct (pendingPolls p); [apply sameCore_refl|].
    apply processSessionResume_core.
  - destruct (onAudioChunk _) eqn:Hcb; [|apply sameCore_refl].
    by apply (onWorkletMessage_core _ _ _ _ _ Hcb).
  - destruct (isRecording _); [apply sameCore_refl|]. by repeat split.
  - destruct (committedSegments (ui (world p))), (copied p),
      (truthy (getTranscriptionText (world p))), clip;
      try apply sameCore_refl. by repeat split.
Qed.

(** The settling of a save touches the documents, the save flag and the
    error. *)
Lemma handle_settled i store p :
  let w := world p in
  let w' := world (handle float32ToBase64 (SaveSettled i store) p) in
  capture w' = capture w
  ∧ intervalRef (ui w') = intervalRef (ui w)
  ∧ sessionId (ui w') = sessionId (ui w)
  ∧ language (ui w') = language (ui w)
  ∧ committedSegments (ui w') = committedSegments (ui w)
  ∧ requests (outside w') = requests (outside w)
  ∧ activeIntervals (outside w') = activeIntervals (outside w)
  ∧ match saving p !! i with
    | Some doc =>
        shouldSave (ui w') = false
        ∧ documents (outside w')
          = documents (outside w)
            ++ match store with Returns _ => [doc] | Throws _ => [] end
    | None => w' = w
    end.
Proof.
  rewrite handle_world. cbv zeta.
  destruct (saving p !! i) as [doc|]; [|done].
  destruct (saveTranscriptionResume_core doc store (world p))
    as (Hcap & Hout & Hui & Hflag & Hdocs). cbv zeta in *.
  apply (f_equal (λ u, (intervalRef u, sessionId u, language u,
                        committedSegments u))) in Hui.
  apply (f_equal (λ o, (requests o, activeIntervals o))) in Hout.
  destruct (ui (exec _ _)), (ui (world p)), (outside (exec _ _)),
    (outside (world p)); cbn in *.
  by simplify_eq.
Qed.

Lemma handle_pollingDeps e p :
  pollingDeps (handle float32ToBase64 e p) = pollingDeps p.
Proof.
  destruct e; cbn [handle];
    repeat match goal with
           | |- context [match ?x with _ => _ end] => destruct x
           end; try done.
  all: unfold handleCopyTranscription, handleDownloadTranscription.
  all: repeat match goal with
              | |- context [match ?x with _ => _ end] => destruct x
              end; done.
Qed.

(** The polling effect, cleaned up and run again, touches the timers
    only. *)
Lemma pollingEffect_frame (id : positive) w :
  let w' := exec (pollingCleanup;; pollingEffect id) w in
  capture w' = capture w
  ∧ with_intervalRef None (ui w') = with_intervalRef None (ui w)
  ∧ with_activeIntervals [] (outside w')
    = with_activeIntervals [] (outside w).
Proof.
  unfold pollingCleanup. js_unfold. world_fields w. cbn.
  destruct ref; cbn; destruct rec; cbn; by destruct (falsy sid).
Qed.

(** The polling effect, cleaned up and run again on tidy timers. *)
Lemma pollingEffect_again (id : positive) w :
  activeIntervals (outside w)
  = match intervalRef (ui w) with Some id => [id] | None => [] end →
  onePollingTimer (exec (pollingCleanup;; pollingEffect id) w).
Proof.
  unfold onePollingTimer, sessionSet, pollingCleanup. js_unfold.
  world_fields w. cbn. intros ->.
  destruct ref as [old|]; cbn;
    rewrite ?filter_cons_False by (by intros ?); cbn;
    destruct rec; cbn;
    destruct (falsy sid) eqn:Hs; cbn; rewrite ?Hs;
    split_and!; try done; (case_decide as Hd; [by destruct Hd|done]).
Qed.

(** What a render does to the world: the polling effect may change the
    timers, and the save effect may lower the save flag. *)
Lemma commit_world c p :
  let w := world p in
  let w' := world (commit c p) in
  capture w' = capture w
  ∧ with_intervalRef None (with_shouldSave false (ui w'))
    = with_intervalRef None (with_shouldSave false (ui w))
  ∧ with_activeIntervals [] (outside w')
    = with_activeIntervals [] (outside w)
  ∧ (shouldSave (ui w') = shouldSave (ui w) ∨ shouldSave (ui w') = false).
Proof.
  cbv zeta. unfold commit. cbn [world].
  set (w := world p).
  set (w1 := if bool_decide _ then w else _).
  assert (H1 : capture w1 = capture w
               ∧ with_intervalRef None (ui w1) = with_intervalRef None (ui w)
               ∧ with_activeIntervals [] (outside w1)
                 = with_activeIntervals [] (outside w)).
  { subst w1. case_bool_decide; [done|]. apply pollingEffect_frame. }
  destruct H1 as (Hc1 & Hu1 & Ho1). clearbody w1.
  assert (Hf1 : shouldSave (ui w1) = shouldSave (ui w)).
  { apply (f_equal shouldSave) in Hu1. by destruct (ui w1), (ui w). }
  assert (Hu1' : with_intervalRef None (with_shouldSave false (ui w1))
                 = with_intervalRef None (with_shouldSave false (ui w))).
  { apply (f_equal (with_shouldSave false)) in Hu1.
    by destruct (ui w1), (ui w). }
  destruct (negb _); [|by split_and!; [..|left]].
  destruct (saveEffectCall_core (today c) w1) as (Hcap & Hout & Hui & Hflag).
  cbv zeta in *. rewrite Hcap, Hout. split_and!; try done.
  - rewrite <- Hu1'. apply (f_equal (with_intervalRef None)) in Hui.
    by destruct (ui (exec _ _)), (ui w1).
  - rewrite <- Hf1.
    destruct (completion _ _) as [[doc|]|]; [| |done].
    + destruct Hflag as (-> & _). by left.
    + destruct Hflag as [->|(_ & _ & _ & ->)]; [by left|by right].
Qed.
End Steps.

Section Timers.
Implicit Types (w : World) (p : Page) (e : Event) (c : Commit).
Variable float32ToBase64 : list float → JSString.

(** After a handler and before the render: the timers are tidy, and an
    interval that runs was started for the present recording flag and
    session identifier. *)
Lemma handle_keeps_timers_tidy e p :
  onePollingTimer (world p) → settled p →
  let w' := world (handle float32ToBase64 e p) in
  activeIntervals (outside w')
  = match intervalRef (ui w') with Some id => [id] | None => [] end
  ∧ (intervalRef (ui w') ≠ None →
     pollingDeps p = (isRecording (capture w'), sessionId (ui w'))
     ∧ isRecording (capture w') = true ∧ sessionSet w').
Proof.
  intros [Htidy Hrun] Hsettled. cbv zeta.
  destruct e as [create dev|t poll net| |poll|m net|option|clip|
                 |now|i store].
  3-9: (match goal with
        | |- context [handle _ ?e _] =>
            destruct (handle_minor float32ToBase64 e p I)
              as (Hr & Ha & Hrec & Hsid & _)
        end;
        unfold sessionSet in *; rewrite Hr, Ha, Hrec, Hsid;
        split; [done|]; intros Hsome; split; [done|by apply Hrun]).
  - rewrite handle_world. cbv zeta.
    destruct (isRecording (capture (world p))) eqn:Hrec.
    + split; [done|]. intros Hsome. destruct (Hrun Hsome) as [_ Hset].
      split; [by rewrite Hsettled|done].
    + destruct (handleStartRecording_summary create dev (world p))
        as (_ & Href & Hact & _). cbv zeta in *.
      rewrite Href, Hact, clearPolling_tidy by done. done.
  - rewrite handle_world. cbv zeta.
    destruct (isRecording (capture (world p))) eqn:Hrec.
    + destruct (handleStopRecording_summary t poll net (world p))
        as (_ & Href & Hact & _). cbv zeta in *.
      rewrite Href, Hact, clearPolling_tidy by done. done.
    + split; [done|]. intros Hsome. destruct (Hrun Hsome) as [Hyes _].
      congruence.
  - destruct (handle_settled float32ToBase64 i store p)
      as (Hcap & Href & Hsid & _ & _ & _ & Ha & _). cbv zeta in *.
    unfold sessionSet in *. rewrite Hcap, Href, Hsid, Ha.
    split; [done|]. intros Hsome. split; [done|by apply Hrun].
Qed.

Lemma commit_restores_timers c p :
  let w := world p in
  activeIntervals (outside w)
  = match intervalRef (ui w) with Some id => [id] | None => [] end →
  (intervalRef (ui w) ≠ None →
   pollingDeps p = (isRecording (capture w), sessionId (ui w))
   ∧ isRecording (capture w) = true ∧ sessionSet w) →
  onePollingTimer (world (commit c p)) ∧ settled (commit c p).
Proof.
  cbv zeta. intros Htidy Hrun. unfold commit, settled. cbn [world pollingDeps].
  set (w := world p) in *.
  set (w1 := if bool_decide _ then w else _).
  assert (H1 : onePollingTimer w1 ∧ capture w1 = capture w
               ∧ sessionId (ui w1) = sessionId (ui w)).
  { subst w1. case_bool_decide as Hdeps.
    - split; [|done]. split; [done|]. intros Hsome.
      by destruct (Hrun Hsome) as (_ & ? & ?).
    - split; [by apply pollingEffect_again|].
      destruct (pollingEffect_frame (fresh c) w) as (Hc & Hu & _).
      split; [done|]. apply (f_equal sessionId) in Hu.
      by destruct (ui (exec _ _)), (ui w). }
  destruct H1 as ([Ht1 Hr1] & Hc1 & Hs1). clearbody w1.
  set (w2 := if negb _ then _ else w1).
  assert (H2 : capture w2 = capture w1 ∧ outside w2 = outside w1
               ∧ intervalRef (ui w2) = intervalRef (ui w1)
               ∧ sessionId (ui w2) = sessionId (ui w1)).
  { subst w2. destruct (negb _); [|done].
    destruct (saveEffectCall_core (today c) w1) as (Hcap & Hout & Hui & _).
    cbv zeta in *. split_and!; [done|done|..].
    - apply (f_equal intervalRef) in Hui.
      by destruct (ui (exec _ _)), (ui w1).
    - apply (f_equal sessionId) in Hui.
      by destruct (ui (exec _ _)), (ui w1). }
  destruct H2 as (Hc2 & Ho2 & Hr2 & Hs2). clearbody w2.
  unfold onePollingTimer, sessionSet in *.
  rewrite Hc2, Ho2, Hr2, Hs2, Hc1, Hs1.
  split; [|done]. split; [done|].
  intros Hsome. rewrite <- Hc1, <- Hs1. by apply Hr1.
Qed.

(** At most one polling timer.  Whatever happens to the page from the
    time it is mounted, after every render the intervals that run are
    exactly the one that [intervalRef] names, if it names one, and one
    runs only while the page records with a session identifier set. *)
Theorem one_polling_timer_at_most (history : list (Event * Commit)) :
  onePollingTimer (world (run float32ToBase64 history mountedPage)).
Proof.
  assert (Hgen : ∀ p, onePollingTimer (world p) → settled p →
            onePollingTimer (world (run float32ToBase64 history p))).
  { induction history as [|[e c] later IH]; intros p Hinv Hsettled; [done|].
    cbn [run].
    destruct (handle_keeps_timers_tidy e p Hinv Hsettled) as [Htidy Hrun].
    cbv zeta in *.
    destruct (commit_restores_timers c (handle float32ToBase64 e p))
      as [Hinv' Hsettled']; [done| |by apply IH].
    intros Hsome. destruct (Hrun Hsome) as (Hdeps & ? & ?).
    by rewrite handle_pollingDeps. }
  apply Hgen; [|done]. split; [done|]. by intros [].
Qed.
End Timers.

Section Sessions.
Implicit Types (w : World) (p : Page) (e : Event) (c : Commit).
Variable float32ToBase64 : list float → JSString.

Lemma sessionsWithin_mono ids ids' w :
  ids ⊆ ids' → sessionsWithin ids w → sessionsWithin ids' w.
Proof.
  intros Hsub (Hsid & Hcb & Hreq). split_and!.
  - intros Hset. by apply Hsub, Hsid.
  - intros cb Hsome. by apply Hsub, Hcb.
  - eapply Forall_impl; [exact Hreq|]. intros r Hr s Hs.
    by apply Hsub, Hr.
Qed.

(** A render leaves alone the capture hook, the session identifier, the
    language, the committed segments, the requests and the documents. *)
Lemma commit_frame c p :
  let w := world p in
  let w' := world (commit c p) in
  capture w' = capture w
  ∧ sessionId (ui w') = sessionId (ui w)
  ∧ language (ui w') = language (ui w)
  ∧ committedSegments (ui w') = committedSegments (ui w)
  ∧ requests (outside w') = requests (outside w)
  ∧ documents (outside w') = documents (outside w).
Proof.
  destruct (commit_world c p) as (Hcap & Hui & Hout & _).
  cbv zeta in *.
  apply (f_equal (λ u, (sessionId u, language u, committedSegments u))) in Hui.
  apply (f_equal (λ o, (requests o, documents o))) in Hout.
  destruct (ui (world (commit c p))), (ui (world p)),
    (outside (world (commit c p))), (outside (world p)); cbn in *.
  by simplify_eq.
Qed.

Lemma handle_sessions e p ids :
  sessionsWithin ids (world p) →
  sessionsWithin (ids ++ announced e) (world (handle float32ToBase64 e p)).
Proof.
  intros Hinv.
  assert (Hmono : sessionsWithin (ids ++ announced e) (world p)).
  { eapply sessionsWithin_mono; [|exact Hinv].
    intros s Hs. apply elem_of_app. by left. }
  destruct Hinv as (Hsid & Hcb & Hreq).
  destruct e as [create dev|t poll net| |poll|m net|option|clip|
                 |now|i store]; rewrite handle_world; cbv zeta.
  - destruct (isRecording _); [done|].
    destruct (handleStartRecording_summary create dev (world p))
      as (_ & _ & _ & Hrequests & Hnew & Hnewcb & _). cbv zeta in *.
    unfold sessionsWithin, sessionSet in *. split_and!.
    + intros Hset. destruct Hnew as [Hsame|[Hnone|(id & Hid & Hin)]].
      * rewrite Hsame in *. apply elem_of_app. left. by apply Hsid.
      * by rewrite Hnone in Hset.
      * rewrite Hid. cbn. apply elem_of_app. by right.
    + intros cb Hsome. destruct Hnewcb as [Hsame|(id & Hid & Hin)].
      * rewrite Hsame in Hsome. apply elem_of_app. left. by apply Hcb.
      * rewrite Hid in Hsome. injection Hsome as <-. cbn.
        apply elem_of_app. by right.
    + rewrite Hrequests. apply Forall_app. split.
      * eapply Forall_impl; [exact Hreq|]. intros r Hr s Hs.
        apply elem_of_app. left. by apply Hr.
      * by repeat constructor.
  - destruct (isRecording _); [|done].
    destruct (handleStopRecording_summary t poll net (world p))
      as (_ & _ & _ & _ & _ & Hsamecb & Hnew & Hrequests). cbv zeta in *.
    cbn [announced]. rewrite app_nil_r.
    unfold sessionsWithin, sessionSet in *. split_and!.
    + intros Hset. destruct Hnew as [Hsame|Hnone].
      * rewrite Hsame in *. by apply Hsid.
      * by rewrite Hnone in Hset.
    + intros cb. rewrite Hsamecb. apply Hcb.
    + destruct Hrequests as [->|[Hset ->]]; [done|].
      apply Forall_app. split; [done|].
      repeat constructor; intros s [= <-]; by apply Hsid.
  - cbn [announced] in *. rewrite app_nil_r in *.
    destruct (activeIntervals _); [done|].
    destruct (processSessionCall_core (world p))
      as ((_ & _ & _ & Hsame & Hsamecb & _) & _ & _ & Hrequests).
    cbv zeta in *.
    unfold sessionsWithin, sessionSet in *. rewrite Hsame, Hsamecb.
    split_and!; [done|done|].
    destruct Hrequests as [->|[Hset ->]]; [done|].
    apply Forall_app. split; [done|].
    repeat constructor; intros s [= <-]; by apply Hsid.
  - cbn [announced] in *. rewrite app_nil_r in *.
    destruct (pendingPolls p); [done|].
    destruct (processSessionResume_core poll (world p))
      as ((_ & _ & _ & Hsame & Hsamecb & _) & _ & _ & Hout).
    cbv zeta in *.
    unfold sessionsWithin, sessionSet in *.
    by rewrite Hsame, Hsamecb, Hout.
  - cbn [announced] in *. rewrite app_nil_r in *.
    destruct (onAudioChunk _) as [cb|] eqn:Hsome; [|done].
    destruct (onWorkletMessage_core float32ToBase64 m net cb (world p) Hsome)
      as ((_ & _ & _ & Hsame & Hsamecb & _) & _ & Hrequests).
    cbv zeta in *.
    unfold sessionsWithin, sessionSet in *. rewrite Hsame, Hsamecb, Hsome.
    split_and!; [done|done|].
    destruct Hrequests as [->|[audio ->]]; [done|].
    apply Forall_app. split; [done|].
    repeat constructor; intros s [= <-]; by apply Hcb.
  - by destruct (isRecording _).
  - by destruct (committedSegments (ui (world p))), (copied p),
      (truthy (getTranscriptionText (world p))), clip.
  - done.
  - done.
  - rewrite <- (handle_world float32ToBase64 (SaveSettled i store) p).
    destruct (handle_settled float32ToBase64 i store p)
      as (Hcap & _ & Hsame & _ & _ & Hrequests & _). cbv zeta in *.
    cbn [announced] in *. rewrite app_nil_r in *.
    unfold sessionsWithin, sessionSet in *.
    by rewrite Hcap, Hsame, Hrequests.
Qed.

Lemma commit_sessions c p ids :
  sessionsWithin ids (world p) → sessionsWithin ids (world (commit c p)).
Proof.
  destruct (commit_frame c p) as (Hcap & Hsid & _ & _ & Hreq & _).
  cbv zeta in *. unfold sessionsWithin, sessionSet.
  by rewrite Hcap, Hsid, Hreq.
Qed.

(** The page never invents a session.  Whatever happens to the page from
    the time it is mounted, every add-chunk, process and end request it
    has sent names a session identifier that some create response had
    announced before; so does the identifier that the component holds,
    and so does the one bound to the chunk callback. *)
Theorem requests_name_announced_sessions (history : list (Event * Commit)) :
  sessionsWithin (issued history)
    (world (run float32ToBase64 history mountedPage)).
Proof.
  assert (Hgen : ∀ p ids, sessionsWithin ids (world p) →
            sessionsWithin (ids ++ issued history)
              (world (run float32ToBase64 history p))).
  { induction history as [|[e c] later IH]; intros p ids Hinv.
    - cbn. by rewrite app_nil_r.
    - cbn [run]. unfold issued. cbn [map concat fst].
      rewrite app_assoc. apply IH, commit_sessions, handle_sessions, Hinv. }
  apply (Hgen mountedPage []). split_and!; [done|done|by constructor].
Qed.
End Sessions.

Section Store.
Implicit Types (w : World) (p : Page) (e : Event) (c : Commit).
Variable float32ToBase64 : list float → JSString.

(** Only the settling of a save takes a document off those that wait. *)
Lemma handle_saving e p :
  saving (handle float32ToBase64 e p)
  = match e with
    | SaveSettled i _ =>
        match saving p !! i with
        | Some _ => delete i (saving p)
        | None => saving p
        end
    | _ => saving p
    end.
Proof.
  destruct e; cbn [handle];
    repeat match goal with
           | |- context [match ?x with _ => _ end] => destruct x
           end; try done.
  all: unfold handleCopyTranscription, handleDownloadTranscription.
  all: repeat match goal with
              | |- context [match ?x with _ => _ end] => destruct x
              end; done.
Qed.

(** No handler but the settling of a save writes a document; the
    language changes through the selector only; the save flag is raised
    by a stop press only. *)
Lemma handle_store e p :
  let w := world p in
  let w' := world (handle float32ToBase64 e p) in
  (language (ui w') = language (ui w)
   ∨ ∃ option, language (ui w') = value option)
  ∧ match e with
    | SaveSettled i store =>
        match saving p !! i with
        | Some doc =>
            shouldSave (ui w') = false
            ∧ documents (outside w')
              = documents (outside w)
                ++ match store with Returns _ => [doc] | Throws _ => [] end
        | None => w' = w
        end
    | _ =>
        documents (outside w') = documents (outside w)
        ∧ (shouldSave (ui w') = shouldSave (ui w)
           ∨ shouldSave (ui w') = false
           ∨ ∃ t poll net, e = PressStop t poll net)
    end.
Proof.
  cbv zeta.
  destruct e as [create dev|t poll net| |poll|m net|option|clip|
                 |now|i store].
  3-9: (match goal with
        | |- context [handle _ ?e _] =>
            destruct (handle_minor float32ToBase64 e p I)
              as (_ & _ & _ & _ & _ & Hflag & Hdocs)
        end).
  - rewrite handle_world. cbv zeta.
    destruct (isRecording _); [by split_and!; eauto|].
    destruct (handleStartRecording_summary create dev (world p))
      as (Hlang & _).
    destruct (handleStartRecording_resets create dev (world p))
      as (Hflag & _ & _ & Hdocs). cbv zeta in *. by split_and!; eauto.
  - rewrite handle_world. cbv zeta.
    destruct (isRecording _); [|by split_and!; eauto].
    destruct (handleStopRecording_summary t poll net (world p))
      as (Hlang & _ & _ & _ & Hdocs & _). cbv zeta in *.
    split_and!; eauto 7.
  - split_and!; eauto. rewrite handle_world. cbv zeta.
    destruct (activeIntervals _); [by left|].
    destruct (processSessionCall_core (world p)) as (_ & Hlang & _).
    by left.
  - split_and!; eauto. rewrite handle_world. cbv zeta.
    destruct (pendingPolls p); [by left|].
    destruct (processSessionResume_core poll (world p)) as (_ & Hlang & _).
    by left.
  - split_and!; eauto. rewrite handle_world. cbv zeta.
    destruct (onAudioChunk _) as [cb|] eqn:Hsome; [|by left].
    destruct (onWorkletMessage_core float32ToBase64 m net cb (world p) Hsome)
      as (_ & Hlang & _). by left.
  - split_and!; eauto. rewrite handle_world. cbv zeta.
    destruct (isRecording _); [by left|]. right. by exists option.
  - split_and!; eauto. rewrite handle_world. cbv zeta. left.
    by destruct (committedSegments (ui (world p))), (copied p),
      (truthy (getTranscriptionText (world p))), clip.
  - split_and!; eauto. left. by rewrite handle_world.
  - split_and!; eauto. left. by rewrite handle_world.
  - destruct (handle_settled float32ToBase64 i store p)
      as (_ & _ & _ & Hlang & _ & _ & _ & Hsettle). cbv zeta in *.
    split; [by left|done].
Qed.

(** What a render does to the save: nothing; or, with the save flag up
    and no session identifier, it lowers the flag at once over a text
    without ink, or hands one record to [client.save] and leaves the
    flag up. *)
Lemma commit_save c p :
  let w := world p in
  let w' := world (commit c p) in
  (saving (commit c p) = saving p ∧ shouldSave (ui w') = shouldSave (ui w))
  ∨ (shouldSave (ui w) = true ∧ falsy (sessionId (ui w)) = true
     ∧ ((saving (commit c p) = saving p ∧ shouldSave (ui w') = false
         ∧ hasInk (getTranscriptionText w) = false)
        ∨ (∃ doc, saving (commit c p) = saving p ++ [doc]
                  ∧ shouldSave (ui w') = true
                  ∧ hasInk (Doc.text doc) = true
                  ∧ Doc._type doc = TRANSCRIPTIONS_DOCTYPE
                  ∧ Doc.language doc = language (ui w)
                  ∧ Doc.text doc = getTranscriptionText w
                  ∧ Doc.wordCount doc = length (committedSegments (ui w))))).
Proof.
  cbv zeta. unfold commit. cbn [world saving].
  set (w := world p).
  set (w1 := if bool_decide _ then w else _).
  assert (H1 : with_intervalRef None (ui w1) = with_intervalRef None (ui w)).
  { subst w1. case_bool_decide; [done|]. apply pollingEffect_frame. }
  assert (Hu : shouldSave (ui w1) = shouldSave (ui w)
               ∧ sessionId (ui w1) = sessionId (ui w)
               ∧ language (ui w1) = language (ui w)
               ∧ committedSegments (ui w1) = committedSegments (ui w)).
  { apply (f_equal (λ u, (shouldSave u, sessionId u, language u,
                          committedSegments u))) in H1.
    destruct (ui w1), (ui w); cbn in *. by simplify_eq. }
  destruct Hu as (Hf1 & Hs1 & Hl1 & Hc1).
  assert (Htext : getTranscriptionText w1 = getTranscriptionText w).
  { unfold getTranscriptionText. by rewrite Hc1. }
  clearbody w1. rewrite <- Hf1, <- Hs1, <- Hl1, <- Hc1, <- Htext.
  destruct (negb _); [|left; by rewrite app_nil_r].
  destruct (saveEffectCall_core (today c) w1) as (_ & _ & _ & Hcall).
  cbv zeta in *.
  destruct (completion _ _) as [[doc|]|]; [| |done].
  - destruct Hcall as (-> & Hflag & Hsid & -> & Hink).
    right. split_and!; [done|done|]. right.
    exists (recordOf (today c) w1). by split_and!.
  - rewrite app_nil_r.
    destruct Hcall as [->|(Hflag & Hsid & Hink & ->)]; [by left|].
    right. split_and!; [done|done|]. left. by split_and!.
Qed.

Lemma inked_text_has_segments w :
  hasInk (getTranscriptionText w) = true →
  1 ≤ length (committedSegments (ui w)).
Proof.
  unfold getTranscriptionText.
  destruct (committedSegments (ui w)); [done|]. cbn [length]. lia.
Qed.

Lemma stopPresses_cons e c (later : list (Event * Commit)) :
  stopPresses ((e, c) :: later)
  = (match e with PressStop _ _ _ => 1 | _ => 0 end) + stopPresses later.
Proof. by destruct e. Qed.

(** The documents stored and the documents on their way to the store
    are well formed. *)
Lemma run_documents (history : list (Event * Commit)) :
  let p := run float32ToBase64 history mountedPage in
  Forall wellFormed (documents (outside (world p)))
  ∧ Forall wellFormed (saving p).
Proof.
  cbv zeta.
  set (inv := λ p,
    Forall wellFormed (documents (outside (world p)))
    ∧ Forall wellFormed (saving p)
    ∧ (language (ui (world p)) = str "fr"
       ∨ language (ui (world p)) = str "en")).
  assert (Hgen : ∀ p, inv p → inv (run float32ToBase64 history p)).
  { induction history as [|[e c] later IH]; intros p Hinv; [done|].
    cbn [run]. apply IH. clear IH. destruct Hinv as (Hdocs & Hsaving & Hlang).
    set (q := handle float32ToBase64 e p).
    assert (Hq : inv q).
    { destruct (handle_store e p) as (Hl & He). cbv zeta in *.
      pose proof (handle_saving e p) as Hs. fold q in Hl, He, Hs.
      assert (Hlangq : language (ui (world q)) = str "fr"
                       ∨ language (ui (world q)) = str "en").
      { destruct Hl as [->|[[] ->]]; [done|by left|by right]. }
      unfold inv. split_and!; [| |done].
      - destruct e as [| | | | | | | | |i store];
          try (destruct He as [-> _]; done).
        destruct (saving p !! i) as [doc|] eqn:Hi; [|by rewrite He].
        destruct He as [_ ->]. apply Forall_app. split; [done|].
        destruct store; [|done]. constructor; [|done].
        by eapply Forall_lookup_1.
      - rewrite Hs. destruct e as [| | | | | | | | |i store]; try done.
        destruct (saving p !! i); [|done]. by apply Forall_delete. }
    clearbody q. destruct Hq as (Hdocsq & Hsavingq & Hlangq).
    destruct (commit_frame c q)
      as (_ & _ & Hl' & _ & _ & Hd'). cbv zeta in *.
    unfold inv. rewrite Hl', Hd'. split_and!; [done| |done].
    destruct (commit_save c q)
      as [[-> _]|(_ & _ & [(-> & _)|(d & -> & _ & Hink & Ht & Hdl & Htx & Hwc)])];
      try done.
    apply Forall_app. split; [done|]. constructor; [|done].
    unfold wellFormed. rewrite Hwc, Hdl. split_and!; try done.
    apply inked_text_has_segments. by rewrite <- Htx. }
  destruct (Hgen mountedPage) as (? & ? & _); [|done].
  split_and!; [by constructor|by constructor|by left].
Qed.

(** Every document that the page has saved since it was mounted is a
    transcription record whose text has a character other than white
    space, whose word count is at least one and whose language is one of
    the two that the selector offers. *)
Theorem saved_documents_are_well_formed (history : list (Event * Commit)) :
  Forall wellFormed
    (documents (outside (world (run float32ToBase64 history mountedPage)))).
Proof. apply run_documents. Qed.

(** The history labels what the page saves correctly.  The card of a
    document that the page has saved is labelled [English] exactly when
    its language is [en] and [Français] exactly when it is [fr], although
    the card tests for [fr] only. *)
Theorem history_labels_saved_documents (history : list (Event * Commit))
    (h : History.State) (t : History.Saved) :
  History.doc t
    ∈ documents (outside (world (run float32ToBase64 history mountedPage))) →
  (History.languageLabel (History.card h t) = History.English
   ↔ Doc.language (History.doc t) = str "en")
  ∧ (History.languageLabel (History.card h t) = History.Francais
     ↔ Doc.language (History.doc t) = str "fr").
Proof.
  intros Hin. destruct (run_documents history) as [Hall _].
  cbv zeta in Hall. rewrite Forall_forall in Hall.
  destruct (Hall _ Hin) as (_ & _ & _ & Hlang).
  unfold History.card. cbn [History.languageLabel]. unfold strictEq.
  destruct Hlang as [->| ->].
  - rewrite bool_decide_eq_true_2 by done. by split; split.
  - rewrite bool_decide_eq_false_2 by done. by split; split.
Qed.
End Store.

Lemma history_labels_saved_documents_witness :
  let today := str "2025-01-01T00:00:00.000Z" in
  let c := {| fresh := 1%positive; today := today |} in
  let history :=
    [ (PressStart (answer {| session_id := Some (str "s1") |}) workingDevice,
       c);
      (Tick, c);
      (PollAnswer (pollAnswer [str "hello"] []), c);
      (PressStop cleanTeardown (pollAnswer [str "hello"] []) (answer ()), c);
      (SaveSettled 0 (Returns ()), c) ]
  in
  let d := {| Doc._type := TRANSCRIPTIONS_DOCTYPE; Doc.text := str "hello";
              Doc.language := str "fr"; Doc.createdAt := today;
              Doc.wordCount := 1 |} in
  let t := {| History._id := str "a1"; History.doc := d |} in
  documents (outside (world (run (λ _, []) history mountedPage))) = [d]
  ∧ History.languageLabel (History.card History.mounted t)
    = History.Francais.
Proof.
  cbv zeta.
  match goal with |- ?docs = [?d] ∧ _ =>
    assert (Hdocs : docs = [d]) by (vm_compute; reflexivity)
  end.
  split; [exact Hdocs|].
  eapply (history_labels_saved_documents (λ _, []) _ History.mounted
            {| History._id := str "a1"; History.doc := _ |}).
  - cbn [History.doc]. rewrite Hdocs. constructor.
  - reflexivity.
Defined.

Section Saves.
Implicit Types (w : World) (p : Page) (e : Event) (c : Commit).
Variable float32ToBase64 : list float → JSString.

(** When every save settles before anything else happens to the page,
    the page stores at most one document for each press on the stop
    control. *)
Theorem at_most_one_document_per_stop (history : list (Event * Commit)) :
  prompt float32ToBase64 history mountedPage = true →
  length (documents (outside (world (run float32ToBase64 history mountedPage))))
  ≤ stopPresses history.
Proof.
  set (due := λ p,
    length (documents (outside (world p)))
    + (if shouldSave (ui (world p)) then 1 else 0)).
  set (inv := λ p n,
    length (saving p) ≤ 1
    ∧ (saving p ≠ [] → shouldSave (ui (world p)) = true)
    ∧ due p ≤ n).
  assert (Hgen : ∀ p n, inv p n →
            prompt float32ToBase64 history p = true →
            inv (run float32ToBase64 history p) (n + stopPresses history)).
  { induction history as [|[e c] later IH]; intros p n Hinv Hprompt.
    - cbn. by rewrite Nat.add_0_r.
    - cbn [run prompt] in *. apply andb_prop in Hprompt as [Hnow Hlater].
      rewrite stopPresses_cons, Nat.add_assoc. apply IH; [|done]. clear IH.
      destruct Hinv as (Hone & Hup & Hdue).
      set (k := match e with PressStop _ _ _ => 1 | _ => 0 end).
      set (q := handle float32ToBase64 e p) in *.
      assert (Hq : saving q = [] ∧ due q ≤ n + k).
      { pose proof (handle_saving float32ToBase64 e p) as Hs.
        destruct (handle_store float32ToBase64 e p) as (_ & He).
        cbv zeta in *. fold q in Hs, He. unfold due in *.
        destruct (saving p) as [|d [|d' more]] eqn:Hsaving;
          [| |cbn in Hone; lia].
        - assert (Hsq : saving q = []) by (rewrite Hs; by destruct e).
          split; [done|].
          clearbody q.
          destruct e as [| t poll net| | | | | | | |i store];
            [| |..|rewrite lookup_nil in He; rewrite He; subst k; lia].
          2: { destruct He as [-> _]. subst k.
               destruct (shouldSave (ui (world p))),
                 (shouldSave (ui (world q))); lia. }
          all: destruct He as [-> [->|[->|(? & ? & ? & [=])]]];
            subst k; lia.
        - clearbody q.
          destruct e as [| | | | | | | | |[|i] store]; try done.
          cbn in Hs, He. destruct He as [Hflag Hdocs].
          rewrite Hflag, Hdocs, length_app.
          rewrite Hup in Hdue by done.
          split; [done|]. subst k. destruct store; cbn [length]; lia. }
      destruct Hq as [Hsq Hdueq]. clearbody q. clear Hnow Hone Hup Hdue.
      destruct (commit_frame c q) as (_ & _ & _ & _ & _ & Hd').
      cbv zeta in *. unfold inv, due in *. rewrite Hd'.
      destruct (commit_save c q)
        as [[-> ->]|(Hflag & _ & [(-> & -> & _)|(d & -> & -> & _)])];
        rewrite ?Hsq, ?Hflag in *; cbn; split_and!; (done || lia). }
  intros Hprompt.
  destruct (Hgen mountedPage 0) as (_ & _ & Hdue); [|done|].
  - unfold inv, due. cbn. split_and!; (done || lia).
  - unfold due in Hdue. cbn [Nat.add] in Hdue. lia.
Qed.

(** A stop whose end request is rejected, as the page takes it. *)
Lemma rejected_end_step t poll err w :
  sessionSet w →
  let w' := exec (handleStopRecording t poll (Throws err)) w in
  sessionId (ui w') = sessionId (ui w)
  ∧ shouldSave (ui w') = true
  ∧ documents (outside w') = documents (outside w).
Proof.
  intros Hset.
  destruct (handleStopRecording_run t poll (Throws err) w)
    as (w0 & Heq & Hui & Hflag & Hout).
  assert (Hsid0 : sessionId (ui w0) = sessionId (ui w)).
  { apply (f_equal sessionId) in Hui. by destruct (ui w0), (ui w). }
  assert (Hset0 : sessionSet w0).
  { unfold sessionSet in *. by rewrite Hsid0. }
  cbv zeta. unfold exec. rewrite Heq, endSession_run by done.
  destruct (processSession_frame poll w0)
    as (Hsid & Hsave & _ & _ & _ & Hdoc & _). cbv zeta in *.
  cbn. rewrite Hsid, Hsave, Hdoc. split_and!; [done|done|].
  rewrite Hout. by destruct (outside w).
Qed.

(** A transcript whose session could not be ended, on a capture that
    was torn down, is not saved.  When the stop control is pressed on a page that records in a session and
    has no save under way, the teardown of the capture does not throw,
    and the end request is rejected, then the session identifier stays
    set and the page offers the start control; whatever happens next,
    short of a press on the start control, no document is stored and no
    save is started; and the press on the start control, whatever its
    outcome, clears the committed segments and lowers the save flag,
    still without a document stored or a save started. *)
Theorem rejected_end_loses_the_transcript t poll err c p
    (later : list (Event * Commit)) :
  isRecording (capture (world p)) = true →
  sessionSet (world p) →
  teardownFails (capture (world p)) t = false →
  saving p = [] →
  forallb (λ ec, negb (isStart (fst ec))) later = true →
  let p1 := commit c (handle float32ToBase64 (PressStop t poll (Throws err)) p)
  in
  let p2 := run float32ToBase64 later p1 in
  documents (outside (world p2)) = documents (outside (world p))
  ∧ saving p2 = []
  ∧ shouldSave (ui (world p2)) = true
  ∧ sessionId (ui (world p2)) = sessionId (ui (world p))
  ∧ control (world p2) = StartControl
  ∧ (∀ create dev c',
       let p3 := commit c' (handle float32ToBase64 (PressStart create dev) p2)
       in
       committedSegments (ui (world p3)) = []
       ∧ shouldSave (ui (world p3)) = false
       ∧ documents (outside (world p3)) = documents (outside (world p))
       ∧ saving p3 = []).
Proof.
  intros Hrec Hset Hclean Hnone Hquiet. cbv zeta.
  set (inv := λ q,
    documents (outside (world q)) = documents (outside (world p))
    ∧ saving q = []
    ∧ shouldSave (ui (world q)) = true
    ∧ sessionId (ui (world q)) = sessionId (ui (world p))
    ∧ isRecording (capture (world q)) = false).
  assert (Hcommit : ∀ c0 q, inv q → inv (commit c0 q)).
  { intros c0 q (Hd & Hs & Hf & Hi & Hr).
    destruct (commit_frame c0 q) as (Hcap & Hsid & _ & _ & _ & Hdocs).
    cbv zeta in *. unfold inv. rewrite Hcap, Hsid, Hdocs.
    destruct (commit_save c0 q) as [[-> ->]|(_ & Hfalsy & _)];
      [done|].
    unfold sessionSet in Hset. rewrite Hi, Hset in Hfalsy. done. }
  assert (Hhandle : ∀ e q, isStart e = false → inv q →
                      inv (handle float32ToBase64 e q)).
  { intros e q He (Hd & Hs & Hf & Hi & Hr).
    pose proof (handle_saving float32ToBase64 e q) as Hsaving.
    unfold inv. rewrite Hsaving.
    destruct e as [create dev|t' poll' net'| |poll'|m net|option|clip|
                   |now|i store]; try done.
    2-8: (match goal with
          | |- context [handle _ ?e _] =>
              destruct (handle_minor float32ToBase64 e q I)
                as (_ & _ & -> & -> & _ & -> & ->)
          end; done).
    - rewrite handle_world. cbv zeta. rewrite Hr. done.
    - rewrite Hs. cbn [lookup]. rewrite lookup_nil.
      rewrite handle_world. cbv zeta. rewrite Hs, lookup_nil. done. }
  assert (H1 : inv (commit c (handle float32ToBase64
                                (PressStop t poll (Throws err)) p))).
  { apply Hcommit. unfold inv.
    rewrite handle_saving, handle_world. cbv zeta. rewrite Hrec.
    destruct (rejected_end_step t poll err (world p) Hset)
      as (Hsid & Hflag & Hdocs). cbv zeta in *.
    rewrite handleStopRecording_flag, Hclean. done. }
  set (p1 := commit c _) in *. clearbody p1.
  assert (H2 : inv (run float32ToBase64 later p1)).
  { revert p1 H1. induction later as [|[e c0] later IH]; intros p1 H1;
      [done|].
    cbn [run forallb fst] in *. apply andb_prop in Hquiet as [He Hquiet].
    apply IH; [done|]. apply Hcommit, Hhandle; [|done].
    by destruct (isStart e). }
  set (p2 := run float32ToBase64 later p1) in *. clearbody p2.
  destruct H2 as (Hd & Hs & Hf & Hi & Hr).
  split_and!; try done.
  - unfold control. by rewrite Hr.
  - intros create dev c'.
    destruct (commit_frame c'
                (handle float32ToBase64 (PressStart create dev) p2))
      as (_ & _ & _ & Hcs & _ & Hdocs). cbv zeta in *.
    rewrite Hcs, Hdocs.
    pose proof (handle_saving float32ToBase64 (PressStart create dev) p2)
      as Hsaving. cbn beta iota in Hsaving.
    destruct (handleStartRecording_resets create dev (world p2))
      as (Hflag & Hcleared & _ & Hsame). cbv zeta in *.
    assert (Hw : world (handle float32ToBase64 (PressStart create dev) p2)
                 = exec (handleStartRecording create dev) (world p2)).
    { rewrite handle_world. cbv zeta. by rewrite Hr. }
    destruct (commit_save c'
                (handle float32ToBase64 (PressStart create dev) p2))
      as [[Hkept Hsameflag]|(Hup & _)]; cbv zeta in *;
      rewrite Hw in *; [|congruence].
    rewrite Hkept, Hsameflag, Hsaving. split_and!; congruence.
Qed.
End Saves.

(** The hypothesis of the bound is needed.  While a save is under way
    the save flag is still up, so a change of a dependency of the save
    effect starts a second save of the same transcript: here the user
    selects the other language, and there the answer to a poll of the
    interval arrives after the stop. *)
Lemma one_stop_can_store_two_documents :
  let c := {| fresh := 1%positive; today := str "2025-01-01T00:00:00.000Z" |}
  in
  let start := PressStart (answer {| session_id := Some (str "s1") |})
                 workingDevice in
  let stop := PressStop cleanTeardown (pollAnswer [str "hello"] [])
                (answer ()) in
  let changed := [ (start, c); (stop, c); (SelectLanguage English, c);
                   (SaveSettled 0 (Returns ()), c);
                   (SaveSettled 0 (Returns ()), c) ] in
  let late := [ (start, c); (Tick, c); (stop, c);
                (PollAnswer (pollAnswer [str "hello"; str "again"] []), c);
                (SaveSettled 0 (Returns ()), c);
                (SaveSettled 0 (Returns ()), c) ] in
  let stored history :=
    map (λ d, (Doc.text d, Doc.language d))
      (documents (outside (world (run (λ _, []) history mountedPage)))) in
  stopPresses changed = 1
  ∧ stored changed = [(str "hello", str "fr"); (str "hello", str "en")]
  ∧ prompt (λ _, []) changed mountedPage = false
  ∧ stopPresses late = 1
  ∧ stored late = [(str "hello", str "fr"); (str "hello again", str "fr")]
  ∧ prompt (λ _, []) late mountedPage = false.
Proof. cbv zeta. split_and!; by vm_compute. Qed.

Lemma at_most_one_document_per_stop_witness :
  let c := {| fresh := 1%positive; today := str "2025-01-01T00:00:00.000Z" |}
  in
  let history :=
    [ (PressStart (answer {| session_id := Some (str "s1") |}) workingDevice,
       c);
      (Tick, c);
      (PollAnswer (pollAnswer [str "hello"] []), c);
      (PressStop cleanTeardown (pollAnswer [str "hello"] []) (answer ()), c);
      (SaveSettled 0 (Returns ()), c);
      (SelectLanguage English, c) ] in
  prompt (λ _, []) history mountedPage = true
  ∧ stopPresses history = 1
  ∧ length (documents (outside (world (run (λ _, []) history mountedPage))))
    ≤ 1.
Proof.
  cbv zeta.
  match goal with |- ?P = true ∧ _ =>
    assert (Hprompt : P = true) by (vm_compute; reflexivity)
  end.
  split; [exact Hprompt|]. split; [reflexivity|].
  exact (at_most_one_document_per_stop (λ _, []) _ Hprompt).
Defined.

Lemma rejected_end_loses_the_transcript_witness :
  let c := {| fresh := 1%positive; today := str "2025-01-01T00:00:00.000Z" |}
  in
  let p := run (λ _, [])
             [ (PressStart (answer {| session_id := Some (str "s1") |})
                  workingDevice, c);
               (Tick, c);
               (PollAnswer (pollAnswer [str "hello"] []), c) ]
             mountedPage in
  let later := [ (SelectLanguage English, c);
                 (PressStop cleanTeardown (pollAnswer [] []) (answer ()), c);
                 (PressDownload (str "2025-01-01T00:00:05.000Z"), c) ] in
  let p2 := run (λ _, []) later
              (commit c (handle (λ _, [])
                           (PressStop cleanTeardown
                              (pollAnswer [str "hello"] []) networkError) p))
  in
  isRecording (capture (world p)) = true
  ∧ sessionSet (world p)
  ∧ getTranscriptionText (world p2) = str "hello"
  ∧ documents (outside (world p2)) = []
  ∧ saving p2 = []
  ∧ control (world p2) = StartControl.
Proof.
  cbv zeta.
  match goal with |- isRecording (capture (world ?p)) = true ∧ _ =>
    assert (Hrec : isRecording (capture (world p)) = true)
      by (vm_compute; reflexivity);
    assert (Hset : sessionSet (world p)) by (vm_compute; reflexivity);
    assert (Hclean : teardownFails (capture (world p)) cleanTeardown = false)
      by (vm_compute; reflexivity);
    assert (Hnone : saving p = []) by (vm_compute; reflexivity);
    assert (Hdocs : documents (outside (world p)) = [])
      by (vm_compute; reflexivity)
  end.
  destruct (rejected_end_loses_the_transcript (λ _, []) cleanTeardown
              (pollAnswer [str "hello"] []) (Error (str "Failed to fetch"))
              {| fresh := 1%positive;
                 today := str "2025-01-01T00:00:00.000Z" |}
              _
              [ (SelectLanguage English,
                 {| fresh := 1%positive;
                    today := str "2025-01-01T00:00:00.000Z" |});
                (PressStop cleanTeardown (pollAnswer [] []) (answer ()),
                 {| fresh := 1%positive;
                    today := str "2025-01-01T00:00:00.000Z" |});
                (PressDownload (str "2025-01-01T00:00:05.000Z"),
                 {| fresh := 1%positive;
                    today := str "2025-01-01T00:00:00.000Z" |}) ]
              Hrec Hset Hclean Hnone eq_refl)
    as (Hkept & Hsaving & _ & _ & Hcontrol & _).
  split; [exact Hrec|]. split; [exact Hset|].
  split; [by vm_compute|]. split; [by rewrite <- Hdocs|].
  split; [exact Hsaving|exact Hcontrol].
Defined.

(* ================================================================= *)
(** * Properties of the export controls *)

Section Exports.
Implicit Types (p : Page) (e : Event) (c : Commit).
Variable float32ToBase64 : list float → JSString.

Lemma handle_exports e p :
  (copied p = true → 1 ≤ copyTimeouts p) →
  let q := handle float32ToBase64 e p in
  (∃ new, clipboard q = clipboard p ++ new ∧ Forall (λ t, t ≠ []) new)
  ∧ (∃ new, downloads q = downloads p ++ new
            ∧ Forall (λ f, snd f ≠ []
                           ∧ ∃ day, fst f = str "transcription-" ++ day
                                            ++ str ".txt"
                                    ∧ length day ≤ 10) new)
  ∧ (copied q = true → 1 ≤ copyTimeouts q).
Proof.
  intros Hinv. cbv zeta.
  assert (Hsame : ∀ q,
    clipboard q = clipboard p → downloads q = downloads p →
    copied q = copied p → copyTimeouts q = copyTimeouts p →
    (∃ new, clipboard q = clipboard p ++ new ∧ Forall (λ t, t ≠ []) new)
    ∧ (∃ new, downloads q = downloads p ++ new
              ∧ Forall (λ f, snd f ≠ []
                             ∧ ∃ day, fst f = str "transcription-" ++ day
                                              ++ str ".txt"
                                      ∧ length day ≤ 10) new)
    ∧ (copied q = true → 1 ≤ copyTimeouts q)).
  { intros q -> -> -> ->.
    split_and!; [exists []|exists []|done]; by rewrite app_nil_r. }
  destruct e as [create dev|t poll net| |poll|m net|option|clip|
                 |now|i store]; cbn [handle].
  - by destruct (isRecording _); apply Hsame.
  - destruct (isRecording _); [|by apply Hsame].
    by destruct (_ && _); apply Hsame.
  - destruct (activeIntervals _); [by apply Hsame|].
    by destruct (completion _ _) as [[]|]; apply Hsame.
  - destruct (pendingPolls p); [by apply Hsame|].
    by destruct (setsCommitted poll); apply Hsame.
  - by destruct (onAudioChunk _); apply Hsame.
  - by destruct (isRecording _); apply Hsame.
  - destruct (committedSegments _); [by apply Hsame|].
    destruct (copied p) eqn:Hc; [by apply Hsame|].
    unfold handleCopyTranscription.
    destruct (getTranscriptionText (world p)) as [|u text] eqn:Htext;
      [by apply Hsame|]. cbn [truthy negb].
    destruct clip; [|by apply Hsame]. cbn. split_and!.
    + exists [u :: text]. split; [done|]. by repeat constructor.
    + exists []. by rewrite app_nil_r.
    + lia.
  - destruct (copyTimeouts p) eqn:Hn; [by apply Hsame|]. cbn.
    split_and!; [exists []|exists []|done]; by rewrite app_nil_r.
  - destruct (committedSegments _); [by apply Hsame|].
    unfold handleDownloadTranscription.
    destruct (getTranscriptionText (world p)) as [|u text] eqn:Htext;
      [by apply Hsame|]. cbn [truthy negb]. cbn. split_and!.
    + exists []. by rewrite app_nil_r.
    + eexists. split; [done|]. constructor; [|done]. split; [done|].
      exists (take 10 now). split; [done|]. rewrite length_take. lia.
    + done.
  - by destruct (saving p !! i); apply Hsame.
Qed.

Lemma run_exports (history : list (Event * Commit)) :
  let p := run float32ToBase64 history mountedPage in
  Forall (λ t, t ≠ []) (clipboard p)
  ∧ Forall (λ f, snd f ≠ []
                 ∧ ∃ day, fst f = str "transcription-" ++ day ++ str ".txt"
                          ∧ length day ≤ 10) (downloads p)
  ∧ (copied p = true → 1 ≤ copyTimeouts p).
Proof.
  cbv zeta.
  set (inv := λ p,
    Forall (λ t : JSString, t ≠ []) (clipboard p)
    ∧ Forall (λ f : JSString * JSString, snd f ≠ []
                 ∧ ∃ day, fst f = str "transcription-" ++ day ++ str ".txt"
                          ∧ length day ≤ 10) (downloads p)
    ∧ (copied p = true → 1 ≤ copyTimeouts p)).
  assert (Hgen : ∀ p, inv p → inv (run float32ToBase64 history p)).
  { induction history as [|[e c] later IH];
      intros p (Hclip & Hdown & Hcopied); [done|].
    cbn [run]. apply IH. clear IH. unfold inv, commit.
    cbn [clipboard downloads copied copyTimeouts].
    destruct (handle_exports e p Hcopied)
      as ((new & -> & Hnew) & (files & -> & Hfiles) & Hcopied').
    split_and!; [by apply Forall_app|by apply Forall_app|done]. }
  apply (Hgen mountedPage). by split_and!; try constructor.
Qed.

(** The export controls never hand out an empty text.  Whatever happens
    to the page from the time it is mounted, every text it has written
    to the clipboard and the content of every file it has offered for
    download is a non-empty string, and every such file is named
    [transcription-], at most ten characters of the date, [.txt]. *)
Theorem exports_are_never_empty (history : list (Event * Commit)) :
  let p := run float32ToBase64 history mountedPage in
  Forall (λ t, t ≠ []) (clipboard p)
  ∧ Forall (λ f, snd f ≠ []
                 ∧ ∃ day, fst f = str "transcription-" ++ day ++ str ".txt"
                          ∧ length day ≤ 10) (downloads p).
Proof.
  destruct (run_exports history) as (Hclip & Hdown & _). by split.
Qed.

(** The feedback of the copy button never sticks: whenever [copied] is
    up, a timeout that lowers it is pending. *)
Theorem copied_has_a_reset_pending (history : list (Event * Commit)) :
  let p := run float32ToBase64 history mountedPage in
  (if copied p then 1 else 0) ≤ copyTimeouts p.
Proof.
  destruct (run_exports history) as (_ & _ & Hcopied). cbv zeta in *.
  destruct (copied _); [by apply Hcopied|lia].
Qed.
End Exports.

(* ================================================================= *)
(** * Properties of the transcription history *)

Section HistoryCards.
Implicit Types (h : History.State) (t : History.Saved) (e : History.Event).

(** A text of at most [maxLength] code units is shown whole; a longer one
    is cut to its first [maxLength] units followed by three dots, so the
    result has [maxLength + 3] units, which is more than the text has
    when the text exceeds [maxLength] by one or two units. *)
Theorem getTruncatedText_length (text : JSString) (maxLength : nat) :
  let shown := History.getTruncatedText text maxLength in
  take maxLength shown = take maxLength text
  ∧ (length text ≤ maxLength → shown = text)
  ∧ (maxLength < length text →
     length shown = maxLength + 3
     ∧ drop maxLength shown = str "..."
     ∧ (length text < maxLength + 3 → length text < length shown)).
Proof.
  cbv zeta. unfold History.getTruncatedText.
  destruct (Nat.leb_spec (length text) maxLength) as [Hle|Hlt].
  - split_and!; [done|done|lia].
  - assert (Htake : length (take maxLength text) = maxLength)
      by (rewrite length_take; lia).
    split_and!.
    + rewrite take_app_le by lia. rewrite take_ge by lia. done.
    + lia.
    + intros _. split_and!.
      * rewrite length_app, Htake. done.
      * rewrite drop_app_ge by lia. rewrite Htake, Nat.sub_diag. done.
      * rewrite length_app, Htake. cbn. lia.
Qed.

(** The button under the text is rendered exactly when the text has more
    than 100 code units.  Without the button the card shows the whole
    text, expanded or not.  With it, the card that is expanded shows the
    whole text over [Voir moins], and the card that is not expanded shows
    the first 100 code units followed by three dots over [Voir plus]. *)
Theorem card_preview h t :
  let c := History.card h t in
  let text := Doc.text (History.doc t) in
  let expanded := History.expandedId h = Some (History._id t) in
  (length text ≤ 100 →
   History.expandLabel c = None ∧ History.preview c = text)
  ∧ (100 < length text → expanded →
     History.expandLabel c = Some History.VoirMoins
     ∧ History.preview c = text)
  ∧ (100 < length text → ¬ expanded →
     History.expandLabel c = Some History.VoirPlus
     ∧ History.preview c = take 100 text ++ str "...").
Proof.
  cbv zeta. unfold History.card.
  cbn [History.expandLabel History.preview].
  unfold History.getTruncatedText.
  destruct (Nat.ltb_spec 100 (length (Doc.text (History.doc t)))) as [Hlt|Hle];
    destruct (Nat.leb_spec (length (Doc.text (History.doc t))) 100);
    try lia.
  - split_and!; [lia| |].
    + intros _ Hexp. by rewrite bool_decide_eq_true_2.
    + intros _ Hexp. by rewrite bool_decide_eq_false_2.
  - split_and!; [|lia|lia]. intros _. by case_bool_decide.
Qed.

(** At most one card is expanded.  A click on the text of a card expands
    it if it was collapsed and collapses it if it was expanded; either
    way every card of another identifier is collapsed afterwards. *)
Theorem toggle_expands_one_card h t (other : History.Saved) :
  let h' := History.handle (History.ClickText t) h in
  (History.expandedId h' = Some (History._id t)
   ↔ History.expandedId h ≠ Some (History._id t))
  ∧ (History._id other ≠ History._id t →
     History.preview (History.card h' other)
     = History.getTruncatedText (Doc.text (History.doc other)) 100).
Proof.
  cbv zeta. unfold History.handle, History.handleToggleExpand, History.card.
  cbn [History.expandedId History.preview]. split.
  - by case_bool_decide as Hexp; split.
  - intros Hother. case_bool_decide as Hexp; [|done].
    by case_bool_decide; simplify_eq.
Qed.

Lemma deleting_sticks events h id :
  forallb (λ e, negb (History.isDelete e)) events = true →
  History.deletingId h = Some id →
  History.deletingId (History.run events h) = Some id.
Proof.
  revert h. induction events as [|e later IH]; intros h Hno Hdel; [done|].
  cbn in Hno. apply andb_prop in Hno as [He Hlater].
  unfold History.run. cbn [foldl]. apply (IH _ Hlater).
  destruct e as [t'|t' clip| |t' destroy]; cbn; try done.
  - destruct (_ || _); [done|]. by destruct clip.
  - by destruct (History.resets h).
Qed.

(** A delete is never taken back.  Once the delete button of a card has
    been pressed, the card stays dimmed with its copy and delete buttons
    disabled through every later click and timeout, until the delete
    button of another card is pressed: whether [client.destroy] returned
    or was rejected makes no difference to the state, and a rejection
    makes the promise of the handler reject. *)
Theorem delete_is_never_taken_back events h t destroy :
  forallb (λ e, negb (History.isDelete e)) events = true →
  let h' := History.run events
              (History.handle (History.ClickDelete t destroy) h) in
  History.dimmed (History.card h' t) = true
  ∧ History.copyDisabled (History.card h' t) = true
  ∧ History.deleteDisabled (History.card h' t) = true
  ∧ fst (History.handleDelete destroy t h) = destroy.
Proof.
  intros Hno. cbv zeta.
  assert (Hdel : History.deletingId
                   (History.handle (History.ClickDelete t destroy) h)
                 = Some (History._id t)).
  { cbn. by case_bool_decide. }
  apply (deleting_sticks events _ _ Hno) in Hdel.
  unfold History.card, History.handleDelete.
  cbn [History.dimmed History.copyDisabled History.deleteDisabled fst].
  rewrite Hdel. rewrite bool_decide_eq_true_2 by done.
  split_and!; [done| |done|done]. by rewrite orb_true_r.
Qed.

Lemma delete_is_never_taken_back_witness :
  let t := {| History._id := str "a1";
              History.doc := recordOf (str "2025-01-01T00:00:00.000Z")
                               (recording "s1") |} in
  let events := [History.ClickText t; History.ClickCopy t (Returns ());
                 History.CopiedTimeout] in
  let h' := History.run events
              (History.handle
                 (History.ClickDelete t (Throws (Error (str "Failed to fetch"))))
                 History.mounted) in
  forallb (λ e, negb (History.isDelete e)) events = true
  ∧ History.deleteDisabled (History.card h' t) = true
  ∧ History.written h' = [].
Proof.
  cbv zeta. split; [reflexivity|].
  split; [|reflexivity].
  exact (proj1 (proj2 (proj2 (delete_is_never_taken_back
    [History.ClickText _; History.ClickCopy _ (Returns ());
     History.CopiedTimeout] History.mounted
    {| History._id := str "a1";
       History.doc := recordOf (str "2025-01-01T00:00:00.000Z")
                        (recording "s1") |}
    (Throws (Error (str "Failed to fetch"))) eq_refl)))).
Defined.

(** The feedback of the copy buttons of the history never sticks
    either: whenever [copiedId] is set, a timeout that resets it is
    pending; and nothing is written to the clipboard but the text of a
    transcription whose copy button was pressed. *)
Theorem history_copied_has_a_reset_pending events :
  let h := History.run events History.mounted in
  match History.copiedId h with Some _ => 1 | None => 0 end
    ≤ History.resets h
  ∧ Forall (λ text, ∃ t clip, History.ClickCopy t clip ∈ events
                              ∧ text = Doc.text (History.doc t))
      (History.written h).
Proof.
  cbv zeta.
  set (inv := λ (seen : list History.Event) h,
    match History.copiedId h with Some _ => 1 | None => 0 end
    ≤ History.resets h
    ∧ Forall (λ text, ∃ t clip, History.ClickCopy t clip ∈ seen
                                ∧ text = Doc.text (History.doc t))
        (History.written h)).
  assert (Hgen : ∀ seen h, inv seen h →
                   inv (seen ++ events) (History.run events h)).
  { induction events as [|e later IH]; intros seen h Hinv.
    - by rewrite app_nil_r.
    - unfold History.run. cbn [foldl].
      replace (seen ++ e :: later) with ((seen ++ [e]) ++ later)
        by (by rewrite <- app_assoc).
      apply IH. clear IH. destruct Hinv as [Hreset Hwritten].
      assert (Hold : Forall (λ text, ∃ t clip,
                        History.ClickCopy t clip ∈ seen ++ [e]
                        ∧ text = Doc.text (History.doc t))
                      (History.written h)).
      { eapply Forall_impl; [exact Hwritten|].
        intros text (t & clip & Hin & ->). exists t, clip.
        split; [|done]. apply elem_of_app. by left. }
      destruct e as [t|t clip| |t destroy]; unfold inv, History.handle.
      + done.
      + destruct (History.copyDisabled _); [done|].
        destruct clip; [|done]. cbn. split; [lia|].
        apply Forall_app. split; [done|].
        constructor; [|done]. eexists t, _. split; [|done].
        apply elem_of_app. right. by constructor.
      + destruct (History.resets h) eqn:Hn; cbn; (split; [lia|done]).
      + by destruct (History.deleteDisabled _). }
  apply (Hgen [] History.mounted). split; [cbn; lia|by constructor].
Qed.
End HistoryCards.
